(** * Savings-plan simulator: a shallow embedding and its verified properties

    The development follows [SparplanSimulator_250819.py] (the class
    [SparplanSimulator] and the dataclass [SparplanParameter]), with the
    sibling sale paths of [Gutachten.py], [Gutachten250817.py] and
    [250720_final.py] and the worst-window search of
    [monte_carlo_simulator.py].

    Conventions of the embedding.
    - Python floats are exact rationals ([Q]); equalities between computed
      amounts are therefore stated with [==].  [x / 0] is [0] in [Q]; every
      division of the source that can raise is guarded as in the source.
    - A [datetime.date] built by the simulator is always
      [date(2025, 1, 1) + relativedelta(months = m)], the first day of a month;
      it is represented by the month offset [m].
    - The object [self] is a record threaded through the methods; the loops
      that mutate [self.portfolio] in place are recursions over its content.
    - [x ** (1 / 12)] is not rational-valued and the normal draws of
      [np.random.normal] are inputs: both are parameters of the model. *)

From Stdlib Require Import QArith Qminmax Qpower ZArith List Sorted Lia Lqa String Bool.
Import ListNotations.
Open Scope Q_scope.

(** ** Numeric helpers *)

(** The pruning threshold [1e-9] of the sale loops. *)
Definition eps : Q := 1 # 1000000000.

(** Python's [sum(...)] over a list of amounts. *)
Definition qsum (l : list Q) : Q := fold_right Qplus 0 l.

(** ** Exceptions of the source that a configuration can trigger *)

Inductive exn : Type :=
| ZeroDivisionError
| IndexError.

Inductive result (A : Type) : Type :=
| Ok (a : A)
| Raise (e : exn).
Arguments Ok {A} a.
Arguments Raise {A} e.

Definition bind {A B : Type} (r : result A) (k : A -> result B) : result B :=
  match r with
  | Ok a => k a
  | Raise e => Raise e
  end.

Notation "'do' x <- r ;; k" := (bind r (fun x => k))
  (at level 10, x name, r at level 100, k at level 200).

(** ** Dates *)

(** Months since 2025-01-01. *)
Definition date : Type := nat.
Bind Scope nat_scope with date.

Definition start_date : date := 0%nat.

(** [current_date.year - 2025]. *)
Definition years_since_start (d : date) : Z := Z.of_nat (d / 12).

(** [current_date.month], in 1..12. *)
Definition month_of (d : date) : Z := Z.of_nat (d mod 12) + 1.

Definition is_leap (y : Z) : bool :=
  ((y mod 4 =? 0) && negb (y mod 100 =? 0) || (y mod 400 =? 0))%Z%bool.

Definition days_in_month (y m : Z) : Z :=
  (if (m =? 2) then (if is_leap y then 29 else 28)
   else if (m =? 4) || (m =? 6) || (m =? 9) || (m =? 11) then 30 else 31)%Z.

(** Days from 2025-01-01 to the first day of month offset [d]. *)
Fixpoint days_since_start (d : date) : Z :=
  match d with
  | O => 0%Z
  | S d' => (days_since_start d' + days_in_month (2025 + years_since_start d') (month_of d'))%Z
  end.

(** [(d2 - d1).days / 365.25]. *)
Definition years_between (d1 d2 : date) : Q :=
  inject_Z (days_since_start d2 - days_since_start d1) / (36525 # 100).

(** ** Data model *)

(** One entry of [self.portfolio] (a dict with these five keys). *)
Record Lot : Type := mkLot {
  lot_date : date;
  amount_invested : Q;
  value : Q;
  start_of_prev_year_value : Q;
  vorabpauschalen_bereits_versteuert : Q
}.

(** The lot appended by every deposit and reinvestment. *)
Definition new_lot (d : date) (netto : Q) : Lot :=
  mkLot d netto netto netto 0.

(** [sum(e["value"] for e in self.portfolio)]. *)
Definition depotwert_of (pf : list Lot) : Q := qsum (map value pf).

Module SparplanParameter.

(** The dataclass [SparplanParameter].  [monthly_return] and [full_tax_rate]
    are the two attributes that [_initialisiere_simulation] attaches to the
    object; before that call their content stands for the absent attribute.
    [entnahme_plan] is the dict as an association list ([[]] for [None] and
    for the empty dict, both falsy in the source). *)
Record t : Type := mk {
  label : string;
  versicherung_modus : bool;
  eintrittsalter : Z;
  initial_investment : Q;
  monthly_investment : Q;
  laufzeit : Z;
  beitragszahldauer : Z;
  monthly_dynamik_rate : Q;
  dynamik_turnus_monate : Z;
  sonderzahlung_jahr : Q;
  sonderzahlung_betrag : Q;
  regel_sonderzahlung_betrag : Q;
  regel_sonderzahlung_turnus_jahre : Z;
  annual_withdrawal : Q;
  entnahme_plan : list (Z * Q);
  entnahme_modus : string;
  annual_return : Q;
  ausgabeaufschlag : Q;
  ruecknahmeabschlag : Q;
  ter : Q;
  serviceentgelt : Q;
  stueckkosten : Q;
  abschlusskosten_einmalig_prozent : Q;
  abschlusskosten_monatlich_prozent : Q;
  verrechnungsdauer_monate : Z;
  verwaltungskosten_monatlich_prozent : Q;
  guthabenkosten : Q;
  abgeltungssteuer_rate : Q;
  soli_zuschlag_on_abgeltungssteuer : Q;
  kirchensteuer_on_abgeltungssteuer : Q;
  persoenlicher_steuersatz : Q;
  freistellungsauftrag_jahr : Q;
  teilfreistellung : Q;
  basiszins : Q;
  rebalancing_rate : Q;
  bewertungsdauer : Z;
  inflation_rate : Q;
  inflation_volatility : Q;
  freistellungs_pauschbetrag_anpassung_rate : Q;
  monthly_return : Q;
  full_tax_rate : Q
}.

(** [self.params.monthly_return = ...; self.params.full_tax_rate = ...]. *)
Definition set_derived (mr ftr : Q) (p : t) : t :=
  mk (label p) (versicherung_modus p) (eintrittsalter p) (initial_investment p)
     (monthly_investment p) (laufzeit p) (beitragszahldauer p) (monthly_dynamik_rate p)
     (dynamik_turnus_monate p) (sonderzahlung_jahr p) (sonderzahlung_betrag p)
     (regel_sonderzahlung_betrag p) (regel_sonderzahlung_turnus_jahre p)
     (annual_withdrawal p) (entnahme_plan p) (entnahme_modus p) (annual_return p)
     (ausgabeaufschlag p) (ruecknahmeabschlag p) (ter p) (serviceentgelt p)
     (stueckkosten p) (abschlusskosten_einmalig_prozent p)
     (abschlusskosten_monatlich_prozent p) (verrechnungsdauer_monate p)
     (verwaltungskosten_monatlich_prozent p) (guthabenkosten p)
     (abgeltungssteuer_rate p) (soli_zuschlag_on_abgeltungssteuer p)
     (kirchensteuer_on_abgeltungssteuer p) (persoenlicher_steuersatz p)
     (freistellungsauftrag_jahr p) (teilfreistellung p) (basiszins p)
     (rebalancing_rate p) (bewertungsdauer p) (inflation_rate p)
     (inflation_volatility p) (freistellungs_pauschbetrag_anpassung_rate p)
     mr ftr.

(** Insurance mode: [ausgabeaufschlag = ruecknahmeabschlag = stueckkosten = 0.0]. *)
Definition clear_depot_costs (p : t) : t :=
  mk (label p) (versicherung_modus p) (eintrittsalter p) (initial_investment p)
     (monthly_investment p) (laufzeit p) (beitragszahldauer p) (monthly_dynamik_rate p)
     (dynamik_turnus_monate p) (sonderzahlung_jahr p) (sonderzahlung_betrag p)
     (regel_sonderzahlung_betrag p) (regel_sonderzahlung_turnus_jahre p)
     (annual_withdrawal p) (entnahme_plan p) (entnahme_modus p) (annual_return p)
     0 0 (ter p) (serviceentgelt p)
     0 (abschlusskosten_einmalig_prozent p)
     (abschlusskosten_monatlich_prozent p) (verrechnungsdauer_monate p)
     (verwaltungskosten_monatlich_prozent p) (guthabenkosten p)
     (abgeltungssteuer_rate p) (soli_zuschlag_on_abgeltungssteuer p)
     (kirchensteuer_on_abgeltungssteuer p) (persoenlicher_steuersatz p)
     (freistellungsauftrag_jahr p) (teilfreistellung p) (basiszins p)
     (rebalancing_rate p) (bewertungsdauer p) (inflation_rate p)
     (inflation_volatility p) (freistellungs_pauschbetrag_anpassung_rate p)
     (monthly_return p) (full_tax_rate p).

(** Depot mode: the two acquisition-cost rates, the administration-cost rate
    and [guthabenkosten] are set to [0.0]. *)
Definition clear_insurance_costs (p : t) : t :=
  mk (label p) (versicherung_modus p) (eintrittsalter p) (initial_investment p)
     (monthly_investment p) (laufzeit p) (beitragszahldauer p) (monthly_dynamik_rate p)
     (dynamik_turnus_monate p) (sonderzahlung_jahr p) (sonderzahlung_betrag p)
     (regel_sonderzahlung_betrag p) (regel_sonderzahlung_turnus_jahre p)
     (annual_withdrawal p) (entnahme_plan p) (entnahme_modus p) (annual_return p)
     (ausgabeaufschlag p) (ruecknahmeabschlag p) (ter p) (serviceentgelt p)
     (stueckkosten p) 0
     0 (verrechnungsdauer_monate p)
     0 0
     (abgeltungssteuer_rate p) (soli_zuschlag_on_abgeltungssteuer p)
     (kirchensteuer_on_abgeltungssteuer p) (persoenlicher_steuersatz p)
     (freistellungsauftrag_jahr p) (teilfreistellung p) (basiszins p)
     (rebalancing_rate p) (bewertungsdauer p) (inflation_rate p)
     (inflation_volatility p) (freistellungs_pauschbetrag_anpassung_rate p)
     (monthly_return p) (full_tax_rate p).

End SparplanParameter.

Module P := SparplanParameter.

(** The cumulative cost and tax counters of [self]; the simulator keeps each
    of them twice, nominal ([..._summe], [total_tax_paid], ...) and deflated
    ([..._real_summe], [total_tax_paid_real], ...). *)
Record Counters : Type := mkCounters {
  ausgabeaufschlag_summe : Q;
  ruecknahmeabschlag_summe : Q;
  stueckkosten_summe : Q;
  abschlusskosten_summe : Q;
  verwaltungskosten_summe : Q;
  guthabenkosten_summe : Q;
  ter_summe : Q;
  serviceentgelt_summe : Q;
  kumulierte_entnahmen : Q;
  total_tax_paid : Q;
  total_withdrawal_tax_paid : Q
}.

Definition zero_counters : Counters := mkCounters 0 0 0 0 0 0 0 0 0 0 0.

Inductive Konto : Type :=
| KAusgabeaufschlag | KRuecknahmeabschlag | KStueckkosten | KAbschlusskosten
| KVerwaltungskosten | KGuthabenkosten | KTer | KServiceentgelt
| KEntnahmen | KTax | KWithdrawalTax.

(** [counter += a] for the counter named [k]. *)
Definition add_to (k : Konto) (a : Q) (c : Counters) : Counters :=
  match c with
  | mkCounters aa ra sk ab vw gk te se en tx wt =>
    match k with
    | KAusgabeaufschlag => mkCounters (aa + a) ra sk ab vw gk te se en tx wt
    | KRuecknahmeabschlag => mkCounters aa (ra + a) sk ab vw gk te se en tx wt
    | KStueckkosten => mkCounters aa ra (sk + a) ab vw gk te se en tx wt
    | KAbschlusskosten => mkCounters aa ra sk (ab + a) vw gk te se en tx wt
    | KVerwaltungskosten => mkCounters aa ra sk ab (vw + a) gk te se en tx wt
    | KGuthabenkosten => mkCounters aa ra sk ab vw (gk + a) te se en tx wt
    | KTer => mkCounters aa ra sk ab vw gk (te + a) se en tx wt
    | KServiceentgelt => mkCounters aa ra sk ab vw gk te (se + a) en tx wt
    | KEntnahmen => mkCounters aa ra sk ab vw gk te se (en + a) tx wt
    | KTax => mkCounters aa ra sk ab vw gk te se en (tx + a) wt
    | KWithdrawalTax => mkCounters aa ra sk ab vw gk te se en tx (wt + a)
    end
  end.

(** One element of [self.rebalancing_log]. *)
Record RebalancingRow : Type := mkRebalancingRow {
  Datum : date;
  Bruttoverkauf : Q;
  Steuer : Q;
  Netto_reinvestiert : Q
}.

(** One element of [self.monatliche_kosten_logs]. *)
Record LogRow : Type := mkLogRow {
  log_Datum : date;
  Depotwert : Q;
  Depotwert_real : Q;
  kum : Counters;
  kum_real : Counters
}.

(** The simulator object. *)
Record State : Type := mkState {
  params : P.t;
  dynamic_returns : option (list Q);
  portfolio : list Lot;
  rebalancing_log : list RebalancingRow;
  monatliche_kosten_logs : list LogRow;
  cashflows : list Q;
  cashflow_dates : list date;
  real_cashflows : list Q;
  nominal : Counters;
  real : Counters;
  freistellungs_topf : Q;
  monthly_investment : Q;
  abschlusskosten_rest : Q;
  verwaltungskosten_rest : Q;
  kumulierte_inflation_factor : Q;
  monthly_inflation_rates : list Q
}.

Definition set_params (p : P.t) (s : State) : State :=
  mkState p (dynamic_returns s) (portfolio s) (rebalancing_log s)
    (monatliche_kosten_logs s) (cashflows s) (cashflow_dates s) (real_cashflows s)
    (nominal s) (real s) (freistellungs_topf s) (monthly_investment s)
    (abschlusskosten_rest s) (verwaltungskosten_rest s)
    (kumulierte_inflation_factor s) (monthly_inflation_rates s).

Definition set_portfolio (pf : list Lot) (s : State) : State :=
  mkState (params s) (dynamic_returns s) pf (rebalancing_log s)
    (monatliche_kosten_logs s) (cashflows s) (cashflow_dates s) (real_cashflows s)
    (nominal s) (real s) (freistellungs_topf s) (monthly_investment s)
    (abschlusskosten_rest s) (verwaltungskosten_rest s)
    (kumulierte_inflation_factor s) (monthly_inflation_rates s).

(** [self.rebalancing_log.append(row)]. *)
Definition log_rebalancing (row : RebalancingRow) (s : State) : State :=
  mkState (params s) (dynamic_returns s) (portfolio s) (rebalancing_log s ++ [row])
    (monatliche_kosten_logs s) (cashflows s) (cashflow_dates s) (real_cashflows s)
    (nominal s) (real s) (freistellungs_topf s) (monthly_investment s)
    (abschlusskosten_rest s) (verwaltungskosten_rest s)
    (kumulierte_inflation_factor s) (monthly_inflation_rates s).

(** [self.monatliche_kosten_logs.append(row)]. *)
Definition log_month (row : LogRow) (s : State) : State :=
  mkState (params s) (dynamic_returns s) (portfolio s) (rebalancing_log s)
    (monatliche_kosten_logs s ++ [row]) (cashflows s) (cashflow_dates s)
    (real_cashflows s)
    (nominal s) (real s) (freistellungs_topf s) (monthly_investment s)
    (abschlusskosten_rest s) (verwaltungskosten_rest s)
    (kumulierte_inflation_factor s) (monthly_inflation_rates s).

(** The three appends [self.cashflows.append(a)],
    [self.real_cashflows.append(r)], [self.cashflow_dates.append(d)]. *)
Definition push_cashflow (d : date) (a r : Q) (s : State) : State :=
  mkState (params s) (dynamic_returns s) (portfolio s) (rebalancing_log s)
    (monatliche_kosten_logs s) (cashflows s ++ [a]) (cashflow_dates s ++ [d])
    (real_cashflows s ++ [r])
    (nominal s) (real s) (freistellungs_topf s) (monthly_investment s)
    (abschlusskosten_rest s) (verwaltungskosten_rest s)
    (kumulierte_inflation_factor s) (monthly_inflation_rates s).

(** A cash flow of nominal amount [a], deflated by the current factor. *)
Definition cashflow (d : date) (a : Q) (s : State) : State :=
  push_cashflow d a (a / kumulierte_inflation_factor s) s.

(** [self.x_summe += a; self.x_real_summe += a / self.kumulierte_inflation_factor]. *)
Definition charge (k : Konto) (a : Q) (s : State) : State :=
  mkState (params s) (dynamic_returns s) (portfolio s) (rebalancing_log s)
    (monatliche_kosten_logs s) (cashflows s) (cashflow_dates s) (real_cashflows s)
    (add_to k a (nominal s)) (add_to k (a / kumulierte_inflation_factor s) (real s))
    (freistellungs_topf s) (monthly_investment s)
    (abschlusskosten_rest s) (verwaltungskosten_rest s)
    (kumulierte_inflation_factor s) (monthly_inflation_rates s).

Definition set_freistellungs_topf (x : Q) (s : State) : State :=
  mkState (params s) (dynamic_returns s) (portfolio s) (rebalancing_log s)
    (monatliche_kosten_logs s) (cashflows s) (cashflow_dates s) (real_cashflows s)
    (nominal s) (real s) x (monthly_investment s)
    (abschlusskosten_rest s) (verwaltungskosten_rest s)
    (kumulierte_inflation_factor s) (monthly_inflation_rates s).

Definition set_monthly_investment (x : Q) (s : State) : State :=
  mkState (params s) (dynamic_returns s) (portfolio s) (rebalancing_log s)
    (monatliche_kosten_logs s) (cashflows s) (cashflow_dates s) (real_cashflows s)
    (nominal s) (real s) (freistellungs_topf s) x
    (abschlusskosten_rest s) (verwaltungskosten_rest s)
    (kumulierte_inflation_factor s) (monthly_inflation_rates s).

Definition set_abschlusskosten_rest (x : Q) (s : State) : State :=
  mkState (params s) (dynamic_returns s) (portfolio s) (rebalancing_log s)
    (monatliche_kosten_logs s) (cashflows s) (cashflow_dates s) (real_cashflows s)
    (nominal s) (real s) (freistellungs_topf s) (monthly_investment s)
    x (verwaltungskosten_rest s)
    (kumulierte_inflation_factor s) (monthly_inflation_rates s).

Definition set_kumulierte_inflation_factor (x : Q) (s : State) : State :=
  mkState (params s) (dynamic_returns s) (portfolio s) (rebalancing_log s)
    (monatliche_kosten_logs s) (cashflows s) (cashflow_dates s) (real_cashflows s)
    (nominal s) (real s) (freistellungs_topf s) (monthly_investment s)
    (abschlusskosten_rest s) (verwaltungskosten_rest s)
    x (monthly_inflation_rates s).

(** [self.portfolio.append(lot)]. *)
Definition append_lot (l : Lot) (s : State) : State :=
  set_portfolio (portfolio s ++ [l]) s.

(** ** The class [SparplanSimulator] of [SparplanSimulator_250819.py] *)

Definition set_value (v : Q) (e : Lot) : Lot :=
  mkLot (lot_date e) (amount_invested e) v (start_of_prev_year_value e)
        (vorabpauschalen_bereits_versteuert e).

(** [for entry in self.portfolio: entry["value"] -= x * (entry["value"] / depotwert)]. *)
Definition deduct_proportional (x depotwert : Q) (pf : list Lot) : list Lot :=
  map (fun e => set_value (value e - x * (value e / depotwert)) e) pf.

(** [for entry in self.portfolio: entry["value"] *= (1 + r)]. *)
Definition grow (r : Q) (pf : list Lot) : list Lot :=
  map (fun e => set_value (value e * (1 + r)) e) pf.

(** [for entry in self.portfolio: entry["start_of_prev_year_value"] = entry["value"]]. *)
Definition snapshot (pf : list Lot) : list Lot :=
  map (fun e => mkLot (lot_date e) (amount_invested e) (value e) (value e)
                      (vorabpauschalen_bereits_versteuert e)) pf.

(** [__init__]; [draws] is the array drawn by [np.random.normal]. *)
Definition __init__ (p : P.t) (dyn : option (list Q)) (draws : list Q) : State :=
  mkState p dyn [] [] [] [] [] [] zero_counters zero_counters
          (P.freistellungsauftrag_jahr p) (P.monthly_investment p) 0 0 1 draws.

(** [_initialisiere_simulation]; [root12 x] stands for [x ** (1 / 12)]. *)
Definition _initialisiere_simulation (root12 : Q -> Q) (s : State) : State :=
  let p0 := params s in
  let p1 := P.set_derived
              (root12 (1 + P.annual_return p0) - 1)
              (P.abgeltungssteuer_rate p0 *
               (1 + P.soli_zuschlag_on_abgeltungssteuer p0
                  + P.kirchensteuer_on_abgeltungssteuer p0)) p0 in
  let s :=
    if P.versicherung_modus p1 then
      let p2 := P.clear_depot_costs p1 in
      set_abschlusskosten_rest
        (P.initial_investment p2 * P.abschlusskosten_einmalig_prozent p2
         + (P.monthly_investment p2 * inject_Z (P.beitragszahldauer p2) * 12)
           * P.abschlusskosten_monatlich_prozent p2)
        (set_params p2 s)
    else set_params (P.clear_insurance_costs p1) s in
  let p := params s in
  let aufschlag := P.initial_investment p * P.ausgabeaufschlag p in
  let nettobetrag := P.initial_investment p - aufschlag in
  let s := charge KAusgabeaufschlag aufschlag s in
  let s := push_cashflow start_date (- P.initial_investment p)
                         (- P.initial_investment p) s in
  if Qlt_le_dec 0 nettobetrag then append_lot (new_lot start_date nettobetrag) s
  else s.

(** [_handle_monthly_investment]; [month % 0] raises in the source. *)
Definition _handle_monthly_investment (month : nat) (current_date : date)
           (s : State) : result State :=
  let p := params s in
  let m := Z.of_nat month in
  do s <- (if (0 <? m)%Z then
             if (P.dynamik_turnus_monate p =? 0)%Z then Raise ZeroDivisionError
             else if (m mod P.dynamik_turnus_monate p =? 0)%Z then
               Ok (set_monthly_investment
                     (monthly_investment s * (1 + P.monthly_dynamik_rate p)) s)
             else Ok s
           else Ok s) ;;
  let is_einmalig := Qeq_bool (inject_Z m) (P.sonderzahlung_jahr p * 12) in
  let is_regelmaessig :=
    ((0 <? P.regel_sonderzahlung_turnus_jahre p)%Z && (0 <? m)%Z
     && (m mod (P.regel_sonderzahlung_turnus_jahre p * 12) =? 0)%Z)%bool in
  let s :=
    if (is_einmalig || is_regelmaessig)%bool then
      let betrag := if is_einmalig then P.sonderzahlung_betrag p
                    else P.regel_sonderzahlung_betrag p in
      if Qlt_le_dec 0 betrag then
        let s := cashflow current_date (- betrag) s in
        if negb (P.versicherung_modus p) then
          let aufschlag := betrag * P.ausgabeaufschlag p in
          let netto := betrag - aufschlag in
          let s := charge KAusgabeaufschlag aufschlag s in
          let s := charge KStueckkosten (P.stueckkosten p) s in
          append_lot (new_lot current_date netto) s
        else append_lot (new_lot current_date betrag) s
      else s
    else s in
  if (m <? P.beitragszahldauer p * 12)%Z then
    let aufschlag := monthly_investment s * P.ausgabeaufschlag p in
    let netto := monthly_investment s - aufschlag in
    let s := charge KAusgabeaufschlag aufschlag s in
    let s := cashflow current_date (- monthly_investment s) s in
    Ok (append_lot (new_lot current_date netto) s)
  else Ok s.

(** [_handle_costs]. *)
Definition _handle_costs (month : nat) (current_date : date) (s : State) : State :=
  let p := params s in
  let m := Z.of_nat month in
  let depotwert := depotwert_of (portfolio s) in
  let s :=
    if (negb (P.versicherung_modus p) && (month_of current_date =? 1)%Z)%bool then
      if Qlt_le_dec 0 (P.stueckkosten p) then
        let s := charge KStueckkosten (P.stueckkosten p) s in
        let s := cashflow current_date (- P.stueckkosten p) s in
        if Qlt_le_dec 0 depotwert then
          set_portfolio (deduct_proportional (P.stueckkosten p) depotwert (portfolio s)) s
        else s
      else s
    else s in
  let s :=
    if Qlt_le_dec 0 depotwert then
      let fond_kosten := depotwert * P.ter p / 12 in
      let service_kosten := depotwert * P.serviceentgelt p / 12 in
      let guthaben_kosten :=
        if P.versicherung_modus p then depotwert * P.guthabenkosten p / 12 else 0 in
      let total_kosten := fond_kosten + service_kosten + guthaben_kosten in
      let s := set_portfolio (deduct_proportional total_kosten depotwert (portfolio s)) s in
      let s := charge KTer fond_kosten s in
      let s := charge KServiceentgelt service_kosten s in
      if P.versicherung_modus p then charge KGuthabenkosten guthaben_kosten s else s
    else s in
  if P.versicherung_modus p then
    let s :=
      if ((m <? P.verrechnungsdauer_monate p)%Z
          && (if Qlt_le_dec 0 (abschlusskosten_rest s) then true else false))%bool then
        let monatliche_abschlusskosten :=
          abschlusskosten_rest s / inject_Z (P.verrechnungsdauer_monate p) in
        let s := cashflow current_date (- monatliche_abschlusskosten) s in
        let s :=
          if Qlt_le_dec 0 depotwert then
            set_portfolio
              (deduct_proportional monatliche_abschlusskosten depotwert (portfolio s)) s
          else s in
        charge KAbschlusskosten monatliche_abschlusskosten s
      else s in
    if (m <? P.beitragszahldauer p * 12)%Z then
      let monatliche_verwaltungskosten :=
        monthly_investment s * P.verwaltungskosten_monatlich_prozent p in
      let s := cashflow current_date (- monatliche_verwaltungskosten) s in
      let s :=
        if Qlt_le_dec 0 depotwert then
          set_portfolio
            (deduct_proportional monatliche_verwaltungskosten depotwert (portfolio s)) s
        else s in
      charge KVerwaltungskosten monatliche_verwaltungskosten s
    else s
  else s.

(** The body of the loop of [_handle_taxes]: the advance lump-sum tax
    (Vorabpauschale) of one lot. *)
Definition vorabpauschale (current_date : date) (entry : Lot) (s : State)
  : Lot * State :=
  let p := params s in
  let start_value := start_of_prev_year_value entry in
  let fiktiver_ertrag := start_value * P.basiszins p in
  let real_ertrag := value entry - start_value in
  let steuerbarer_ertrag := Qmin fiktiver_ertrag real_ertrag in
  let steuerfreibetrag_verfuegbar := freistellungs_topf s in
  let zu_versteuern_temp := steuerbarer_ertrag * (1 - P.teilfreistellung p) in
  let steuerfreibetrag_used :=
    Qmin steuerfreibetrag_verfuegbar (Qmax 0 zu_versteuern_temp) in
  let s := set_freistellungs_topf (freistellungs_topf s - steuerfreibetrag_used) s in
  let zu_versteuern := Qmax 0 (zu_versteuern_temp - steuerfreibetrag_used) in
  let steuer := zu_versteuern * P.full_tax_rate p in
  if Qlt_le_dec 0 steuer then
    let s := cashflow current_date (- steuer) s in
    let s := charge KTax steuer s in
    (mkLot (lot_date entry) (amount_invested entry) (value entry - steuer)
           (start_of_prev_year_value entry)
           (vorabpauschalen_bereits_versteuert entry + zu_versteuern), s)
  else (entry, s).

(** [for entry in self.portfolio: ...] of [_handle_taxes]. *)
Fixpoint taxes_loop (current_date : date) (pf : list Lot) (s : State)
  : list Lot * State :=
  match pf with
  | [] => ([], s)
  | entry :: rest =>
    let (entry', s1) := vorabpauschale current_date entry s in
    let (rest', s2) := taxes_loop current_date rest s1 in
    (entry' :: rest', s2)
  end.

(** [_handle_taxes]. *)
Definition _handle_taxes (current_date : date) (s : State) : State :=
  if (negb (P.versicherung_modus (params s)) && (month_of current_date =? 1)%Z)%bool then
    let (pf, s') := taxes_loop current_date (portfolio s) s in
    set_portfolio pf s'
  else s.

(** What one pass of a sale loop sells from one lot.  The source keeps only
    running totals of these; the list of them is carried along the loops as
    ghost state, so that per-tranche statements can be made. *)
Record Sale : Type := mkSale {
  sale_lot : Lot;          (* the lot as popped from the ledger *)
  sale_value : Q;          (* [sell_value] *)
  sale_steuer : Q;         (* [steuer] *)
  sale_abschlag : Q;       (* [ruecknahmeabschlag] of the tranche *)
  sale_freibetrag : Q      (* allowance consumed by the tranche *)
}.

(** The local variables of the loop of [_handle_rebalancing]. *)
Record RebalAcc : Type := mkRebalAcc {
  rb_temp_queue : list Lot;
  total_verkauf : Q;
  total_steuer : Q;
  total_netto : Q;
  rb_sold : list Sale      (* ghost *)
}.

(** One pass of the [while] loop of [_handle_rebalancing] on a popped lot of
    positive value. *)
Definition rebalance_lot (entry : Lot) (remaining : Q) (acc : RebalAcc) (s : State)
  : Q * RebalAcc * State :=
  let p := params s in
  let sell_value := Qmin (value entry) remaining in
  let prop := sell_value / value entry in
  let cost_basis := amount_invested entry * prop in
  let gain := sell_value - cost_basis in
  let steuerbarer_gewinn := gain * (1 - P.teilfreistellung p) in
  let vorab_used :=
    Qmin (vorabpauschalen_bereits_versteuert entry * prop) steuerbarer_gewinn in
  let steuerbarer_gewinn := Qmax 0 (steuerbarer_gewinn - vorab_used) in
  let steuerfreibetrag := Qmin (freistellungs_topf s) steuerbarer_gewinn in
  let s := set_freistellungs_topf (freistellungs_topf s - steuerfreibetrag) s in
  let steuer := Qmax 0 ((steuerbarer_gewinn - steuerfreibetrag) * P.full_tax_rate p) in
  let ruecknahmeabschlag := sell_value * P.ruecknahmeabschlag p in
  let netto_reinvest := sell_value - steuer - ruecknahmeabschlag in
  let s := charge KTax steuer s in
  let s := charge KRuecknahmeabschlag ruecknahmeabschlag s in
  let entry' :=
    mkLot (lot_date entry)
          (amount_invested entry - cost_basis)
          (value entry - sell_value)
          (start_of_prev_year_value entry)
          (Qmax 0 (vorabpauschalen_bereits_versteuert entry - vorab_used)) in
  let acc :=
    mkRebalAcc
      (if Qlt_le_dec eps (value entry') then rb_temp_queue acc ++ [entry']
       else rb_temp_queue acc)
      (total_verkauf acc + sell_value)
      (total_steuer acc + steuer)
      (total_netto acc + netto_reinvest)
      (rb_sold acc ++ [mkSale entry sell_value steuer ruecknahmeabschlag steuerfreibetrag]) in
  (remaining - sell_value, acc, s).

(** [while remaining > 1e-9 and self.portfolio: ...]; the first component of
    the result is what is left in [self.portfolio] when the loop ends. *)
Fixpoint rebalancing_loop (pf : list Lot) (remaining : Q) (acc : RebalAcc) (s : State)
  : list Lot * RebalAcc * State :=
  match pf with
  | [] => ([], acc, s)
  | entry :: rest =>
    if Qlt_le_dec eps remaining then
      if Qlt_le_dec 0 (value entry) then
        let '(remaining', acc', s') := rebalance_lot entry remaining acc s in
        rebalancing_loop rest remaining' acc' s'
      else rebalancing_loop rest remaining acc s
    else (pf, acc, s)
  end.

Definition empty_rebal_acc : RebalAcc := mkRebalAcc [] 0 0 0 [].

(** [_handle_rebalancing]. *)
Definition _handle_rebalancing (current_date : date) (s : State) : State :=
  let p := params s in
  if (negb (P.versicherung_modus p) && (month_of current_date =? 12)%Z
      && (if Qlt_le_dec 0 (P.rebalancing_rate p) then true else false))%bool then
    let depotwert := depotwert_of (portfolio s) in
    let umzuschichten := depotwert * P.rebalancing_rate p in
    if Qlt_le_dec 0 umzuschichten then
      let '(rest, acc, s) := rebalancing_loop (portfolio s) umzuschichten empty_rebal_acc s in
      let s := set_portfolio (rb_temp_queue acc ++ rest) s in
      let s := if Qlt_le_dec eps (total_netto acc)
               then append_lot (new_lot current_date (total_netto acc)) s else s in
      log_rebalancing
        (mkRebalancingRow current_date (total_verkauf acc) (total_steuer acc)
                          (total_netto acc)) s
    else s
  else s.

(** The plan lookup of [_handle_withdrawals]: the amount of the largest
    [plan_year] not above [withdrawal_year], [0] when there is none. *)
Fixpoint plan_lookup (plan : list (Z * Q)) (withdrawal_year : Z) (best : option (Z * Q))
  : Q :=
  match plan with
  | [] => match best with Some (_, v) => v | None => 0 end
  | (k, v) :: rest =>
    let better := match best with
                  | Some (k0, _) => (k0 <=? k)%Z
                  | None => true
                  end in
    if ((k <=? withdrawal_year)%Z && better)%bool
    then plan_lookup rest withdrawal_year (Some (k, v))
    else plan_lookup rest withdrawal_year best
  end.

(** [entnahmebetrag_jahr] of [_handle_withdrawals]. *)
Definition entnahmebetrag_jahr (current_date : date) (p : P.t) : Q :=
  let withdrawal_year := (years_since_start current_date - P.beitragszahldauer p + 1)%Z in
  match P.entnahme_plan p with
  | _ :: _ => plan_lookup (P.entnahme_plan p) withdrawal_year None
  | [] => if Qeq_bool (P.annual_withdrawal p) 0 then 0 else P.annual_withdrawal p
  end.

(** [entnahmebetrag] of [_handle_withdrawals], once the yearly amount is
    positive. *)
Definition entnahmebetrag_of (current_date : date) (p : P.t) : Q :=
  if (String.eqb (P.entnahme_modus p) "jährlich" && (month_of current_date =? 1)%Z)%bool
  then entnahmebetrag_jahr current_date p
  else if String.eqb (P.entnahme_modus p) "monatlich"
       then entnahmebetrag_jahr current_date p / 12
       else 0.

(** The local variables of the loop of [_handle_withdrawals]. *)
Record WithdrawAcc : Type := mkWithdrawAcc {
  wd_temp_queue : list Lot;
  netto_entnahme_summe : Q;
  total_withdrawal_tax_this_year : Q;
  wd_sold : list Sale      (* ghost *)
}.

(** One pass of the [while] loop of [_handle_withdrawals] on a popped lot of
    positive value. *)
Definition withdraw_lot (current_date : date) (oldest_entry : Lot)
           (remaining_to_withdraw : Q) (acc : WithdrawAcc) (s : State)
  : Q * WithdrawAcc * State :=
  let p := params s in
  let sell_value := Qmin (value oldest_entry) remaining_to_withdraw in
  let anteil := sell_value / value oldest_entry in
  let gewinn_anteil := (value oldest_entry - amount_invested oldest_entry) * anteil in
  let investiert_anteil := amount_invested oldest_entry * anteil in
  let '(steuer, used, vp', s) :=
    if P.versicherung_modus p then
      let aktuelle_laufzeit := years_between (lot_date oldest_entry) current_date in
      let aktuelle_alter :=
        inject_Z (P.eintrittsalter p) + years_between start_date current_date in
      if (Qle_bool 62 aktuelle_alter && Qle_bool 12 aktuelle_laufzeit)%bool
      then (gewinn_anteil * (5 # 10) * P.persoenlicher_steuersatz p, 0,
            vorabpauschalen_bereits_versteuert oldest_entry, s)
      else (gewinn_anteil * (85 # 100) * P.persoenlicher_steuersatz p, 0,
            vorabpauschalen_bereits_versteuert oldest_entry, s)
    else
      let vorabpauschalen_anteil :=
        vorabpauschalen_bereits_versteuert oldest_entry * anteil in
      let steuerbarer_gewinn := gewinn_anteil * (1 - P.teilfreistellung p) in
      let steuerbarer_gewinn_nach_vp :=
        Qmax 0 (steuerbarer_gewinn - vorabpauschalen_anteil) in
      let steuerfreibetrag_used :=
        Qmin (freistellungs_topf s) steuerbarer_gewinn_nach_vp in
      let s := set_freistellungs_topf (freistellungs_topf s - steuerfreibetrag_used) s in
      let steuer :=
        Qmax 0 ((steuerbarer_gewinn - steuerfreibetrag_used) * P.full_tax_rate p) in
      (steuer, steuerfreibetrag_used,
       vorabpauschalen_bereits_versteuert oldest_entry - vorabpauschalen_anteil, s) in
  let ruecknahmeabschlag := sell_value * P.ruecknahmeabschlag p in
  let netto_entnahme := sell_value - steuer - ruecknahmeabschlag in
  let entry' :=
    mkLot (lot_date oldest_entry)
          (amount_invested oldest_entry - investiert_anteil)
          (value oldest_entry - sell_value)
          (start_of_prev_year_value oldest_entry)
          vp' in
  let acc :=
    mkWithdrawAcc
      (if Qlt_le_dec eps (value entry') then wd_temp_queue acc ++ [entry']
       else wd_temp_queue acc)
      (netto_entnahme_summe acc + netto_entnahme)
      (total_withdrawal_tax_this_year acc + steuer)
      (wd_sold acc ++ [mkSale oldest_entry sell_value steuer ruecknahmeabschlag used]) in
  (remaining_to_withdraw - sell_value, acc, s).

(** [while remaining_to_withdraw > 1e-9 and self.portfolio: ...]. *)
Fixpoint withdrawal_loop (current_date : date) (pf : list Lot) (remaining : Q)
         (acc : WithdrawAcc) (s : State) : list Lot * WithdrawAcc * State :=
  match pf with
  | [] => ([], acc, s)
  | oldest_entry :: rest =>
    if Qlt_le_dec eps remaining then
      if Qlt_le_dec 0 (value oldest_entry) then
        let '(remaining', acc', s') :=
          withdraw_lot current_date oldest_entry remaining acc s in
        withdrawal_loop current_date rest remaining' acc' s'
      else withdrawal_loop current_date rest remaining acc s
    else (pf, acc, s)
  end.

Definition empty_withdraw_acc : WithdrawAcc := mkWithdrawAcc [] 0 0 [].

(** [_handle_withdrawals]. *)
Definition _handle_withdrawals (month : nat) (current_date : date) (s : State) : State :=
  let p := params s in
  if (Z.of_nat month <? P.beitragszahldauer p * 12)%Z then s
  else
    let depotwert := depotwert_of (portfolio s) in
    let jahr := entnahmebetrag_jahr current_date p in
    if Qlt_le_dec 0 jahr then
      let entnahmebetrag := entnahmebetrag_of current_date p in
      if Qlt_le_dec 0 entnahmebetrag then
        if Qlt_le_dec depotwert entnahmebetrag then s
        else
          let '(rest, acc, s) :=
            withdrawal_loop current_date (portfolio s) entnahmebetrag
                            empty_withdraw_acc s in
          let s := set_portfolio (wd_temp_queue acc ++ rest) s in
          let s := charge KTax (total_withdrawal_tax_this_year acc) s in
          let s := charge KWithdrawalTax (total_withdrawal_tax_this_year acc) s in
          let s := charge KRuecknahmeabschlag
                          (entnahmebetrag * P.ruecknahmeabschlag p) s in
          let s := charge KEntnahmen (netto_entnahme_summe acc) s in
          cashflow current_date (netto_entnahme_summe acc) s
      else s
    else s.

(** The row that [_simuliere_monat] and [_finalisiere_simulation] append to
    [self.monatliche_kosten_logs]. *)
Definition log_row (d : date) (s : State) : LogRow :=
  let depotwert := depotwert_of (portfolio s) in
  mkLogRow d depotwert (depotwert / kumulierte_inflation_factor s) (nominal s) (real s).

(** The date [date(2025, 1, 1) + relativedelta(months = laufzeit * 12)]. *)
Definition end_date (p : P.t) : date := Z.to_nat (P.laufzeit p * 12).

(** [_finalisiere_simulation]. *)
Definition _finalisiere_simulation (s : State) : State :=
  let p := params s in
  let s := log_month (log_row (end_date p) s) s in
  let restwert := depotwert_of (portfolio s) in
  if Qlt_le_dec eps restwert then
    let investiert := qsum (map amount_invested (portfolio s)) in
    let gewinn := Qmax 0 (restwert - investiert) in
    let '(steuer, s) :=
      if P.versicherung_modus p then
        let aktuelle_laufzeit := P.laufzeit p in
        let aktuelle_alter := (P.eintrittsalter p + aktuelle_laufzeit)%Z in
        if ((62 <=? aktuelle_alter)%Z && (12 <=? aktuelle_laufzeit)%Z)%bool
        then (gewinn * (5 # 10) * P.persoenlicher_steuersatz p, s)
        else (gewinn * (85 # 100) * P.persoenlicher_steuersatz p, s)
      else
        let steuerbar := gewinn * (1 - P.teilfreistellung p) in
        let bereits_versteuert :=
          qsum (map vorabpauschalen_bereits_versteuert (portfolio s)) in
        let steuerbar := Qmax 0 (steuerbar - bereits_versteuert) in
        let steuer := steuerbar * P.full_tax_rate p in
        (steuer, charge KWithdrawalTax steuer s) in
    let ruecknahmeabschlag := restwert * P.ruecknahmeabschlag p in
    let s := charge KTax steuer s in
    let s := charge KRuecknahmeabschlag ruecknahmeabschlag s in
    let restwert_net := restwert - steuer - ruecknahmeabschlag in
    let s := cashflow (end_date p) restwert_net s in
    charge KEntnahmen restwert_net s
  else s.

(** [if self.dynamic_returns: ... self.dynamic_returns[month] else ...]. *)
Definition monthly_return_val (month : nat) (s : State) : result Q :=
  match dynamic_returns s with
  | Some (r0 :: rs) =>
    match nth_error (r0 :: rs) month with
    | Some r => Ok r
    | None => Raise IndexError
    end
  | _ => Ok (P.monthly_return (params s))
  end.

(** The January reset of the allowance bucket in [_simuliere_monat]. *)
Definition reset_freistellungs_topf (current_date : date) (s : State) : State :=
  let p := params s in
  set_freistellungs_topf
    (P.freistellungsauftrag_jahr p
     * (1 + P.freistellungs_pauschbetrag_anpassung_rate p) ^ years_since_start current_date)
    s.

(** [_simuliere_monat]. *)
Definition _simuliere_monat (month : nat) (s : State) : result State :=
  let current_date : date := month in
  let is_january := (month_of current_date =? 1)%Z in
  let s := if is_january then reset_freistellungs_topf current_date s else s in
  do s <- _handle_monthly_investment month current_date s ;;
  let s := _handle_costs month current_date s in
  do r <- monthly_return_val month s ;;
  let s := set_portfolio (grow r (portfolio s)) s in
  do infl <- match nth_error (monthly_inflation_rates s) month with
             | Some x => Ok x
             | None => Raise IndexError
             end ;;
  let s := set_kumulierte_inflation_factor
             (kumulierte_inflation_factor s * (1 + infl)) s in
  let s := _handle_taxes current_date s in
  let s := _handle_rebalancing current_date s in
  let s := _handle_withdrawals month current_date s in
  let s := log_month (log_row current_date s) s in
  Ok (if (month_of current_date =? 12)%Z
      then set_portfolio (snapshot (portfolio s)) s else s).

(** [for month in range(self.params.laufzeit * 12): self._simuliere_monat(month)]. *)
Fixpoint run_months (months : list nat) (s : State) : result State :=
  match months with
  | [] => Ok s
  | month :: rest => do s' <- _simuliere_monat month s ;; run_months rest s'
  end.

(** [run_simulation]; the tuple it returns is made of fields of the final object. *)
Definition run_simulation (root12 : Q -> Q) (s : State) : result State :=
  let s := _initialisiere_simulation root12 s in
  do s <- run_months (seq 0 (Z.to_nat (P.laufzeit (params s) * 12))) s ;;
  Ok (_finalisiere_simulation s).

(** ** Sample configurations *)

(** A depot scenario in the style of the repository's own scenarios. *)
Definition depot_params : P.t :=
  P.mk "Depot" false 40 10000 400 2 1 0 12 0 0 0 0 12000 [] "jährlich"
       (6 # 100) (2 # 1000) (2 # 1000) (45 # 10000) (119 # 10000) 45
       (25 # 1000) (25 # 1000) 60 (3 # 100) (1 # 100)
       (25 # 100) (55 # 1000) (9 # 100) (42 # 100) 1000 (3 # 10) (255 # 10000)
       (2 # 10) 12 (2 # 100) (1 # 100) (2 # 100) 0 0.

Definition versicherung_params : P.t :=
  P.mk "Versicherung" true 40 10000 400 2 1 0 12 0 0 0 0 12000 [] "jährlich"
       (6 # 100) (2 # 1000) (2 # 1000) (45 # 10000) (119 # 10000) 45
       (25 # 1000) (25 # 1000) 60 (3 # 100) (1 # 100)
       (25 # 100) (55 # 1000) (9 # 100) (42 # 100) 1000 (3 # 10) (255 # 10000)
       (2 # 10) 12 (2 # 100) (1 # 100) (2 # 100) 0 0.

(** The depot scenario with the escalation interval set to 0. *)
Definition zero_turnus_params : P.t :=
  P.mk "Depot" false 40 10000 400 2 1 0 0 0 0 0 0 12000 [] "jährlich"
       (6 # 100) (2 # 1000) (2 # 1000) (45 # 10000) (119 # 10000) 45
       (25 # 1000) (25 # 1000) 60 (3 # 100) (1 # 100)
       (25 # 100) (55 # 1000) (9 # 100) (42 # 100) 1000 (3 # 10) (255 # 10000)
       (2 # 10) 12 (2 # 100) (1 # 100) (2 # 100) 0 0.

(** The insurance scenario with the acquisition costs spread over the first
    year only. *)
Definition short_amortisation_params : P.t :=
  P.mk "Versicherung" true 40 10000 400 2 1 0 12 0 0 0 0 12000 [] "jährlich"
       (6 # 100) (2 # 1000) (2 # 1000) (45 # 10000) (119 # 10000) 45
       (25 # 1000) (25 # 1000) 12 (3 # 100) (1 # 100)
       (25 # 100) (55 # 1000) (9 # 100) (42 # 100) 1000 (3 # 10) (255 # 10000)
       (2 # 10) 12 (2 # 100) (1 # 100) (2 # 100) 0 0.

(** ** The sale path of [Gutachten.py] *)

Module Gutachten.

(** The depot branch (the [else] of [if self.params.versicherung_modus]) of
    the loop body of [_handle_withdrawals] in [Gutachten.py]: from the popped
    lot, the value sold and the bucket, the tax of the tranche, the bucket
    and the lot's already-taxed amount afterwards. *)
Definition depot_sale_tax (teilfreistellung full_tax_rate freistellungs_topf : Q)
           (oldest_entry : Lot) (sell_value : Q) : Q * Q * Q :=
  let anteil := sell_value / value oldest_entry in
  let gewinn_anteil := (value oldest_entry - amount_invested oldest_entry) * anteil in
  let vorabpauschalen_anteil := vorabpauschalen_bereits_versteuert oldest_entry * anteil in
  let steuerbarer_gewinn := gewinn_anteil * (1 - teilfreistellung) in
  let steuerbarer_gewinn_nach_vp := Qmax 0 (steuerbarer_gewinn - vorabpauschalen_anteil) in
  let steuerfreibetrag_used := Qmin freistellungs_topf steuerbarer_gewinn_nach_vp in
  let freistellungs_topf := freistellungs_topf - steuerfreibetrag_used in
  let zu_versteuern := Qmax 0 (steuerbarer_gewinn_nach_vp - steuerfreibetrag_used) in
  let steuer := zu_versteuern * full_tax_rate in
  (steuer, freistellungs_topf,
   vorabpauschalen_bereits_versteuert oldest_entry - vorabpauschalen_anteil).

End Gutachten.

(** ** The script [250720_final.py] *)

Module Script250720.

(** A dict of the script's [portfolio]; it carries a sixth key, [units]. *)
Record Entry : Type := mkEntry {
  e_date : Z;                      (* days since the start date *)
  e_amount_invested : Q;
  e_units : Q;
  e_value : Q;
  e_start_of_prev_year_value : Q;
  e_vorabpauschalen_bereits_versteuert : Q
}.

(** The module-level variables that the January blocks read and write. *)
Record Globals : Type := mkGlobals {
  g_freistellungs_topf : Q;
  g_total_tax_paid : Q
}.

(** The body of [for entry in portfolio] under "Vorabpauschale im Januar". *)
Definition vorabpauschale (basiszins teilfreistellung full_tax_rate : Q)
           (entry : Entry) (g : Globals) : Entry * Globals :=
  let start_value := e_start_of_prev_year_value entry in
  let fiktiver_ertrag := start_value * basiszins in
  let real_ertrag := e_value entry - e_amount_invested entry in
  let steuerbarer_ertrag := Qmin fiktiver_ertrag real_ertrag in
  let steuerfreibetrag :=
    Qmin (g_freistellungs_topf g) (steuerbarer_ertrag * teilfreistellung) in
  let zu_versteuern := Qmax 0 (steuerbarer_ertrag * teilfreistellung - steuerfreibetrag) in
  let steuer := Qmax 0 (zu_versteuern * full_tax_rate) in
  if Qlt_le_dec 0 steuer then
    (mkEntry (e_date entry) (e_amount_invested entry) (e_units entry)
             (e_value entry - steuer) (e_start_of_prev_year_value entry)
             (e_vorabpauschalen_bereits_versteuert entry + steuerbarer_ertrag),
     mkGlobals (g_freistellungs_topf g - steuerfreibetrag) (g_total_tax_paid g + steuer))
  else (entry, g).

(** The block "TER, Verwaltergebühren, Stückkosten (jährlich)": the new
    ledger and the amount added to [total_costs_paid]. *)
Definition jahreskosten (ter verwalter_gebuehr stueckkosten : Q)
           (portfolio : list Entry) : list Entry * Q :=
  let jahreswert := qsum (map e_value portfolio) in
  let kosten := jahreswert * (ter + verwalter_gebuehr) + stueckkosten in
  (map (fun entry =>
          let anteil := if Qlt_le_dec 0 jahreswert
                        then e_value entry / jahreswert else 0 in
          mkEntry (e_date entry) (e_amount_invested entry) (e_units entry)
                  (e_value entry - kosten * anteil)
                  (e_start_of_prev_year_value entry)
                  (e_vorabpauschalen_bereits_versteuert entry)) portfolio,
   kosten).

(** [sum(e["value"] for e in portfolio)]. *)
Definition depotwert (portfolio : list Entry) : Q := qsum (map e_value portfolio).

(** One pass of the body of [while remaining > 0 and portfolio] on an entry
    of positive value, the same in the rebalancing and in the withdrawal
    block ([sell_value_netto] is computed there and not read): the entry
    after the sale, what remains to sell, and the module-level variables. *)
Definition sell_from (teilfreistellung full_tax_rate : Q) (entry : Entry)
           (remaining : Q) (g : Globals) : Entry * Q * Globals :=
  let sell_value := Qmin (e_value entry) remaining in
  let prop := sell_value / e_value entry in
  let cost_basis := e_amount_invested entry * prop in
  let anteilig_vorab := e_vorabpauschalen_bereits_versteuert entry * prop in
  let gain := sell_value - cost_basis - anteilig_vorab in
  let steuerbarer_gewinn := gain * teilfreistellung in
  let steuerfreibetrag := Qmin (g_freistellungs_topf g) steuerbarer_gewinn in
  let steuer := Qmax 0 ((steuerbarer_gewinn - steuerfreibetrag) * full_tax_rate) in
  (mkEntry (e_date entry) (e_amount_invested entry - cost_basis) (e_units entry)
           (e_value entry - sell_value) (e_start_of_prev_year_value entry)
           (e_vorabpauschalen_bereits_versteuert entry - anteilig_vorab),
   remaining - sell_value,
   mkGlobals (g_freistellungs_topf g - steuerfreibetrag) (g_total_tax_paid g + steuer)).

(** [while remaining > 0 and portfolio: ...], one pass per unit of [fuel];
    [None] when the fuel runs out before the loop ends. *)
Fixpoint sale_loop (fuel : nat) (teilfreistellung full_tax_rate : Q)
         (portfolio : list Entry) (remaining : Q) (g : Globals)
  : option (list Entry * Globals) :=
  match fuel with
  | O => None
  | S fuel =>
    if Qlt_le_dec 0 remaining then
      match portfolio with
      | [] => Some ([], g)
      | entry :: rest =>
        if Qlt_le_dec 0 (e_value entry) then
          let '(entry', remaining', g') :=
            sell_from teilfreistellung full_tax_rate entry remaining g in
          if Qlt_le_dec (e_value entry') (1 # 10000)
          then sale_loop fuel teilfreistellung full_tax_rate rest remaining' g'
          else sale_loop fuel teilfreistellung full_tax_rate (entry' :: rest)
                         remaining' g'
        else sale_loop fuel teilfreistellung full_tax_rate rest remaining g
      end
    else Some (portfolio, g)
  end.

(** The block "Rebalancing (Umschichtung)" for a month that passes its
    guard. *)
Definition rebalancing (fuel : nat)
           (teilfreistellung full_tax_rate ruecknahmeabschlag ausgabeaufschlag
            rebalancing_rate : Q)
           (current_date : Z) (portfolio : list Entry) (g : Globals)
  : option (list Entry * Globals) :=
  let rebalancing_value := depotwert portfolio * rebalancing_rate in
  match sale_loop fuel teilfreistellung full_tax_rate portfolio rebalancing_value g with
  | Some (portfolio, g) =>
    let reinvest_netto := rebalancing_value * (1 - ruecknahmeabschlag - ausgabeaufschlag) in
    Some (portfolio ++ [mkEntry current_date reinvest_netto reinvest_netto reinvest_netto
                                reinvest_netto 0], g)
  | None => None
  end.

(** The block "Entnahmephase" for a month that passes its guard. *)
Definition entnahme (fuel : nat) (teilfreistellung full_tax_rate annual_withdrawal : Q)
           (portfolio : list Entry) (g : Globals) : option (list Entry * Globals) :=
  sale_loop fuel teilfreistellung full_tax_rate portfolio (annual_withdrawal / 12) g.

End Script250720.

(** ** The withdrawal path of [Gutachten250817.py] *)

Module Gutachten250817.

(** The attributes of [self] that [_handle_withdrawals] reads and writes. *)
Record Books : Type := mkBooks {
  b_portfolio : list Lot;
  b_kumulierte_entnahmen : Q;
  b_cashflows : list Q
}.

(** [while remaining_entnahme > 1e-9 and self.portfolio: ...]: the ledger and
    [self.kumulierte_entnahmen] afterwards.  The branch that covers the
    remainder sets [remaining_entnahme = 0], which ends the loop. *)
Fixpoint drain (portfolio : list Lot) (remaining_entnahme kumulierte_entnahmen : Q)
  : list Lot * Q :=
  match portfolio with
  | [] => ([], kumulierte_entnahmen)
  | current_entry :: rest =>
    if Qlt_le_dec eps remaining_entnahme then
      if Qlt_le_dec (value current_entry) remaining_entnahme then
        drain rest (remaining_entnahme - value current_entry)
              (kumulierte_entnahmen + value current_entry)
      else
        let current_entry :=
          set_value (value current_entry - remaining_entnahme) current_entry in
        (if Qlt_le_dec eps (value current_entry) then current_entry :: rest else rest,
         kumulierte_entnahmen + remaining_entnahme)
    else (portfolio, kumulierte_entnahmen)
  end.

(** [_handle_withdrawals]. *)
Definition _handle_withdrawals (beitragszahldauer : Z) (entnahme_modus : string)
           (annual_withdrawal : Q) (month : nat) (current_date : date) (b : Books)
  : Books :=
  if (beitragszahldauer * 12 <=? Z.of_nat month)%Z then
    let depotwert := depotwert_of (b_portfolio b) in
    let entnahme_betrag :=
      if (String.eqb entnahme_modus "jährlich" && (month_of current_date =? 1)%Z)%bool
      then Qmin annual_withdrawal depotwert
      else if String.eqb entnahme_modus "monatlich"
           then Qmin (annual_withdrawal / 12) depotwert
           else 0 in
    if Qlt_le_dec entnahme_betrag 0 then b
    else
      let cashflows := b_cashflows b ++ [entnahme_betrag] in
      match b_portfolio b with
      | [] => mkBooks [] (b_kumulierte_entnahmen b) cashflows
      | oldest_entry :: rest =>
        if Qlt_le_dec (value oldest_entry) entnahme_betrag then
          let '(portfolio, kumulierte_entnahmen) :=
            drain rest (entnahme_betrag - value oldest_entry)
                  (b_kumulierte_entnahmen b + value oldest_entry) in
          mkBooks portfolio kumulierte_entnahmen cashflows
        else
          let oldest_entry :=
            set_value (value oldest_entry - entnahme_betrag) oldest_entry in
          mkBooks (if Qlt_le_dec eps (value oldest_entry) then oldest_entry :: rest
                   else rest)
                  (b_kumulierte_entnahmen b + entnahme_betrag) cashflows
      end
  else b.

End Gutachten250817.

(** ** [monte_carlo_simulator.py]: the worst three-year window *)

Module MonteCarlo.

(** A pandas Series of monthly returns indexed by date; only the year of the
    index is read. *)
Definition Series : Type := list (Z * Q).

(** [(1 + x).prod() - 1]. *)
Definition compound (xs : list Q) : Q :=
  fold_right (fun x acc => (1 + x) * acc) 1 xs - 1.

(** [groupby(index.year)]: groups ordered by year, each in series order. *)
Fixpoint insert_group (y : Z) (x : Q) (gs : list (Z * list Q)) : list (Z * list Q) :=
  match gs with
  | [] => [(y, [x])]
  | (y', xs) :: rest =>
    if (y =? y')%Z then (y', xs ++ [x]) :: rest
    else if (y <? y')%Z then (y, [x]) :: gs
    else (y', xs) :: insert_group y x rest
  end.

Definition groupby_year (monthly_returns : Series) : list (Z * list Q) :=
  fold_left (fun gs yx => insert_group (fst yx) (snd yx) gs) monthly_returns [].

(** [returns_by_year]. *)
Definition returns_by_year (monthly_returns : Series) : list (Z * Q) :=
  map (fun g => (fst g, compound (snd g))) (groupby_year monthly_returns).

(** [rolling(window=3).apply(lambda x: (1 + x).prod() - 1)]: the entry of
    each row that has two predecessors, under that row's label.  The two
    leading rows, which hold NaN and are skipped by [idxmin] and [min], are
    left out. *)
Fixpoint rolling_returns (by_year : list (Z * Q)) : list (Z * Q) :=
  match by_year with
  | (_, a) :: (((_, b) :: (y, c) :: _) as tl) =>
    (y, compound [a; b; c]) :: rolling_returns tl
  | _ => []
  end.

(** [idxmin()] together with [min()]: the label and the value of the first
    minimal entry; [None] for a series without entries. *)
Fixpoint idxmin (l : list (Z * Q)) : option (Z * Q) :=
  match l with
  | [] => None
  | (y, v) :: rest =>
    match idxmin rest with
    | Some (y', v') => if Qlt_le_dec v' v then Some (y', v') else Some (y, v)
    | None => Some (y, v)
    end
  end.

(** [get_worst_3_years]: the monthly returns of the window, its start year
    and its cumulative return.  With fewer than three years every rolling
    entry is NaN and the source has no window to return: [None]. *)
Definition get_worst_3_years (monthly_returns : Series) : option (list Q * Z * Q) :=
  match idxmin (rolling_returns (returns_by_year monthly_returns)) with
  | None => None
  | Some (y, worst_period_return) =>
    let worst_period_start_year := (y - 2)%Z in
    let worst_period_returns :=
      filter (fun yx => ((worst_period_start_year <=? fst yx)
                         && (fst yx <? worst_period_start_year + 3))%Z%bool)
             monthly_returns in
    Some (map snd worst_period_returns, worst_period_start_year, worst_period_return)
  end.

End MonteCarlo.

(** ** Sample states *)

(** The depot scenario after [__init__] and [_initialisiere_simulation], with
    a flat monthly return and no inflation. *)
Definition depot_ready : State :=
  _initialisiere_simulation (fun _ => 1) (__init__ depot_params None (repeat 0 24)).

Definition versicherung_ready : State :=
  _initialisiere_simulation (fun _ => 1)
                            (__init__ versicherung_params None (repeat 0 24)).

(** A lot bought at the start for 1000, worth 1100 a year later, nothing
    taxed in advance yet. *)
Definition sample_lot : Lot := mkLot 0%nat 1000 1100 1000 0.

(** ** Statements of the specification that the code is compared with *)

(** The side effects of one January accrual-tax event as the specification
    words them: value down by the tax, already-taxed amount up by the taxable
    yield (or by its partially exempt part), bucket down by the allowance
    used, tax counter up by the tax. *)
Definition accrual_side_effects_as_stated (current_date : date) (entry : Lot)
           (s : State) : Prop :=
  let p := params s in
  let taxableYield := Qmin (start_of_prev_year_value entry * P.basiszins p)
                           (value entry - start_of_prev_year_value entry) in
  let partiallyExemptTaxable := taxableYield * (1 - P.teilfreistellung p) in
  let allowanceUsed := Qmin (freistellungs_topf s) (Qmax 0 partiallyExemptTaxable) in
  let taxOwed := Qmax 0 (partiallyExemptTaxable - allowanceUsed) * P.full_tax_rate p in
  let entry' := fst (vorabpauschale current_date entry s) in
  let s' := snd (vorabpauschale current_date entry s) in
  value entry - value entry' == taxOwed /\
  (vorabpauschalen_bereits_versteuert entry'
   - vorabpauschalen_bereits_versteuert entry == taxableYield \/
   vorabpauschalen_bereits_versteuert entry'
   - vorabpauschalen_bereits_versteuert entry == partiallyExemptTaxable) /\
  freistellungs_topf s - freistellungs_topf s' == allowanceUsed /\
  total_tax_paid (nominal s') - total_tax_paid (nominal s) == taxOwed.

(** A depot in January 2026, the first month of its withdrawal phase: one
    lot bought for 10000 and worth 20000, of which 2000 were already taxed
    in advance, and 1000 of allowance left. *)
Definition withdrawal_state : State :=
  set_portfolio [mkLot 0%nat 10000 20000 20000 2000]
                (set_freistellungs_topf 1000 depot_ready).

(** The tax that the specification prescribes for a tranche sold in depot
    mode: the already-taxed amount consumed is taken off the taxable gain
    before the allowance and the rate are applied. *)
Definition sale_tax_as_stated (teilfreistellung full_tax_rate freistellungs_topf : Q)
           (entry : Lot) (sell_value : Q) : Q :=
  let prop := sell_value / value entry in
  let gain := sell_value - amount_invested entry * prop in
  let taxableGain := gain * (1 - teilfreistellung) in
  let accrualConsumed := Qmax 0 (vorabpauschalen_bereits_versteuert entry * prop) in
  let afterAccrual := Qmax 0 (taxableGain - accrualConsumed) in
  let allowanceUsed := Qmin freistellungs_topf afterAccrual in
  Qmax 0 (afterAccrual - allowanceUsed) * full_tax_rate.

(** ** Predicates used in the statements *)

(** What the methods read but never write once the simulation is
    initialised: the configuration and the two input sequences. *)
Definition same_inputs (s s' : State) : Prop :=
  params s' = params s /\
  dynamic_returns s' = dynamic_returns s /\
  monthly_inflation_rates s' = monthly_inflation_rates s.

(** The supplied return path, when there is one, covers [n] months. *)
Definition returns_cover (n : nat) (s : State) : Prop :=
  match dynamic_returns s with
  | Some (r0 :: rs) => (n <= List.length (r0 :: rs))%nat
  | _ => True
  end.

(** The specification's wording of the immutability of the configuration:
    after a completed run every field holds the value it held at
    construction. *)
Definition params_never_mutated (root12 : Q -> Q) (s : State) : Prop :=
  forall s' : State, run_simulation root12 s = Ok s' -> params s' = params s.


Definition lot_ok (e : Lot) : Prop :=
  0 <= value e /\ 0 <= start_of_prev_year_value e.





(** The ledger is ordered by acquisition date, oldest first. *)
Definition ledger_sorted (pf : list Lot) : Prop :=
  StronglySorted le (map lot_date pf).

(** An ordered ledger none of whose lots is dated after [d]. *)
Definition ledger_dated (d : date) (pf : list Lot) : Prop :=
  ledger_sorted pf /\ Forall (fun x => (x <= d)%nat) (map lot_date pf).

(** The test [entry["value"] <= 0: continue] of the sale loops, negated. *)
Definition positive (e : Lot) : bool :=
  if Qlt_le_dec 0 (value e) then true else false.

(** The tranche sold its lot entirely. *)
Definition sold_out (sl : Sale) : Prop := sale_value sl == value (sale_lot sl).

(** [e'] is what the tranche [sl] leaves of its lot. *)
Definition residual_of (sl : Sale) (e' : Lot) : Prop :=
  lot_date e' = lot_date (sale_lot sl) /\
  value e' == value (sale_lot sl) - sale_value sl /\
  start_of_prev_year_value e' = start_of_prev_year_value (sale_lot sl).

(** A first-in-first-out sale from the ledger [pf]: [sales] are the tranches
    in the order in which they were sold, [queue] is what the loop put aside
    for the front of the ledger and [rest] what it never touched.  The lots
    consumed are a prefix of the ledger, each of its lots of positive value
    sold in turn; every tranche but the last sold its lot entirely, and the
    residual of the last one is put aside exactly when it exceeds [1e-9]. *)
Definition fifo_sale (pf : list Lot) (sales : list Sale) (queue rest : list Lot) : Prop :=
  (exists consumed : list Lot,
      pf = consumed ++ rest /\ map sale_lot sales = filter positive consumed) /\
  ((Forall sold_out sales /\ queue = []) \/
   (exists (front : list Sale) (sl : Sale),
       sales = front ++ [sl] /\ Forall sold_out front /\
       sale_value sl < value (sale_lot sl) /\
       ((value (sale_lot sl) - sale_value sl <= eps /\ queue = []) \/
        (eps < value (sale_lot sl) - sale_value sl /\
         exists e' : Lot, queue = [e'] /\ residual_of sl e')))).

(** ** Series over consecutive calendar years *)

(** The series that holds, for the consecutive calendar years from [y0] on,
    the monthly returns of [years], one list per year. *)
Fixpoint series_of (y0 : Z) (years : list (list Q)) : MonteCarlo.Series :=
  match years with
  | [] => []
  | ms :: rest => map (pair y0) ms ++ series_of (y0 + 1) rest
  end.

(** The years of such a series with their labels. *)
Fixpoint labelled (y0 : Z) (years : list (list Q)) : list (Z * list Q) :=
  match years with
  | [] => []
  | ms :: rest => (y0, ms) :: labelled (y0 + 1) rest
  end.

(** The compounded return of the three consecutive years that start at
    position [j], when the series has them. *)
Definition window_return (years : list (list Q)) (j : nat) : option Q :=
  match nth_error years j, nth_error years (j + 1), nth_error years (j + 2) with
  | Some a, Some b, Some c =>
    Some (MonteCarlo.compound
            [MonteCarlo.compound a; MonteCarlo.compound b; MonteCarlo.compound c])
  | _, _, _ => None
  end.

(** Everything of the object except the cash-flow lists, the counters and
    the allowance bucket. *)
Definition same_but_books (s s' : State) : Prop :=
  same_inputs s s' /\
  rebalancing_log s' = rebalancing_log s /\
  monatliche_kosten_logs s' = monatliche_kosten_logs s /\
  monthly_investment s' = monthly_investment s /\
  abschlusskosten_rest s' = abschlusskosten_rest s /\
  kumulierte_inflation_factor s' = kumulierte_inflation_factor s.

(** The three cash-flow lists are unchanged. *)
Definition same_flows (s s' : State) : Prop :=
  cashflows s' = cashflows s /\
  cashflow_dates s' = cashflow_dates s /\
  real_cashflows s' = real_cashflows s.

(** The three cash-flow lists run in parallel. *)
Definition flows_aligned (s : State) : Prop :=
  List.length (cashflow_dates s) = List.length (cashflows s) /\
  List.length (real_cashflows s) = List.length (cashflows s).

(** The depot scenario with a withdrawal plan that starts in its fifth
    withdrawal year. *)
Definition late_plan_params : P.t :=
  P.mk "Depot" false 40 10000 400 2 1 0 12 0 0 0 0 12000 [(5%Z, 6000)] "jährlich"
       (6 # 100) (2 # 1000) (2 # 1000) (45 # 10000) (119 # 10000) 45
       (25 # 1000) (25 # 1000) 60 (3 # 100) (1 # 100)
       (25 # 100) (55 # 1000) (9 # 100) (42 # 100) 1000 (3 # 10) (255 # 10000)
       (2 # 10) 12 (2 # 100) (1 # 100) (2 # 100) 0 0.

Definition late_plan_state : State :=
  set_portfolio [mkLot 0%nat 10000 20000 20000 2000]
    (_initialisiere_simulation (fun _ => 1) (__init__ late_plan_params None (repeat 0 24))).

(** * Verified properties *)

(** ** Tactics and arithmetic helpers *)

(** Names every [Qmin]/[Qmax] of the goal and the context and records its
    defining case split, so that linear arithmetic can finish. *)
Ltac qmm_pose :=
  repeat match goal with
  | |- context [Qmin ?a ?b] =>
    let H := fresh "Hmin" in let m := fresh "m" in let E := fresh "E" in
    pose proof (Q.min_spec a b) as H; remember (Qmin a b) as m eqn:E; clear E
  | |- context [Qmax ?a ?b] =>
    let H := fresh "Hmax" in let m := fresh "m" in let E := fresh "E" in
    pose proof (Q.max_spec a b) as H; remember (Qmax a b) as m eqn:E; clear E
  | H0 : context [Qmin ?a ?b] |- _ =>
    let H := fresh "Hmin" in let m := fresh "m" in let E := fresh "E" in
    pose proof (Q.min_spec a b) as H; remember (Qmin a b) as m eqn:E; clear E
  | H0 : context [Qmax ?a ?b] |- _ =>
    let H := fresh "Hmax" in let m := fresh "m" in let E := fresh "E" in
    pose proof (Q.max_spec a b) as H; remember (Qmax a b) as m eqn:E; clear E
  end.

Ltac qmm := qmm_pose; lra.

Lemma add_to_same (k : Konto) (a : Q) (c : Counters) :
  ausgabeaufschlag_summe (add_to KAusgabeaufschlag a c) = ausgabeaufschlag_summe c + a /\
  ruecknahmeabschlag_summe (add_to KRuecknahmeabschlag a c) = ruecknahmeabschlag_summe c + a /\
  stueckkosten_summe (add_to KStueckkosten a c) = stueckkosten_summe c + a /\
  kumulierte_entnahmen (add_to KEntnahmen a c) = kumulierte_entnahmen c + a /\
  total_tax_paid (add_to KTax a c) = total_tax_paid c + a /\
  total_withdrawal_tax_paid (add_to KWithdrawalTax a c) = total_withdrawal_tax_paid c + a.
Proof. destruct c; repeat split; reflexivity. Qed.

Lemma total_tax_paid_add_to_tax (a : Q) (c : Counters) :
  total_tax_paid (add_to KTax a c) = total_tax_paid c + a.
Proof. destruct c; reflexivity. Qed.




(** ** The January accrual tax ([_handle_taxes]) *)




(** The specification's wording of the side effects fails on a lot whose
    taxable amount is only partly covered by the allowance: the taxable
    yield is 25.5, its partially exempt part 17.85, the allowance 10, and the
    already-taxed amount of the lot grows by 7.85. *)
Lemma accrual_side_effects_counterexample :
  ~ accrual_side_effects_as_stated 12%nat sample_lot (set_freistellungs_topf 10 depot_ready).
Proof.
  unfold accrual_side_effects_as_stated. cbv zeta.
  intros [_ [[H | H] _]]; vm_compute in H; discriminate.
Qed.

(** C3 (amended). After each January accrual-tax event on a lot, for every
    lot: the lot's value decreases by taxOwed, the allowance bucket decreases
    by allowanceUsed and the cumulative tax counter increases by taxOwed; the
    lot's already-taxed amount increases by the taxable amount left after the
    allowance, max(0, partiallyExemptTaxable - allowanceUsed), when the tax is
    strictly positive, and is unchanged otherwise. *)
Theorem accrual_side_effects (current_date : date) (entry : Lot) (s : State) :
  let p := params s in
  let taxableYield := Qmin (start_of_prev_year_value entry * P.basiszins p)
                           (value entry - start_of_prev_year_value entry) in
  let partiallyExemptTaxable := taxableYield * (1 - P.teilfreistellung p) in
  let allowanceUsed := Qmin (freistellungs_topf s) (Qmax 0 partiallyExemptTaxable) in
  let remainder := Qmax 0 (partiallyExemptTaxable - allowanceUsed) in
  let taxOwed := remainder * P.full_tax_rate p in
  let entry' := fst (vorabpauschale current_date entry s) in
  let s' := snd (vorabpauschale current_date entry s) in
  value entry' == value entry - Qmax 0 taxOwed /\
  freistellungs_topf s' == freistellungs_topf s - allowanceUsed /\
  total_tax_paid (nominal s') == total_tax_paid (nominal s) + Qmax 0 taxOwed /\
  vorabpauschalen_bereits_versteuert entry'
  == vorabpauschalen_bereits_versteuert entry
     + (if Qlt_le_dec 0 taxOwed then remainder else 0) /\
  amount_invested entry' = amount_invested entry /\
  start_of_prev_year_value entry' = start_of_prev_year_value entry /\
  lot_date entry' = lot_date entry.
Proof.
  intros p ty pe used rest tax entry' s'.
  subst entry' s'. unfold vorabpauschale.
  fold p. fold ty. fold pe. fold used. fold rest. fold tax.
  destruct (Qlt_le_dec 0 tax) as [Hpos | Hle]; cbn [fst snd value nominal charge
    cashflow push_cashflow set_freistellungs_topf freistellungs_topf
    vorabpauschalen_bereits_versteuert amount_invested start_of_prev_year_value
    lot_date].
  - rewrite total_tax_paid_add_to_tax.
    assert (Qmax 0 tax == tax) by (apply Q.max_r; lra).
    repeat split; lra.
  - assert (Qmax 0 tax == 0) by (apply Q.max_l; lra).
    repeat split; lra.
Qed.

(** ** Sales: the tax of a tranche *)

Lemma sold_gain (entry : Lot) (sell_value : Q) :
  0 < value entry ->
  (value entry - amount_invested entry) * (sell_value / value entry)
  == sell_value - amount_invested entry * (sell_value / value entry).
Proof. intros Hv. field. lra. Qed.

(** The tax that [_handle_withdrawals] of [SparplanSimulator_250819.py]
    charges on a tranche in depot mode: the allowance is computed on the gain
    after the already-taxed amount, the rate is applied to the gain before
    it. *)
Lemma withdraw_lot_depot_tax (current_date : date) (entry : Lot) (remaining : Q)
      (acc : WithdrawAcc) (s : State) :
  P.versicherung_modus (params s) = false ->
  let p := params s in
  let sell_value := Qmin (value entry) remaining in
  let anteil := sell_value / value entry in
  let taxableGain :=
    (value entry - amount_invested entry) * anteil * (1 - P.teilfreistellung p) in
  let afterAccrual :=
    Qmax 0 (taxableGain - vorabpauschalen_bereits_versteuert entry * anteil) in
  let allowanceUsed := Qmin (freistellungs_topf s) afterAccrual in
  let acc' := snd (fst (withdraw_lot current_date entry remaining acc s)) in
  total_withdrawal_tax_this_year acc'
  = total_withdrawal_tax_this_year acc
    + Qmax 0 ((taxableGain - allowanceUsed) * P.full_tax_rate p).
Proof.
  intros Hvm. unfold withdraw_lot. rewrite Hvm. reflexivity.
Qed.

(** C1 (the code at the failing input). In January 2026 the depot of
    [withdrawal_state] owes a withdrawal of 12000 from a lot worth 20000
    bought for 10000, with 2000 already taxed in advance and 1000 of
    allowance: the taxable gain of the tranche is 4200, the already-taxed
    amount consumed 1200.  The rule of the specification gives a tax of
    (4200 - 1200 - 1000) * 0.28625 = 572.5, which is also what the depot
    branch of [Gutachten.py] computes; [_handle_withdrawals] of
    [SparplanSimulator_250819.py] charges (4200 - 1000) * 0.28625 = 916. *)
Theorem withdrawal_tax_ignores_accrual :
  let s := withdrawal_state in
  let s' := _handle_withdrawals 12 12 s in
  let lot := mkLot 0%nat 10000 20000 20000 2000 in
  let rate := P.full_tax_rate (params s) in
  total_withdrawal_tax_paid (nominal s') - total_withdrawal_tax_paid (nominal s) == 916 /\
  sale_tax_as_stated (P.teilfreistellung (params s)) rate (freistellungs_topf s) lot 12000
  == 1145 # 2 /\
  fst (fst (Gutachten.depot_sale_tax (P.teilfreistellung (params s)) rate
                                     (freistellungs_topf s) lot 12000))
  == 1145 # 2.
Proof. cbv zeta. repeat split; vm_compute; reflexivity. Qed.

(** ** Withdrawals that the ledger cannot cover *)

(** C10. In the withdrawal phase of [SparplanSimulator_250819.py], when the
    withdrawal due in a period exceeds the total value of the ledger, the
    withdrawal is skipped entirely: no lot is sold, no tax or exit load is
    charged, no cash flow is recorded; the ledger and every counter are left
    as they were. *)
Theorem withdrawal_skipped_when_ledger_short (month : nat) (current_date : date)
        (s : State) :
  depotwert_of (portfolio s) < entnahmebetrag_of current_date (params s) ->
  _handle_withdrawals month current_date s = s.
Proof.
  intros Hshort. unfold _handle_withdrawals.
  destruct (Z.of_nat month <? P.beitragszahldauer (params s) * 12)%Z; [reflexivity|].
  destruct (Qlt_le_dec 0 (entnahmebetrag_jahr current_date (params s))); [|reflexivity].
  destruct (Qlt_le_dec 0 (entnahmebetrag_of current_date (params s))); [|reflexivity].
  destruct (Qlt_le_dec (depotwert_of (portfolio s))
                       (entnahmebetrag_of current_date (params s))) as [_ | Hge];
    [reflexivity | lra].
Qed.

Lemma withdrawal_skipped_when_ledger_short_witness :
  depotwert_of (portfolio depot_ready) == 9980 /\
  entnahmebetrag_of 12%nat (params depot_ready) == 12000 /\
  _handle_withdrawals 12 12 depot_ready = depot_ready.
Proof.
  split; [vm_compute; reflexivity|].
  split; [vm_compute; reflexivity|].
  apply (withdrawal_skipped_when_ledger_short 12 12 depot_ready).
  vm_compute. reflexivity.
Defined.

(** ** Rebalancing: what the log row records *)

Lemma qsum_app (l1 l2 : list Q) : qsum (l1 ++ l2) == qsum l1 + qsum l2.
Proof.
  induction l1 as [|x l1 IH]; simpl.
  - lra.
  - rewrite IH. lra.
Qed.

Lemma qsum_cons (x : Q) (l : list Q) : qsum (x :: l) = x + qsum l.
Proof. reflexivity. Qed.





(** ** What the methods leave alone *)

Lemma same_inputs_refl (s : State) : same_inputs s s.
Proof. repeat split. Qed.

Lemma same_inputs_trans (s1 s2 s3 : State) :
  same_inputs s1 s2 -> same_inputs s2 s3 -> same_inputs s1 s3.
Proof.
  unfold same_inputs. intros (H1 & H2 & H3) (H4 & H5 & H6).
  repeat split; congruence.
Qed.

(** Splits every conditional of the goal. *)
Ltac split_ifs :=
  repeat match goal with
  | |- context [if ?c then _ else _] => destruct c
  end.

Lemma handle_monthly_investment_frame (month : nat) (d : date) (s s1 : State) :
  _handle_monthly_investment month d s = Ok s1 ->
  same_inputs s s1 /\ freistellungs_topf s1 = freistellungs_topf s.
Proof.
  unfold _handle_monthly_investment, same_inputs.
  destruct (0 <? Z.of_nat month)%Z; cbn [bind].
  - destruct (P.dynamik_turnus_monate (params s) =? 0)%Z; cbn [bind]; [discriminate|].
    destruct (Z.of_nat month mod P.dynamik_turnus_monate (params s) =? 0)%Z;
      cbn [bind params set_monthly_investment];
      split_ifs; intros H; injection H as <-; repeat split.
  - cbn [params]. split_ifs; intros H; injection H as <-; repeat split.
Qed.

Lemma handle_costs_frame (month : nat) (d : date) (s : State) :
  same_inputs s (_handle_costs month d s) /\
  freistellungs_topf (_handle_costs month d s) = freistellungs_topf s /\
  monthly_investment (_handle_costs month d s) = monthly_investment s.
Proof.
  unfold _handle_costs, same_inputs. split_ifs; repeat split.
Qed.

Lemma vorabpauschale_frame (d : date) (entry : Lot) (s : State) :
  same_inputs s (snd (vorabpauschale d entry s)) /\
  monthly_investment (snd (vorabpauschale d entry s)) = monthly_investment s.
Proof.
  unfold vorabpauschale, same_inputs. split_ifs; repeat split.
Qed.

Lemma vorabpauschale_topf (d : date) (entry : Lot) (s : State) :
  0 <= freistellungs_topf s ->
  0 <= freistellungs_topf (snd (vorabpauschale d entry s))
  /\ freistellungs_topf (snd (vorabpauschale d entry s)) <= freistellungs_topf s.
Proof.
  intros Htopf. unfold vorabpauschale.
  split_ifs; cbn [snd freistellungs_topf charge cashflow push_cashflow
                  set_freistellungs_topf]; qmm.
Qed.

Lemma taxes_loop_frame (d : date) (pf : list Lot) :
  forall s : State,
  same_inputs s (snd (taxes_loop d pf s)) /\
  monthly_investment (snd (taxes_loop d pf s)) = monthly_investment s /\
  (0 <= freistellungs_topf s ->
   0 <= freistellungs_topf (snd (taxes_loop d pf s))
   /\ freistellungs_topf (snd (taxes_loop d pf s)) <= freistellungs_topf s).
Proof.
  induction pf as [|entry rest IH]; intros s; cbn [taxes_loop].
  - cbn. repeat split; auto. lra.
  - pose proof (vorabpauschale_frame d entry s) as [Hf Hm].
    pose proof (vorabpauschale_topf d entry s) as Ht.
    destruct (vorabpauschale d entry s) as [entry' s1]. cbn [snd] in *.
    specialize (IH s1). destruct (taxes_loop d rest s1) as [rest' s2].
    cbn [snd] in *. destruct IH as (Hf2 & Hm2 & Ht2).
    split; [eapply same_inputs_trans; eassumption|].
    split; [congruence|].
    intros H0. destruct (Ht H0) as [Ha Hb]. destruct (Ht2 Ha) as [Hc Hd].
    split; lra.
Qed.

Lemma handle_taxes_frame (d : date) (s : State) :
  same_inputs s (_handle_taxes d s) /\
  monthly_investment (_handle_taxes d s) = monthly_investment s /\
  (0 <= freistellungs_topf s ->
   0 <= freistellungs_topf (_handle_taxes d s)
   /\ freistellungs_topf (_handle_taxes d s) <= freistellungs_topf s).
Proof.
  unfold _handle_taxes.
  destruct (negb (P.versicherung_modus (params s)) && (month_of d =? 1)%Z)%bool.
  - pose proof (taxes_loop_frame d (portfolio s) s) as H.
    destruct (taxes_loop d (portfolio s) s) as [pf s']. cbn [snd] in H.
    exact H.
  - repeat split; auto; lra.
Qed.

Lemma rebalance_lot_topf (entry : Lot) (remaining : Q) (acc : RebalAcc) (s : State) :
  same_inputs s (snd (rebalance_lot entry remaining acc s)) /\
  monthly_investment (snd (rebalance_lot entry remaining acc s)) = monthly_investment s /\
  (0 <= freistellungs_topf s ->
   0 <= freistellungs_topf (snd (rebalance_lot entry remaining acc s))
   /\ freistellungs_topf (snd (rebalance_lot entry remaining acc s))
      <= freistellungs_topf s).
Proof.
  unfold rebalance_lot.
  cbn [snd freistellungs_topf charge set_freistellungs_topf monthly_investment].
  split; [repeat split|]. split; [reflexivity|]. intros H. qmm.
Qed.

Lemma rebalancing_loop_frame (pf : list Lot) :
  forall (remaining : Q) (acc : RebalAcc) (s : State),
  let s' := snd (rebalancing_loop pf remaining acc s) in
  same_inputs s s' /\
  monthly_investment s' = monthly_investment s /\
  (0 <= freistellungs_topf s ->
   0 <= freistellungs_topf s' /\ freistellungs_topf s' <= freistellungs_topf s).
Proof.
  induction pf as [|entry rest IH]; intros remaining acc s; cbn zeta;
    cbn [rebalancing_loop].
  - cbn. repeat split; auto; lra.
  - destruct (Qlt_le_dec eps remaining).
    + destruct (Qlt_le_dec 0 (value entry)).
      * pose proof (rebalance_lot_topf entry remaining acc s) as (Hf & Hm & Ht).
        destruct (rebalance_lot entry remaining acc s) as [[rem1 acc1] s1].
        cbn [snd] in *.
        specialize (IH rem1 acc1 s1). cbv zeta in IH.
        destruct IH as (Hf2 & Hm2 & Ht2).
        split; [eapply same_inputs_trans; eassumption|].
        split; [congruence|].
        intros H0. destruct (Ht H0) as [Ha Hb]. destruct (Ht2 Ha) as [Hc Hd].
        split; lra.
      * apply IH.
    + cbn. repeat split; auto; lra.
Qed.

Lemma handle_rebalancing_frame (d : date) (s : State) :
  let s' := _handle_rebalancing d s in
  same_inputs s s' /\
  monthly_investment s' = monthly_investment s /\
  (0 <= freistellungs_topf s ->
   0 <= freistellungs_topf s' /\ freistellungs_topf s' <= freistellungs_topf s).
Proof.
  cbv zeta. unfold _handle_rebalancing.
  destruct (negb (P.versicherung_modus (params s)) && (month_of d =? 12)%Z
            && (if Qlt_le_dec 0 (P.rebalancing_rate (params s)) then true else false))%bool;
    [|repeat split; auto; lra].
  destruct (Qlt_le_dec 0 (depotwert_of (portfolio s) * P.rebalancing_rate (params s)));
    [|repeat split; auto; lra].
  pose proof (rebalancing_loop_frame (portfolio s)
                (depotwert_of (portfolio s) * P.rebalancing_rate (params s))
                empty_rebal_acc s) as H.
  cbv zeta in H.
  destruct (rebalancing_loop (portfolio s)
              (depotwert_of (portfolio s) * P.rebalancing_rate (params s))
              empty_rebal_acc s) as [[rest acc] s1].
  cbn [snd] in H.
  destruct (Qlt_le_dec eps (total_netto acc)); exact H.
Qed.

Lemma withdraw_lot_topf (d : date) (entry : Lot) (remaining : Q) (acc : WithdrawAcc)
      (s : State) :
  let s' := snd (withdraw_lot d entry remaining acc s) in
  same_inputs s s' /\
  monthly_investment s' = monthly_investment s /\
  (0 <= freistellungs_topf s ->
   0 <= freistellungs_topf s' /\ freistellungs_topf s' <= freistellungs_topf s).
Proof.
  cbv zeta. unfold withdraw_lot.
  destruct (P.versicherung_modus (params s)).
  - destruct (Qle_bool 62 _ && Qle_bool 12 _)%bool; cbn; repeat split; auto; lra.
  - cbn [snd freistellungs_topf set_freistellungs_topf monthly_investment].
    split; [repeat split|]. split; [reflexivity|]. intros H. qmm.
Qed.

Lemma withdrawal_loop_frame (d : date) (pf : list Lot) :
  forall (remaining : Q) (acc : WithdrawAcc) (s : State),
  let s' := snd (withdrawal_loop d pf remaining acc s) in
  same_inputs s s' /\
  monthly_investment s' = monthly_investment s /\
  (0 <= freistellungs_topf s ->
   0 <= freistellungs_topf s' /\ freistellungs_topf s' <= freistellungs_topf s).
Proof.
  induction pf as [|entry rest IH]; intros remaining acc s; cbn zeta;
    cbn [withdrawal_loop].
  - cbn. repeat split; auto; lra.
  - destruct (Qlt_le_dec eps remaining).
    + destruct (Qlt_le_dec 0 (value entry)).
      * pose proof (withdraw_lot_topf d entry remaining acc s) as H.
        cbv zeta in H. destruct H as (Hf & Hm & Ht).
        destruct (withdraw_lot d entry remaining acc s) as [[rem1 acc1] s1].
        cbn [snd] in *.
        specialize (IH rem1 acc1 s1). cbv zeta in IH.
        destruct IH as (Hf2 & Hm2 & Ht2).
        split; [eapply same_inputs_trans; eassumption|].
        split; [congruence|].
        intros H0. destruct (Ht H0) as [Ha Hb]. destruct (Ht2 Ha) as [Hc Hd].
        split; lra.
      * apply IH.
    + cbn. repeat split; auto; lra.
Qed.

Lemma handle_withdrawals_frame (month : nat) (d : date) (s : State) :
  let s' := _handle_withdrawals month d s in
  same_inputs s s' /\
  monthly_investment s' = monthly_investment s /\
  (0 <= freistellungs_topf s ->
   0 <= freistellungs_topf s' /\ freistellungs_topf s' <= freistellungs_topf s).
Proof.
  cbv zeta. unfold _handle_withdrawals.
  destruct (Z.of_nat month <? P.beitragszahldauer (params s) * 12)%Z;
    [repeat split; auto; lra|].
  destruct (Qlt_le_dec 0 (entnahmebetrag_jahr d (params s)));
    [|repeat split; auto; lra].
  destruct (Qlt_le_dec 0 (entnahmebetrag_of d (params s)));
    [|repeat split; auto; lra].
  destruct (Qlt_le_dec (depotwert_of (portfolio s)) (entnahmebetrag_of d (params s)));
    [repeat split; auto; lra|].
  pose proof (withdrawal_loop_frame d (portfolio s) (entnahmebetrag_of d (params s))
                empty_withdraw_acc s) as H.
  cbv zeta in H.
  destruct (withdrawal_loop d (portfolio s) (entnahmebetrag_of d (params s))
              empty_withdraw_acc s) as [[rest acc] s1].
  cbn [snd] in H. exact H.
Qed.

(** ** One simulated month, step by step *)

(** The steps of [_simuliere_monat], in the order in which it runs them. *)
Lemma simuliere_monat_steps (month : nat) (s s' : State) :
  _simuliere_monat month s = Ok s' ->
  exists (s1 : State) (r infl : Q),
    let s0 := if (month_of month =? 1)%Z then reset_freistellungs_topf month s else s in
    let s2 := _handle_costs month month s1 in
    let s3 := set_portfolio (grow r (portfolio s2)) s2 in
    let s4 := set_kumulierte_inflation_factor
                (kumulierte_inflation_factor s3 * (1 + infl)) s3 in
    let s5 := _handle_taxes month s4 in
    let s6 := _handle_rebalancing month s5 in
    let s7 := _handle_withdrawals month month s6 in
    let s8 := log_month (log_row month s7) s7 in
    _handle_monthly_investment month month s0 = Ok s1 /\
    monthly_return_val month s2 = Ok r /\
    nth_error (monthly_inflation_rates s3) month = Some infl /\
    s' = if (month_of month =? 12)%Z then set_portfolio (snapshot (portfolio s8)) s8
         else s8.
Proof.
  unfold _simuliere_monat.
  destruct (_handle_monthly_investment month month
              (if (month_of month =? 1)%Z then reset_freistellungs_topf month s else s))
    as [s1|e] eqn:E1; cbn [bind]; [|discriminate].
  destruct (monthly_return_val month (_handle_costs month month s1))
    as [r|e] eqn:E2; cbn [bind]; [|discriminate].
  destruct (nth_error
              (monthly_inflation_rates
                 (set_portfolio (grow r (portfolio (_handle_costs month month s1)))
                                (_handle_costs month month s1))) month)
    as [infl|] eqn:E3; cbn [bind]; [|discriminate].
  intros H. injection H as <-.
  exists s1, r, infl. cbv zeta. repeat split; assumption.
Qed.

(** A month leaves the configuration and the input sequences alone, and
    between the January resets the allowance bucket only shrinks. *)
Lemma simuliere_monat_frame (month : nat) (s s' : State) :
  _simuliere_monat month s = Ok s' ->
  same_inputs s s' /\
  (month_of month = 1%Z ->
   0 <= freistellungs_topf (reset_freistellungs_topf month s) ->
   0 <= freistellungs_topf s'
   /\ freistellungs_topf s' <= freistellungs_topf (reset_freistellungs_topf month s)) /\
  (month_of month <> 1%Z ->
   0 <= freistellungs_topf s ->
   0 <= freistellungs_topf s' /\ freistellungs_topf s' <= freistellungs_topf s).
Proof.
  intros Hrun.
  destruct (simuliere_monat_steps month s s' Hrun) as (s1 & r & infl & H).
  cbv zeta in H. destruct H as (H1 & _ & _ & Hs').
  set (s0 := if (month_of month =? 1)%Z then reset_freistellungs_topf month s else s)
    in *.
  assert (H0 : same_inputs s s0).
  { unfold s0. destruct (month_of month =? 1)%Z; repeat split. }
  destruct (handle_monthly_investment_frame month month s0 s1 H1) as [F1 T1].
  set (s2 := _handle_costs month month s1) in *.
  destruct (handle_costs_frame month month s1) as (F2 & T2 & _). fold s2 in F2, T2.
  set (s3 := set_portfolio (grow r (portfolio s2)) s2) in *.
  set (s4 := set_kumulierte_inflation_factor
               (kumulierte_inflation_factor s3 * (1 + infl)) s3) in *.
  assert (F4 : same_inputs s2 s4) by (repeat split).
  assert (T4 : freistellungs_topf s4 = freistellungs_topf s2) by reflexivity.
  set (s5 := _handle_taxes month s4) in *.
  destruct (handle_taxes_frame month s4) as (F5 & _ & T5). fold s5 in F5, T5.
  set (s6 := _handle_rebalancing month s5) in *.
  pose proof (handle_rebalancing_frame month s5) as H6. cbv zeta in H6.
  fold s6 in H6. destruct H6 as (F6 & _ & T6).
  set (s7 := _handle_withdrawals month month s6) in *.
  pose proof (handle_withdrawals_frame month month s6) as H7. cbv zeta in H7.
  fold s7 in H7. destruct H7 as (F7 & _ & T7).
  set (s8 := log_month (log_row month s7) s7) in *.
  assert (F8 : same_inputs s7 s') by (subst s'; destruct (month_of month =? 12)%Z;
                                       repeat split).
  assert (T8 : freistellungs_topf s' = freistellungs_topf s7)
    by (subst s'; destruct (month_of month =? 12)%Z; reflexivity).
  assert (Hchain : 0 <= freistellungs_topf s0 ->
                   0 <= freistellungs_topf s'
                   /\ freistellungs_topf s' <= freistellungs_topf s0).
  { intros Hs0. rewrite T8.
    assert (Ha : 0 <= freistellungs_topf s4) by (rewrite T4, T2, T1; exact Hs0).
    destruct (T5 Ha) as [Hb Hb']. destruct (T6 Hb) as [Hc Hc'].
    destruct (T7 Hc) as [Hd Hd']. rewrite T4, T2, T1 in Hb'. split; lra. }
  split.
  { eapply same_inputs_trans; [exact H0|].
    eapply same_inputs_trans; [exact F1|].
    eapply same_inputs_trans; [exact F2|].
    eapply same_inputs_trans; [exact F4|].
    eapply same_inputs_trans; [exact F5|].
    eapply same_inputs_trans; [exact F6|].
    eapply same_inputs_trans; [exact F7|]. exact F8. }
  split.
  - intros Hjan Hreset.
    assert (Es0 : s0 = reset_freistellungs_topf month s)
      by (unfold s0; rewrite Hjan; reflexivity).
    rewrite <- Es0. apply Hchain. rewrite Es0. exact Hreset.
  - intros Hnot Htopf.
    assert (Es0 : s0 = s).
    { unfold s0. destruct (month_of month =? 1)%Z eqn:E; [|reflexivity].
      apply Z.eqb_eq in E. contradiction. }
    rewrite <- Es0. apply Hchain. rewrite Es0. exact Htopf.
Qed.



(** ** The configuration object during a run *)

Lemma run_months_frame (months : list nat) :
  forall s s' : State, run_months months s = Ok s' -> same_inputs s s'.
Proof.
  induction months as [|month rest IH]; intros s s'; cbn [run_months].
  - intros H. injection H as <-. apply same_inputs_refl.
  - destruct (_simuliere_monat month s) as [s1|e] eqn:E; cbn [bind]; [|discriminate].
    intros H. eapply same_inputs_trans.
    + apply (simuliere_monat_frame month s s1 E).
    + apply IH. exact H.
Qed.

Lemma finalisiere_simulation_frame (s : State) :
  same_inputs s (_finalisiere_simulation s).
Proof.
  unfold _finalisiere_simulation, same_inputs.
  destruct (Qlt_le_dec eps _); [|repeat split].
  destruct (P.versicherung_modus (params s)).
  - destruct ((62 <=? _)%Z && (12 <=? _)%Z)%bool; repeat split.
  - repeat split.
Qed.

(** The configuration that [_initialisiere_simulation] leaves behind. *)
Lemma initialisiere_simulation_params (root12 : Q -> Q) (s : State) :
  let p := params s in
  let derived :=
    P.set_derived (root12 (1 + P.annual_return p) - 1)
                  (P.abgeltungssteuer_rate p
                   * (1 + P.soli_zuschlag_on_abgeltungssteuer p
                        + P.kirchensteuer_on_abgeltungssteuer p)) p in
  params (_initialisiere_simulation root12 s)
  = if P.versicherung_modus p then P.clear_depot_costs derived
    else P.clear_insurance_costs derived.
Proof.
  cbv zeta. unfold _initialisiere_simulation.
  cbn [P.versicherung_modus P.set_derived].
  destruct (P.versicherung_modus (params s));
    match goal with |- context [Qlt_le_dec ?a ?b] => destruct (Qlt_le_dec a b) end;
    reflexivity.
Qed.

(** A completed run ends with the configuration that the initialisation
    left. *)
Lemma run_simulation_params (root12 : Q -> Q) (s s' : State) :
  run_simulation root12 s = Ok s' ->
  params s' = params (_initialisiere_simulation root12 s).
Proof.
  unfold run_simulation.
  destruct (run_months _ (_initialisiere_simulation root12 s)) as [s1|e] eqn:E;
    cbn [bind]; [|discriminate].
  intros H. injection H as <-.
  destruct (finalisiere_simulation_frame s1) as (Hp & _).
  destruct (run_months_frame _ _ _ E) as (Hq & _).
  congruence.
Qed.

(** ** Runs that complete *)

Lemma handle_monthly_investment_total (month : nat) (d : date) (s : State) :
  P.dynamik_turnus_monate (params s) <> 0%Z ->
  exists s1 : State, _handle_monthly_investment month d s = Ok s1.
Proof.
  intros Hturnus. unfold _handle_monthly_investment.
  apply Z.eqb_neq in Hturnus. rewrite Hturnus.
  destruct (0 <? Z.of_nat month)%Z;
    [destruct (Z.of_nat month mod P.dynamik_turnus_monate (params s) =? 0)%Z|];
    cbn [bind]; split_ifs; eexists; reflexivity.
Qed.

Lemma simuliere_monat_total (month : nat) (s : State) :
  P.dynamik_turnus_monate (params s) <> 0%Z ->
  returns_cover (S month) s ->
  (month < List.length (monthly_inflation_rates s))%nat ->
  exists s' : State, _simuliere_monat month s = Ok s'.
Proof.
  intros Hturnus Hret Hinfl. unfold _simuliere_monat.
  set (s0 := if (month_of month =? 1)%Z then reset_freistellungs_topf month s else s).
  assert (H0 : same_inputs s s0)
    by (unfold s0; destruct (month_of month =? 1)%Z; repeat split).
  destruct H0 as (Hp0 & Hd0 & Hi0).
  destruct (handle_monthly_investment_total month month s0) as [s1 E1];
    [rewrite Hp0; exact Hturnus|].
  rewrite E1. cbn [bind].
  destruct (handle_monthly_investment_frame month month s0 s1 E1) as [(Hp1 & Hd1 & Hi1) _].
  destruct (handle_costs_frame month month s1) as ((Hp2 & Hd2 & Hi2) & _).
  assert (Er : exists r, monthly_return_val month (_handle_costs month month s1) = Ok r).
  { unfold monthly_return_val. rewrite Hd2, Hd1, Hd0.
    unfold returns_cover in Hret.
    destruct (dynamic_returns s) as [[|r0 rs]|]; try (eexists; reflexivity).
    destruct (nth_error (r0 :: rs) month) eqn:En; [eexists; reflexivity|].
    apply nth_error_None in En. lia. }
  destruct Er as [r Er]. rewrite Er. cbn [bind].
  cbn [monthly_inflation_rates set_portfolio]. rewrite Hi2, Hi1, Hi0.
  destruct (nth_error (monthly_inflation_rates s) month) eqn:En.
  - cbn [bind]. eexists. reflexivity.
  - apply nth_error_None in En. lia.
Qed.

Lemma run_months_total (months : list nat) (n : nat) :
  forall s : State,
  P.dynamik_turnus_monate (params s) <> 0%Z ->
  returns_cover n s ->
  (n <= List.length (monthly_inflation_rates s))%nat ->
  Forall (fun month => (month < n)%nat) months ->
  exists s' : State, run_months months s = Ok s'.
Proof.
  induction months as [|month rest IH]; intros s Hturnus Hret Hinfl Hall;
    cbn [run_months].
  - eexists. reflexivity.
  - inversion Hall as [|? ? Hm Hrest]; subst.
    destruct (simuliere_monat_total month s) as [s1 E1]; try assumption.
    + unfold returns_cover in *.
      destruct (dynamic_returns s) as [[|r0 rs]|]; auto. lia.
    + lia.
    + rewrite E1. cbn [bind].
      destruct (simuliere_monat_frame month s s1 E1) as ((Hp & Hd & Hi) & _).
      apply IH; try assumption.
      * rewrite Hp. exact Hturnus.
      * unfold returns_cover in *. rewrite Hd. exact Hret.
      * rewrite Hi. exact Hinfl.
Qed.

Lemma initialisiere_simulation_inputs (root12 : Q -> Q) (s : State) :
  dynamic_returns (_initialisiere_simulation root12 s) = dynamic_returns s /\
  monthly_inflation_rates (_initialisiere_simulation root12 s)
  = monthly_inflation_rates s /\
  P.dynamik_turnus_monate (params (_initialisiere_simulation root12 s))
  = P.dynamik_turnus_monate (params s) /\
  P.laufzeit (params (_initialisiere_simulation root12 s)) = P.laufzeit (params s).
Proof.
  unfold _initialisiere_simulation.
  cbn [P.versicherung_modus P.set_derived].
  destruct (P.versicherung_modus (params s));
    match goal with |- context [Qlt_le_dec ?a ?b] => destruct (Qlt_le_dec a b) end;
    repeat split.
Qed.

(** A run completes when the escalation interval is not zero and the return
    path and the inflation draws cover the horizon. *)
Lemma run_simulation_total (root12 : Q -> Q) (s : State) :
  let n := Z.to_nat (P.laufzeit (params s) * 12) in
  P.dynamik_turnus_monate (params s) <> 0%Z ->
  returns_cover n s ->
  (n <= List.length (monthly_inflation_rates s))%nat ->
  exists s' : State, run_simulation root12 s = Ok s'.
Proof.
  intros n Hturnus Hret Hinfl. unfold run_simulation.
  destruct (initialisiere_simulation_inputs root12 s) as (Hd & Hi & Ht & Hl).
  rewrite Hl. fold n.
  destruct (run_months_total (seq 0 n) n (_initialisiere_simulation root12 s))
    as [s1 E1].
  - rewrite Ht. exact Hturnus.
  - unfold returns_cover in *. rewrite Hd. exact Hret.
  - rewrite Hi. exact Hinfl.
  - apply Forall_forall. intros m Hm. apply in_seq in Hm. lia.
  - rewrite E1. cbn [bind]. eexists. reflexivity.
Qed.

(** The insurance scenario completes its run, and afterwards its entry load
    is 0 where the configuration was built with 0.002. *)
Lemma params_mutated_counterexample :
  ~ params_never_mutated (fun _ => 1) (__init__ versicherung_params None (repeat 0 24)).
Proof.
  unfold params_never_mutated. intros Hsame.
  destruct (run_simulation_total (fun _ => 1)
              (__init__ versicherung_params None (repeat 0 24))) as [s' Hrun].
  - cbn. discriminate.
  - exact I.
  - cbn. lia.
  - pose proof (Hsame s' Hrun) as Heq.
    rewrite (run_simulation_params _ _ _ Hrun) in Heq.
    apply (f_equal P.ausgabeaufschlag) in Heq.
    vm_compute in Heq. discriminate.
Qed.

(** C8 (amended). During [run_simulation] the configuration object is written
    only by [_initialisiere_simulation], which attaches [monthly_return] and
    [full_tax_rate] and sets to 0, in insurance mode, [ausgabeaufschlag],
    [ruecknahmeabschlag] and [stueckkosten] and, in depot mode,
    [abschlusskosten_einmalig_prozent], [abschlusskosten_monatlich_prozent],
    [verwaltungskosten_monatlich_prozent] and [guthabenkosten]; every other
    field holds after the run the value it held at construction. *)
Theorem params_after_run (root12 : Q -> Q) (s s' : State) :
  run_simulation root12 s = Ok s' ->
  let p := params s in
  let p' := params s' in
  let vm := P.versicherung_modus p in
  (P.label p' = P.label p /\
   P.versicherung_modus p' = P.versicherung_modus p /\
   P.eintrittsalter p' = P.eintrittsalter p /\
   P.initial_investment p' = P.initial_investment p /\
   P.monthly_investment p' = P.monthly_investment p /\
   P.laufzeit p' = P.laufzeit p /\
   P.beitragszahldauer p' = P.beitragszahldauer p /\
   P.monthly_dynamik_rate p' = P.monthly_dynamik_rate p /\
   P.dynamik_turnus_monate p' = P.dynamik_turnus_monate p /\
   P.sonderzahlung_jahr p' = P.sonderzahlung_jahr p /\
   P.sonderzahlung_betrag p' = P.sonderzahlung_betrag p /\
   P.regel_sonderzahlung_betrag p' = P.regel_sonderzahlung_betrag p /\
   P.regel_sonderzahlung_turnus_jahre p' = P.regel_sonderzahlung_turnus_jahre p /\
   P.annual_withdrawal p' = P.annual_withdrawal p /\
   P.entnahme_plan p' = P.entnahme_plan p /\
   P.entnahme_modus p' = P.entnahme_modus p /\
   P.annual_return p' = P.annual_return p /\
   P.ter p' = P.ter p /\
   P.serviceentgelt p' = P.serviceentgelt p /\
   P.verrechnungsdauer_monate p' = P.verrechnungsdauer_monate p /\
   P.abgeltungssteuer_rate p' = P.abgeltungssteuer_rate p /\
   P.soli_zuschlag_on_abgeltungssteuer p' = P.soli_zuschlag_on_abgeltungssteuer p /\
   P.kirchensteuer_on_abgeltungssteuer p' = P.kirchensteuer_on_abgeltungssteuer p /\
   P.persoenlicher_steuersatz p' = P.persoenlicher_steuersatz p /\
   P.freistellungsauftrag_jahr p' = P.freistellungsauftrag_jahr p /\
   P.teilfreistellung p' = P.teilfreistellung p /\
   P.basiszins p' = P.basiszins p /\
   P.rebalancing_rate p' = P.rebalancing_rate p /\
   P.bewertungsdauer p' = P.bewertungsdauer p /\
   P.inflation_rate p' = P.inflation_rate p /\
   P.inflation_volatility p' = P.inflation_volatility p /\
   P.freistellungs_pauschbetrag_anpassung_rate p'
   = P.freistellungs_pauschbetrag_anpassung_rate p) /\
  P.monthly_return p' = root12 (1 + P.annual_return p) - 1 /\
  P.full_tax_rate p'
  = P.abgeltungssteuer_rate p
    * (1 + P.soli_zuschlag_on_abgeltungssteuer p
         + P.kirchensteuer_on_abgeltungssteuer p) /\
  P.ausgabeaufschlag p' = (if vm then 0 else P.ausgabeaufschlag p) /\
  P.ruecknahmeabschlag p' = (if vm then 0 else P.ruecknahmeabschlag p) /\
  P.stueckkosten p' = (if vm then 0 else P.stueckkosten p) /\
  P.abschlusskosten_einmalig_prozent p'
  = (if vm then P.abschlusskosten_einmalig_prozent p else 0) /\
  P.abschlusskosten_monatlich_prozent p'
  = (if vm then P.abschlusskosten_monatlich_prozent p else 0) /\
  P.verwaltungskosten_monatlich_prozent p'
  = (if vm then P.verwaltungskosten_monatlich_prozent p else 0) /\
  P.guthabenkosten p' = (if vm then P.guthabenkosten p else 0).
Proof.
  intros Hrun. cbv zeta.
  rewrite (run_simulation_params _ _ _ Hrun).
  pose proof (initialisiere_simulation_params root12 s) as Hinit.
  cbv zeta in Hinit. rewrite Hinit.
  destruct (P.versicherung_modus (params s)) eqn:Evm; cbn;
    repeat split; try reflexivity; exact Evm.
Qed.

Lemma params_after_run_witness :
  exists s' : State,
    run_simulation (fun _ => 1) (__init__ depot_params None (repeat 0 24)) = Ok s' /\
    P.guthabenkosten (params s') = 0 /\
    P.ausgabeaufschlag (params s') = 2 # 1000.
Proof.
  destruct (run_simulation_total (fun _ => 1)
              (__init__ depot_params None (repeat 0 24))) as [s' Hrun];
    [cbn; discriminate | exact I | cbn; lia |].
  exists s'. split; [exact Hrun|].
  pose proof (params_after_run _ _ _ Hrun) as H. cbv zeta in H.
  destruct H as (_ & _ & _ & Haa & _ & _ & _ & _ & _ & Hgk).
  split; [exact Hgk | exact Haa].
Defined.

(** ** The value of the ledger *)








Lemma snapshot_ok (pf : list Lot) : Forall lot_ok pf -> Forall lot_ok (snapshot pf).
Proof.
  intros Hall. unfold snapshot. apply Forall_map.
  eapply Forall_impl; [|exact Hall].
  intros e [Hv Hs]. split; cbn; exact Hv.
Qed.
















(** ** First in, first out *)

Lemma sorted_app_inv (l1 l2 : list nat) :
  StronglySorted le (l1 ++ l2) ->
  StronglySorted le l1 /\ StronglySorted le l2 /\
  (forall a b, In a l1 -> In b l2 -> (a <= b)%nat).
Proof.
  induction l1 as [|x l1 IH]; cbn [app]; intros H.
  - repeat split; [constructor | exact H | intros a b []].
  - apply StronglySorted_inv in H. destruct H as [Hs Hx].
    destruct (IH Hs) as (H1 & H2 & H3).
    apply Forall_app in Hx. destruct Hx as [Hx1 Hx2].
    repeat split; [constructor; assumption | exact H2 |].
    intros a b [<- | Ha] Hb.
    + rewrite Forall_forall in Hx2. apply Hx2. exact Hb.
    + apply H3; assumption.
Qed.

Lemma sorted_app (l1 l2 : list nat) :
  StronglySorted le l1 -> StronglySorted le l2 ->
  (forall a b, In a l1 -> In b l2 -> (a <= b)%nat) ->
  StronglySorted le (l1 ++ l2).
Proof.
  induction l1 as [|x l1 IH]; cbn [app]; intros H1 H2 H3; [exact H2|].
  apply StronglySorted_inv in H1. destruct H1 as [Hs Hx].
  constructor.
  - apply IH; [exact Hs | exact H2 |]. intros a b Ha Hb. apply H3; [right|]; assumption.
  - apply Forall_app. split; [exact Hx|].
    apply Forall_forall. intros b Hb. apply H3; [left; reflexivity | exact Hb].
Qed.

Lemma sorted_filter (f : Lot -> bool) (l : list Lot) :
  ledger_sorted l -> ledger_sorted (filter f l).
Proof.
  unfold ledger_sorted. induction l as [|e l IH]; cbn [filter map]; intros H;
    [constructor|].
  apply StronglySorted_inv in H. destruct H as [Hs He].
  destruct (f e); [|apply IH; exact Hs].
  cbn [map]. constructor; [apply IH; exact Hs|].
  rewrite Forall_forall in *. intros x Hx. apply He.
  apply in_map_iff in Hx. destruct Hx as (e0 & <- & Hin).
  apply filter_In in Hin. apply in_map. apply Hin.
Qed.

(** A pass of the withdrawal loop on a popped lot of positive value, seen
    from the ledger: the tranche sells [min] of the lot and the target, the
    residual is put aside when it exceeds the threshold. *)
Lemma withdraw_lot_shape (d : date) (entry : Lot) (remaining : Q)
      (acc : WithdrawAcc) (s : State) :
  let r := withdraw_lot d entry remaining acc s in
  let acc' := snd (fst r) in
  exists sl : Sale,
    wd_sold acc' = wd_sold acc ++ [sl] /\
    sale_lot sl = entry /\
    sale_value sl = Qmin (value entry) remaining /\
    fst (fst r) = remaining - sale_value sl /\
    ((value entry - sale_value sl <= eps /\ wd_temp_queue acc' = wd_temp_queue acc) \/
     (eps < value entry - sale_value sl /\
      exists e' : Lot, wd_temp_queue acc' = wd_temp_queue acc ++ [e'] /\ residual_of sl e')).
Proof.
  cbv zeta. unfold withdraw_lot.
  destruct (P.versicherung_modus (params s));
    [destruct (Qle_bool 62 _ && Qle_bool 12 _)%bool|];
    cbn [fst snd wd_sold wd_temp_queue value];
    eexists; (split; [reflexivity|]); cbn [sale_lot sale_value];
    (split; [reflexivity|]); (split; [reflexivity|]); (split; [reflexivity|]);
    (destruct (Qlt_le_dec eps (value entry - Qmin (value entry) remaining));
     [right; split; [assumption|]; eexists; split; [reflexivity|];
      repeat split; reflexivity
     |left; split; [assumption | reflexivity]]).
Qed.

Lemma withdrawal_loop_done (d : date) (pf : list Lot) (remaining : Q)
      (acc : WithdrawAcc) (s : State) :
  remaining <= eps -> withdrawal_loop d pf remaining acc s = (pf, acc, s).
Proof.
  intros H. destruct pf as [|e rest]; cbn [withdrawal_loop]; [reflexivity|].
  destruct (Qlt_le_dec eps remaining); [lra | reflexivity].
Qed.

Lemma positive_true (e : Lot) : 0 < value e -> positive e = true.
Proof. intros H. unfold positive. destruct (Qlt_le_dec 0 (value e)); [reflexivity|lra]. Qed.

Lemma positive_false (e : Lot) : value e <= 0 -> positive e = false.
Proof. intros H. unfold positive. destruct (Qlt_le_dec 0 (value e)); [lra|reflexivity]. Qed.

Lemma withdrawal_loop_fifo (d : date) (pf : list Lot) :
  forall (remaining : Q) (acc : WithdrawAcc) (s : State),
  let r := withdrawal_loop d pf remaining acc s in
  exists (sales : list Sale) (queue : list Lot),
    wd_sold (snd (fst r)) = wd_sold acc ++ sales /\
    wd_temp_queue (snd (fst r)) = wd_temp_queue acc ++ queue /\
    fifo_sale pf sales queue (fst (fst r)).
Proof.
  induction pf as [|entry rest IH]; intros remaining acc s; cbn zeta.
  - exists [], []. cbn. rewrite !app_nil_r. repeat split.
    + exists []. split; reflexivity.
    + left. split; [constructor | reflexivity].
  - cbn [withdrawal_loop].
    destruct (Qlt_le_dec eps remaining) as [Hrem | Hrem].
    + destruct (Qlt_le_dec 0 (value entry)) as [Hv | Hv].
      * pose proof (withdraw_lot_shape d entry remaining acc s) as H1.
        cbv zeta in H1.
        destruct (withdraw_lot d entry remaining acc s) as [[rem1 acc1] s1].
        cbn [fst snd] in H1.
        destruct H1 as (sl & Hsold & Hlot & Hval & Hrem1 & Hq).
        destruct (Qlt_le_dec remaining (value entry)) as [Hpart | Hfull].
        -- (* the lot covers the target: the loop ends here *)
           assert (Hmin : sale_value sl == remaining)
             by (rewrite Hval; apply Q.min_r; lra).
           rewrite withdrawal_loop_done by (rewrite Hrem1; unfold eps; lra).
           cbn [fst snd].
           assert (Hlast : sale_value sl < value (sale_lot sl))
             by (rewrite Hlot; lra).
           destruct Hq as [[Hsmall Hq] | [Hbig (e' & Hq & Hres)]].
           ++ exists [sl], []. rewrite Hsold, Hq, app_nil_r.
              repeat split.
              ** exists [entry]. cbn [app map filter].
                 rewrite (positive_true entry Hv), Hlot. split; reflexivity.
              ** right. exists [], sl.
                 split; [reflexivity|]. split; [constructor|].
                 split; [exact Hlast|].
                 left. rewrite Hlot. split; [exact Hsmall | reflexivity].
           ++ exists [sl], [e']. rewrite Hsold, Hq.
              repeat split.
              ** exists [entry]. cbn [app map filter].
                 rewrite (positive_true entry Hv), Hlot. split; reflexivity.
              ** right. exists [], sl.
                 split; [reflexivity|]. split; [constructor|].
                 split; [exact Hlast|].
                 right. rewrite Hlot. split; [exact Hbig|].
                 exists e'. split; [reflexivity|exact Hres].
        -- (* the lot is sold entirely: the loop goes on *)
           assert (Hmin : sale_value sl == value entry)
             by (rewrite Hval; apply Q.min_l; exact Hfull).
           destruct Hq as [[_ Hq] | [Hbig _]]; [|unfold eps in Hbig; lra].
           specialize (IH rem1 acc1 s1). cbv zeta in IH.
           destruct IH as (sales & queue & Hs2 & Hq2 & (consumed & Hpf & Hmap) & Hshape).
           exists (sl :: sales), queue.
           rewrite Hs2, Hq2, Hsold, Hq, <- app_assoc. cbn [app].
           repeat split.
           ++ exists (entry :: consumed). cbn [app map filter].
              rewrite (positive_true entry Hv), Hlot, Hmap, <- Hpf.
              split; reflexivity.
           ++ assert (Hso : sold_out sl) by (unfold sold_out; rewrite Hlot; exact Hmin).
              destruct Hshape as [[Hall Hqe] | (front & sl2 & Hfr & Hall & Hrest)].
              ** left. split; [constructor; assumption | exact Hqe].
              ** right. exists (sl :: front), sl2. rewrite Hfr.
                 split; [reflexivity|]. split; [constructor; assumption|exact Hrest].
      * specialize (IH remaining acc s). cbv zeta in IH.
        destruct IH as (sales & queue & Hs2 & Hq2 & (consumed & Hpf & Hmap) & Hshape).
        exists sales, queue. repeat split; try assumption.
        exists (entry :: consumed). cbn [app filter].
        rewrite (positive_false entry Hv), <- Hpf. split; [reflexivity | exact Hmap].
    + exists [], []. cbn. rewrite !app_nil_r. repeat split.
      * exists []. split; reflexivity.
      * left. split; [constructor | reflexivity].
Qed.

(** The same for a pass of the rebalancing loop, seen
    from the ledger: the tranche sells [min] of the lot and the target, the
    residual is put aside when it exceeds the threshold. *)
Lemma rebalance_lot_shape (entry : Lot) (remaining : Q)
      (acc : RebalAcc) (s : State) :
  let r := rebalance_lot entry remaining acc s in
  let acc' := snd (fst r) in
  exists sl : Sale,
    rb_sold acc' = rb_sold acc ++ [sl] /\
    sale_lot sl = entry /\
    sale_value sl = Qmin (value entry) remaining /\
    fst (fst r) = remaining - sale_value sl /\
    ((value entry - sale_value sl <= eps /\ rb_temp_queue acc' = rb_temp_queue acc) \/
     (eps < value entry - sale_value sl /\
      exists e' : Lot, rb_temp_queue acc' = rb_temp_queue acc ++ [e'] /\ residual_of sl e')).
Proof.
  cbv zeta. unfold rebalance_lot.
  cbn [fst snd rb_sold rb_temp_queue value];
    eexists; (split; [reflexivity|]); cbn [sale_lot sale_value];
    (split; [reflexivity|]); (split; [reflexivity|]); (split; [reflexivity|]);
    (destruct (Qlt_le_dec eps (value entry - Qmin (value entry) remaining));
     [right; split; [assumption|]; eexists; split; [reflexivity|];
      repeat split; reflexivity
     |left; split; [assumption | reflexivity]]).
Qed.

Lemma rebalancing_loop_done (pf : list Lot) (remaining : Q)
      (acc : RebalAcc) (s : State) :
  remaining <= eps -> rebalancing_loop pf remaining acc s = (pf, acc, s).
Proof.
  intros H. destruct pf as [|e rest]; cbn [rebalancing_loop]; [reflexivity|].
  destruct (Qlt_le_dec eps remaining); [lra | reflexivity].
Qed.

Lemma rebalancing_loop_fifo (pf : list Lot) :
  forall (remaining : Q) (acc : RebalAcc) (s : State),
  let r := rebalancing_loop pf remaining acc s in
  exists (sales : list Sale) (queue : list Lot),
    rb_sold (snd (fst r)) = rb_sold acc ++ sales /\
    rb_temp_queue (snd (fst r)) = rb_temp_queue acc ++ queue /\
    fifo_sale pf sales queue (fst (fst r)).
Proof.
  induction pf as [|entry rest IH]; intros remaining acc s; cbn zeta.
  - exists [], []. cbn. rewrite !app_nil_r. repeat split.
    + exists []. split; reflexivity.
    + left. split; [constructor | reflexivity].
  - cbn [rebalancing_loop].
    destruct (Qlt_le_dec eps remaining) as [Hrem | Hrem].
    + destruct (Qlt_le_dec 0 (value entry)) as [Hv | Hv].
      * pose proof (rebalance_lot_shape entry remaining acc s) as H1.
        cbv zeta in H1.
        destruct (rebalance_lot entry remaining acc s) as [[rem1 acc1] s1].
        cbn [fst snd] in H1.
        destruct H1 as (sl & Hsold & Hlot & Hval & Hrem1 & Hq).
        destruct (Qlt_le_dec remaining (value entry)) as [Hpart | Hfull].
        -- (* the lot covers the target: the loop ends here *)
           assert (Hmin : sale_value sl == remaining)
             by (rewrite Hval; apply Q.min_r; lra).
           rewrite rebalancing_loop_done by (rewrite Hrem1; unfold eps; lra).
           cbn [fst snd].
           assert (Hlast : sale_value sl < value (sale_lot sl))
             by (rewrite Hlot; lra).
           destruct Hq as [[Hsmall Hq] | [Hbig (e' & Hq & Hres)]].
           ++ exists [sl], []. rewrite Hsold, Hq, app_nil_r.
              repeat split.
              ** exists [entry]. cbn [app map filter].
                 rewrite (positive_true entry Hv), Hlot. split; reflexivity.
              ** right. exists [], sl.
                 split; [reflexivity|]. split; [constructor|].
                 split; [exact Hlast|].
                 left. rewrite Hlot. split; [exact Hsmall | reflexivity].
           ++ exists [sl], [e']. rewrite Hsold, Hq.
              repeat split.
              ** exists [entry]. cbn [app map filter].
                 rewrite (positive_true entry Hv), Hlot. split; reflexivity.
              ** right. exists [], sl.
                 split; [reflexivity|]. split; [constructor|].
                 split; [exact Hlast|].
                 right. rewrite Hlot. split; [exact Hbig|].
                 exists e'. split; [reflexivity|exact Hres].
        -- (* the lot is sold entirely: the loop goes on *)
           assert (Hmin : sale_value sl == value entry)
             by (rewrite Hval; apply Q.min_l; exact Hfull).
           destruct Hq as [[_ Hq] | [Hbig _]]; [|unfold eps in Hbig; lra].
           specialize (IH rem1 acc1 s1). cbv zeta in IH.
           destruct IH as (sales & queue & Hs2 & Hq2 & (consumed & Hpf & Hmap) & Hshape).
           exists (sl :: sales), queue.
           rewrite Hs2, Hq2, Hsold, Hq, <- app_assoc. cbn [app].
           repeat split.
           ++ exists (entry :: consumed). cbn [app map filter].
              rewrite (positive_true entry Hv), Hlot, Hmap, <- Hpf.
              split; reflexivity.
           ++ assert (Hso : sold_out sl) by (unfold sold_out; rewrite Hlot; exact Hmin).
              destruct Hshape as [[Hall Hqe] | (front & sl2 & Hfr & Hall & Hrest)].
              ** left. split; [constructor; assumption | exact Hqe].
              ** right. exists (sl :: front), sl2. rewrite Hfr.
                 split; [reflexivity|]. split; [constructor; assumption|exact Hrest].
      * specialize (IH remaining acc s). cbv zeta in IH.
        destruct IH as (sales & queue & Hs2 & Hq2 & (consumed & Hpf & Hmap) & Hshape).
        exists sales, queue. repeat split; try assumption.
        exists (entry :: consumed). cbn [app filter].
        rewrite (positive_false entry Hv), <- Hpf. split; [reflexivity | exact Hmap].
    + exists [], []. cbn. rewrite !app_nil_r. repeat split.
      * exists []. split; reflexivity.
      * left. split; [constructor | reflexivity].
Qed.

(** What a first-in-first-out sale from an ordered ledger guarantees: the
    ledger that results is ordered, every lot consumed is no younger than any
    lot left, and the first lot consumed is no younger than any lot of
    positive value. *)
Lemma fifo_sale_sorted (pf : list Lot) (sales : list Sale) (queue rest : list Lot) :
  fifo_sale pf sales queue rest ->
  ledger_sorted pf ->
  ledger_sorted (queue ++ rest) /\
  (forall sl e, In sl sales -> In e (queue ++ rest) ->
                (lot_date (sale_lot sl) <= lot_date e)%nat) /\
  (forall sl0 tl e, sales = sl0 :: tl -> In e pf -> positive e = true ->
                    (lot_date (sale_lot sl0) <= lot_date e)%nat) /\
  (forall d, Forall (fun x => (x <= d)%nat) (map lot_date pf) ->
             Forall (fun x => (x <= d)%nat) (map lot_date (queue ++ rest))).
Proof.
  intros ((consumed & Hpf & Hmap) & Hshape) Hsorted.
  pose proof Hsorted as Hs0. unfold ledger_sorted in Hs0.
  rewrite Hpf, map_app in Hs0.
  apply sorted_app_inv in Hs0. destruct Hs0 as (Hsc & Hsr & Hcr).
  assert (Hin : forall sl, In sl sales -> In (sale_lot sl) consumed).
  { intros sl Hsl. apply (in_map sale_lot) in Hsl. rewrite Hmap in Hsl.
    apply filter_In in Hsl. apply Hsl. }
  assert (Hfs : ledger_sorted (filter positive consumed)).
  { apply sorted_filter. exact Hsc. }
  assert (Hrest : forall sl e, In sl sales -> In e rest ->
                               (lot_date (sale_lot sl) <= lot_date e)%nat).
  { intros sl e Hsl He. apply Hcr; apply in_map; [apply Hin; exact Hsl | exact He]. }
  assert (Hq : queue = [] \/
               exists front sl e', sales = front ++ [sl] /\ queue = [e'] /\
                                   lot_date e' = lot_date (sale_lot sl)).
  { destruct Hshape as [[_ Hq] | (front & sl & Hfr & _ & _ & [[_ Hq] | [_ (e' & Hq & Hres)]])];
      [left; exact Hq | left; exact Hq |].
    right. exists front, sl, e'. repeat split; try assumption. apply Hres. }
  assert (Hfirst : forall sl0 tl e, sales = sl0 :: tl -> In e pf -> positive e = true ->
                                    (lot_date (sale_lot sl0) <= lot_date e)%nat).
  { intros sl0 tl e Hsales He Hpos. rewrite Hpf in He. apply in_app_or in He.
    destruct He as [He | He].
    - assert (Hf : In e (filter positive consumed))
        by (apply filter_In; split; assumption).
      rewrite <- Hmap, Hsales in Hf, Hfs. cbn [map] in Hf, Hfs.
      destruct Hf as [<- | Hf]; [apply le_n|].
      unfold ledger_sorted in Hfs. cbn [map] in Hfs.
      apply StronglySorted_inv in Hfs. destruct Hfs as [_ Hall].
      rewrite Forall_forall in Hall. apply Hall. apply in_map. exact Hf.
    - apply Hrest; [rewrite Hsales; left; reflexivity | exact He]. }
  destruct Hq as [-> | (front & sl & e' & Hfr & -> & Hdate)]; cbn [app].
  - repeat split; try assumption.
    intros d Hd. rewrite Hpf, map_app in Hd. apply Forall_app in Hd. apply Hd.
  - assert (Hlast : In sl sales) by (rewrite Hfr; apply in_or_app; right; left; reflexivity).
    assert (Hfront : forall sl1, In sl1 sales ->
                                 (lot_date (sale_lot sl1) <= lot_date (sale_lot sl))%nat).
    { intros sl1 Hsl1. rewrite Hfr in Hsl1. apply in_app_or in Hsl1.
      destruct Hsl1 as [Hsl1 | [<- | []]]; [|apply le_n].
      unfold ledger_sorted in Hfs. rewrite <- Hmap, Hfr, !map_app in Hfs.
      apply sorted_app_inv in Hfs. destruct Hfs as (_ & _ & Hle).
      apply Hle; [|left; reflexivity].
      apply in_map. apply in_map. exact Hsl1. }
    split.
    { unfold ledger_sorted. cbn [map]. constructor; [exact Hsr|].
      apply Forall_forall. intros x Hx. rewrite Hdate.
      apply in_map_iff in Hx. destruct Hx as (e & <- & He).
      apply Hrest; assumption. }
    split.
    { intros sl1 e Hsl1 [<- | He]; [rewrite Hdate; apply Hfront; exact Hsl1|].
      apply Hrest; assumption. }
    split; [exact Hfirst|].
    intros d Hd. cbn [map]. rewrite Hpf, map_app in Hd. apply Forall_app in Hd.
    destruct Hd as [Hdc Hdr]. constructor; [|exact Hdr].
    rewrite Hdate. rewrite Forall_forall in Hdc. apply Hdc.
    apply in_map. apply Hin. exact Hlast.
Qed.

Lemma ledger_dated_append (d : date) (pf : list Lot) (netto : Q) :
  ledger_dated d pf -> ledger_dated d (pf ++ [new_lot d netto]).
Proof.
  intros (Hs & Hd). unfold ledger_dated, ledger_sorted. rewrite map_app. cbn [map].
  split.
  - apply sorted_app; [exact Hs | repeat constructor |].
    intros a b Ha [<- | []]. rewrite Forall_forall in Hd. apply Hd. exact Ha.
  - apply Forall_app. split; [exact Hd|]. constructor; [apply le_n | constructor].
Qed.

Lemma handle_withdrawals_dated (month : nat) (d d0 : date) (s : State) :
  ledger_dated d0 (portfolio s) ->
  ledger_dated d0 (portfolio (_handle_withdrawals month d s)).
Proof.
  intros (Hs & Hd). unfold _handle_withdrawals.
  destruct (Z.of_nat month <? P.beitragszahldauer (params s) * 12)%Z; [split; assumption|].
  destruct (Qlt_le_dec 0 (entnahmebetrag_jahr d (params s))); [|split; assumption].
  destruct (Qlt_le_dec 0 (entnahmebetrag_of d (params s))); [|split; assumption].
  destruct (Qlt_le_dec (depotwert_of (portfolio s)) (entnahmebetrag_of d (params s)));
    [split; assumption|].
  pose proof (withdrawal_loop_fifo d (portfolio s) (entnahmebetrag_of d (params s))
                empty_withdraw_acc s) as H.
  cbv zeta in H.
  destruct (withdrawal_loop d (portfolio s) (entnahmebetrag_of d (params s))
              empty_withdraw_acc s) as [[rest acc] s1].
  cbn [fst snd empty_withdraw_acc wd_sold wd_temp_queue app] in H.
  destruct H as (sales & queue & _ & Hq & Hfifo).
  cbn [portfolio cashflow push_cashflow charge set_portfolio]. rewrite Hq.
  destruct (fifo_sale_sorted _ _ _ _ Hfifo Hs) as (H1 & _ & _ & H4).
  split; [exact H1 | apply H4; exact Hd].
Qed.

Lemma handle_rebalancing_dated (d : date) (s : State) :
  ledger_dated d (portfolio s) ->
  ledger_dated d (portfolio (_handle_rebalancing d s)).
Proof.
  intros (Hs & Hd). unfold _handle_rebalancing.
  destruct (negb (P.versicherung_modus (params s)) && (month_of d =? 12)%Z
            && (if Qlt_le_dec 0 (P.rebalancing_rate (params s)) then true else false))%bool;
    [|split; assumption].
  destruct (Qlt_le_dec 0 (depotwert_of (portfolio s) * P.rebalancing_rate (params s)));
    [|split; assumption].
  pose proof (rebalancing_loop_fifo (portfolio s)
                (depotwert_of (portfolio s) * P.rebalancing_rate (params s))
                empty_rebal_acc s) as H.
  cbv zeta in H.
  destruct (rebalancing_loop (portfolio s)
              (depotwert_of (portfolio s) * P.rebalancing_rate (params s))
              empty_rebal_acc s) as [[rest acc] s1].
  cbn [fst snd empty_rebal_acc rb_sold rb_temp_queue app] in H.
  destruct H as (sales & queue & _ & Hq & Hfifo).
  destruct (fifo_sale_sorted _ _ _ _ Hfifo Hs) as (H1 & _ & _ & H4).
  assert (Hdated : ledger_dated d (queue ++ rest)) by (split; [exact H1 | apply H4; exact Hd]).
  destruct (Qlt_le_dec eps (total_netto acc));
    cbn [portfolio log_rebalancing append_lot set_portfolio]; rewrite Hq;
    [apply ledger_dated_append|]; exact Hdated.
Qed.

Lemma handle_monthly_investment_dated (month : nat) (d : date) (s s1 : State) :
  ledger_dated d (portfolio s) ->
  _handle_monthly_investment month d s = Ok s1 ->
  ledger_dated d (portfolio s1).
Proof.
  intros Hd. unfold _handle_monthly_investment.
  set (s0 := if (0 <? Z.of_nat month)%Z then _ else _).
  assert (H0 : forall sa, s0 = Ok sa -> portfolio sa = portfolio s).
  { unfold s0. intros sa.
    destruct (0 <? Z.of_nat month)%Z.
    - destruct (P.dynamik_turnus_monate (params s) =? 0)%Z; [discriminate|].
      destruct (Z.of_nat month mod P.dynamik_turnus_monate (params s) =? 0)%Z;
        intros H; injection H as <-; reflexivity.
    - intros H; injection H as <-. reflexivity. }
  destruct s0 as [sa|e]; cbn [bind]; [|discriminate].
  specialize (H0 sa eq_refl).
  split_ifs; intros H; injection H as <-;
    cbn [portfolio append_lot set_portfolio charge cashflow push_cashflow];
    rewrite ?H0; repeat apply ledger_dated_append; exact Hd.
Qed.

Lemma ledger_dated_same_dates (d : date) (pf pf' : list Lot) :
  map lot_date pf' = map lot_date pf -> ledger_dated d pf -> ledger_dated d pf'.
Proof.
  unfold ledger_dated, ledger_sorted. intros ->. exact (fun H => H).
Qed.

Lemma deduct_proportional_dates (x depotwert : Q) (pf : list Lot) :
  map lot_date (deduct_proportional x depotwert pf) = map lot_date pf.
Proof. unfold deduct_proportional. rewrite map_map. reflexivity. Qed.

Lemma grow_dates (r : Q) (pf : list Lot) : map lot_date (grow r pf) = map lot_date pf.
Proof. unfold grow. rewrite map_map. reflexivity. Qed.

Lemma snapshot_dates (pf : list Lot) : map lot_date (snapshot pf) = map lot_date pf.
Proof. unfold snapshot. rewrite map_map. reflexivity. Qed.

Lemma handle_costs_dates (month : nat) (d : date) (s : State) :
  map lot_date (portfolio (_handle_costs month d s)) = map lot_date (portfolio s).
Proof.
  unfold _handle_costs. split_ifs;
    cbn [portfolio set_portfolio charge cashflow push_cashflow];
    rewrite ?deduct_proportional_dates; reflexivity.
Qed.

Lemma taxes_loop_dates (d : date) (pf : list Lot) :
  forall s : State, map lot_date (fst (taxes_loop d pf s)) = map lot_date pf.
Proof.
  induction pf as [|entry rest IH]; intros s; cbn [taxes_loop]; [reflexivity|].
  assert (He : lot_date (fst (vorabpauschale d entry s)) = lot_date entry)
    by (unfold vorabpauschale; split_ifs; reflexivity).
  destruct (vorabpauschale d entry s) as [entry' s1]. cbn [fst] in He.
  specialize (IH s1). destruct (taxes_loop d rest s1) as [rest' s2].
  cbn [fst map] in *. congruence.
Qed.

Lemma handle_taxes_dates (d : date) (s : State) :
  map lot_date (portfolio (_handle_taxes d s)) = map lot_date (portfolio s).
Proof.
  unfold _handle_taxes. split_ifs; [|reflexivity].
  pose proof (taxes_loop_dates d (portfolio s) s) as H.
  destruct (taxes_loop d (portfolio s) s) as [pf s']. exact H.
Qed.

(** A simulated month keeps the ledger ordered by acquisition date, with no
    lot dated after the month. *)
Lemma simuliere_monat_dated (month : nat) (s s' : State) :
  ledger_dated month (portfolio s) ->
  _simuliere_monat month s = Ok s' ->
  ledger_dated month (portfolio s').
Proof.
  intros Hd Hrun.
  destruct (simuliere_monat_steps month s s' Hrun) as (s1 & r & infl & H).
  cbv zeta in H. destruct H as (H1 & _ & _ & ->).
  assert (Hd1 : ledger_dated month (portfolio s1)).
  { eapply handle_monthly_investment_dated; [|exact H1].
    destruct (month_of month =? 1)%Z; exact Hd. }
  set (s2 := _handle_costs month month s1).
  assert (Hd2 : ledger_dated month (portfolio s2))
    by (eapply ledger_dated_same_dates; [apply handle_costs_dates | exact Hd1]).
  set (s4 := set_kumulierte_inflation_factor _ (set_portfolio (grow r (portfolio s2)) s2)).
  assert (Hd4 : ledger_dated month (portfolio s4))
    by (eapply ledger_dated_same_dates; [apply grow_dates | exact Hd2]).
  assert (Hd5 : ledger_dated month (portfolio (_handle_taxes month s4)))
    by (eapply ledger_dated_same_dates; [apply handle_taxes_dates | exact Hd4]).
  pose proof (handle_rebalancing_dated month _ Hd5) as Hd6.
  pose proof (handle_withdrawals_dated month month month _ Hd6) as Hd7.
  destruct (month_of month =? 12)%Z; cbn [portfolio set_portfolio log_month];
    [eapply ledger_dated_same_dates; [apply snapshot_dates|]|]; exact Hd7.
Qed.



(** ** The worst three-year window *)

Import MonteCarlo.

Lemma insert_group_new (y : Z) (x : Q) (gs : list (Z * list Q)) :
  Forall (fun g => (fst g < y)%Z) gs ->
  insert_group y x gs = gs ++ [(y, [x])].
Proof.
  induction 1 as [|[y' xs] gs Hy _ IH]; cbn [insert_group app]; [reflexivity|].
  cbn [fst] in Hy.
  destruct (y =? y')%Z eqn:E1; [apply Z.eqb_eq in E1; lia|].
  destruct (y <? y')%Z eqn:E2; [apply Z.ltb_lt in E2; lia|].
  rewrite IH. reflexivity.
Qed.

Lemma insert_group_last (y : Z) (x : Q) (xs : list Q) (gs : list (Z * list Q)) :
  Forall (fun g => (fst g < y)%Z) gs ->
  insert_group y x (gs ++ [(y, xs)]) = gs ++ [(y, xs ++ [x])].
Proof.
  induction 1 as [|[y' xs'] gs Hy _ IH]; cbn [insert_group app].
  - rewrite Z.eqb_refl. reflexivity.
  - cbn [fst] in Hy.
    destruct (y =? y')%Z eqn:E1; [apply Z.eqb_eq in E1; lia|].
    destruct (y <? y')%Z eqn:E2; [apply Z.ltb_lt in E2; lia|].
    rewrite IH. reflexivity.
Qed.

Lemma fold_insert_group_year (y : Z) (ms : list Q) :
  forall (xs : list Q) (gs : list (Z * list Q)),
  Forall (fun g => (fst g < y)%Z) gs ->
  fold_left (fun gs yx => insert_group (fst yx) (snd yx) gs) (map (pair y) ms)
            (gs ++ [(y, xs)])
  = gs ++ [(y, xs ++ ms)].
Proof.
  induction ms as [|m ms IH]; intros xs gs Hgs; cbn [map fold_left fst snd].
  - rewrite app_nil_r. reflexivity.
  - rewrite insert_group_last by exact Hgs.
    rewrite IH by exact Hgs. rewrite <- app_assoc. reflexivity.
Qed.

Lemma fold_insert_group_series (years : list (list Q)) :
  forall (y0 : Z) (gs : list (Z * list Q)),
  Forall (fun ms => ms <> []) years ->
  Forall (fun g => (fst g < y0)%Z) gs ->
  fold_left (fun gs yx => insert_group (fst yx) (snd yx) gs) (series_of y0 years) gs
  = gs ++ labelled y0 years.
Proof.
  induction years as [|ms rest IH]; intros y0 gs Hne Hgs;
    cbn [series_of labelled fold_left].
  - rewrite app_nil_r. reflexivity.
  - inversion Hne as [|? ? Hms Hrest]; subst.
    destruct ms as [|m ms]; [contradiction|].
    rewrite fold_left_app. cbn [map fold_left fst snd].
    rewrite insert_group_new by exact Hgs.
    rewrite fold_insert_group_year by exact Hgs.
    rewrite IH; [rewrite <- app_assoc; reflexivity | exact Hrest |].
    apply Forall_app. split.
    + eapply Forall_impl; [|exact Hgs]. intros g Hg. cbn beta in *. lia.
    + constructor; [cbn; lia | constructor].
Qed.

(** Grouping a series over consecutive years gives back its years. *)
Lemma groupby_year_series (y0 : Z) (years : list (list Q)) :
  Forall (fun ms => ms <> []) years ->
  groupby_year (series_of y0 years) = labelled y0 years.
Proof.
  intros Hne. unfold groupby_year.
  rewrite fold_insert_group_series; [reflexivity | exact Hne | constructor].
Qed.

Lemma idxmin_in (l : list (Z * Q)) (y : Z) (v : Q) :
  idxmin l = Some (y, v) -> In (y, v) l.
Proof.
  revert y v. induction l as [|[y0 v0] l IH]; intros y v; cbn [idxmin]; [discriminate|].
  destruct (idxmin l) as [[y' v']|].
  - destruct (Qlt_le_dec v' v0); intros H; injection H as <- <-.
    + right. apply IH. reflexivity.
    + left. reflexivity.
  - intros H; injection H as <- <-. left. reflexivity.
Qed.

Lemma window_return_tail (a : list Q) (rest : list (list Q)) (j : nat) :
  window_return (a :: rest) (S j) = window_return rest j.
Proof. reflexivity. Qed.

(** Every entry of the rolling series is the return of a window. *)
Lemma rolling_returns_in (years : list (list Q)) :
  forall (y0 y : Z) (v : Q),
  In (y, v) (rolling_returns (map (fun g => (fst g, compound (snd g)))
                                  (labelled y0 years))) ->
  exists j : nat, window_return years j = Some v.
Proof.
  induction years as [|a rest IH]; intros y0 y v; cbn [labelled map rolling_returns];
    [intros []|].
  destruct rest as [|b [|c rest]]; cbn [labelled map rolling_returns fst snd];
    [intros [] | intros [] |].
  intros [H | H].
  - injection H as _ <-. exists 0%nat. reflexivity.
  - destruct (IH (y0 + 1)%Z y v H) as [j Hj].
    exists (S j). rewrite window_return_tail. exact Hj.
Qed.

(** The first minimum of the rolling series is the window whose return is
    below every other. *)
Lemma idxmin_rolling (years : list (list Q)) :
  forall (y0 : Z) (k : nat) (w : Q),
  window_return years k = Some w ->
  (forall j w', j <> k -> window_return years j = Some w' -> w < w') ->
  idxmin (rolling_returns (map (fun g => (fst g, compound (snd g)))
                               (labelled y0 years)))
  = Some ((y0 + Z.of_nat k + 2)%Z, w).
Proof.
  induction years as [|a rest IH]; intros y0 k w Hw Hmin.
  - destruct k; discriminate.
  - destruct k as [|k].
    + destruct rest as [|b [|c rest]]; try discriminate.
      unfold window_return in Hw. cbn [nth_error Nat.add] in Hw.
      injection Hw as <-.
      cbn [labelled map rolling_returns fst snd idxmin].
      destruct (idxmin _) as [[y' v']|] eqn:E.
      * apply idxmin_in in E.
        apply (rolling_returns_in (b :: c :: rest) (y0 + 1)%Z) in E.
        destruct E as [j Hj].
        assert (Hlt := Hmin (S j) v' (Nat.neq_succ_0 j) Hj).
        destruct (Qlt_le_dec v' _) as [Hc | _]; [lra|].
        f_equal. f_equal. lia.
      * f_equal. f_equal. lia.
    + rewrite window_return_tail in Hw.
      assert (Htail : idxmin (rolling_returns
                                (map (fun g => (fst g, compound (snd g)))
                                     (labelled (y0 + 1) rest)))
                      = Some ((y0 + 1 + Z.of_nat k + 2)%Z, w)).
      { apply IH; [exact Hw|]. intros j w' Hj Hw'.
        apply (Hmin (S j) w'); [lia | exact Hw']. }
      destruct rest as [|b [|c rest]];
        try (unfold window_return in Hw; destruct k as [|[|k]]; discriminate).
      cbn [labelled map rolling_returns fst snd idxmin] in *.
      rewrite Htail.
      assert (H0 : w < compound [compound a; compound b; compound c])
        by (apply (Hmin 0%nat); [lia | reflexivity]).
      destruct (Qlt_le_dec w _) as [_ | Hc]; [|lra].
      f_equal. f_equal. lia.
Qed.

Lemma filter_year_in (lo y : Z) (ms : list Q) :
  (lo <= y < lo + 3)%Z ->
  filter (fun yx : Z * Q => ((lo <=? fst yx) && (fst yx <? lo + 3))%Z%bool)
         (map (pair y) ms)
  = map (pair y) ms.
Proof.
  intros Hy. induction ms as [|m ms IH]; cbn [map filter fst]; [reflexivity|].
  replace (lo <=? y)%Z with true by (symmetry; apply Z.leb_le; lia).
  replace (y <? lo + 3)%Z with true by (symmetry; apply Z.ltb_lt; lia).
  cbn [andb]. rewrite IH. reflexivity.
Qed.

Lemma filter_year_out (lo y : Z) (ms : list Q) :
  (y < lo \/ lo + 3 <= y)%Z ->
  filter (fun yx : Z * Q => ((lo <=? fst yx) && (fst yx <? lo + 3))%Z%bool)
         (map (pair y) ms)
  = [].
Proof.
  intros Hy. induction ms as [|m ms IH]; cbn [map filter fst]; [reflexivity|].
  destruct Hy as [Hy | Hy].
  - replace (lo <=? y)%Z with false by (symmetry; apply Z.leb_gt; lia).
    cbn [andb]. apply IH.
  - replace (y <? lo + 3)%Z with false by (symmetry; apply Z.ltb_ge; lia).
    rewrite andb_false_r. apply IH.
Qed.

Lemma filter_series_above (lo : Z) (years : list (list Q)) :
  forall y : Z, (lo + 3 <= y)%Z ->
  filter (fun yx : Z * Q => ((lo <=? fst yx) && (fst yx <? lo + 3))%Z%bool)
         (series_of y years)
  = [].
Proof.
  induction years as [|ms rest IH]; intros y Hy; cbn [series_of]; [reflexivity|].
  rewrite filter_app, filter_year_out by lia. rewrite IH by lia. reflexivity.
Qed.

(** The months that [get_worst_3_years] selects for the window that starts
    at position [k]. *)
Lemma window_months (years : list (list Q)) :
  forall (y0 : Z) (k : nat) (a b c : list Q),
  nth_error years k = Some a ->
  nth_error years (k + 1) = Some b ->
  nth_error years (k + 2) = Some c ->
  map snd (filter (fun yx : Z * Q =>
                     ((y0 + Z.of_nat k <=? fst yx)
                      && (fst yx <? y0 + Z.of_nat k + 3))%Z%bool)
                  (series_of y0 years))
  = a ++ b ++ c.
Proof.
  induction years as [|a0 rest IH]; intros y0 k a b c Ha Hb Hc.
  - destruct k; discriminate.
  - destruct k as [|k].
    + destruct rest as [|b0 [|c0 rest]]; try discriminate.
      cbn [nth_error Nat.add] in Ha, Hb, Hc.
      injection Ha as <-. injection Hb as <-. injection Hc as <-.
      cbn [series_of Z.of_nat]. rewrite !filter_app.
      rewrite !filter_year_in by lia.
      rewrite filter_series_above by lia.
      rewrite app_nil_r, !map_app, !map_map. cbn [snd].
      rewrite !map_id. reflexivity.
    + cbn [nth_error Nat.add] in Ha, Hb, Hc.
      cbn [series_of]. rewrite filter_app, filter_year_out by lia.
      cbn [app].
      replace (y0 + Z.of_nat (S k))%Z with (y0 + 1 + Z.of_nat k)%Z by lia.
      apply IH; assumption.
Qed.

(** C9. Applied to a series of monthly returns over consecutive calendar
    years in which one window of three consecutive years has a compounded
    return below that of every other window, [get_worst_3_years] returns the
    monthly returns of exactly those three years, the start year of that
    window and its compounded return. *)
Theorem worst_3_years_found (y0 : Z) (years : list (list Q)) (k : nat)
        (a b c : list Q) :
  Forall (fun ms => ms <> []) years ->
  nth_error years k = Some a ->
  nth_error years (k + 1) = Some b ->
  nth_error years (k + 2) = Some c ->
  (forall j w', j <> k -> window_return years j = Some w' ->
                compound [compound a; compound b; compound c] < w') ->
  get_worst_3_years (series_of y0 years)
  = Some (a ++ b ++ c, (y0 + Z.of_nat k)%Z,
          compound [compound a; compound b; compound c]).
Proof.
  intros Hne Ha Hb Hc Hmin. unfold get_worst_3_years, returns_by_year.
  rewrite groupby_year_series by exact Hne.
  rewrite (idxmin_rolling years y0 k (compound [compound a; compound b; compound c])).
  - replace (y0 + Z.of_nat k + 2 - 2)%Z with (y0 + Z.of_nat k)%Z by lia.
    rewrite (window_months years y0 k a b c Ha Hb Hc). reflexivity.
  - unfold window_return. rewrite Ha, Hb, Hc. reflexivity.
  - exact Hmin.
Qed.

Lemma worst_3_years_found_witness :
  get_worst_3_years
    (series_of 2000 [[1 # 10]; [- (1 # 10)]; [- (2 # 10)]; [- (1 # 10)]; [3 # 10]])
  = Some ([- (1 # 10); - (2 # 10); - (1 # 10)], 2001%Z,
          compound [compound [- (1 # 10)]; compound [- (2 # 10)]; compound [- (1 # 10)]]).
Proof.
  apply (worst_3_years_found 2000
           [[1 # 10]; [- (1 # 10)]; [- (2 # 10)]; [- (1 # 10)]; [3 # 10]] 1
           [- (1 # 10)] [- (2 # 10)] [- (1 # 10)]); try reflexivity.
  - repeat constructor; discriminate.
  - intros j w' Hj Hw.
    destruct j as [|[|[|[|[|j]]]]]; try (exfalso; apply Hj; reflexivity);
      unfold window_return in Hw; cbn [nth_error Nat.add] in Hw;
      try discriminate; try (destruct j; discriminate);
      injection Hw as <-; vm_compute; reflexivity.
Defined.

(** ** Runs that do not complete *)

Lemma handle_monthly_investment_zero_turnus (month : nat) (d : date) (s : State) :
  P.dynamik_turnus_monate (params s) = 0%Z -> (0 < month)%nat ->
  _handle_monthly_investment month d s = Raise ZeroDivisionError.
Proof.
  intros Hturnus Hmonth. unfold _handle_monthly_investment.
  replace (0 <? Z.of_nat month)%Z with true by (symmetry; apply Z.ltb_lt; lia).
  rewrite Hturnus. reflexivity.
Qed.

Lemma simuliere_monat_first_total (s : State) :
  returns_cover 1 s ->
  (1 <= List.length (monthly_inflation_rates s))%nat ->
  exists s' : State, _simuliere_monat 0 s = Ok s'.
Proof.
  intros Hret Hinfl. unfold _simuliere_monat.
  set (s0 := if (month_of 0 =? 1)%Z then reset_freistellungs_topf 0 s else s).
  assert (H0 : same_inputs s s0) by (unfold s0; cbn; repeat split).
  destruct H0 as (Hp0 & Hd0 & Hi0).
  assert (E1 : exists s1, _handle_monthly_investment 0 0 s0 = Ok s1).
  { unfold _handle_monthly_investment. cbn [Z.of_nat Z.ltb Z.compare bind].
    split_ifs; eexists; reflexivity. }
  destruct E1 as [s1 E1]. rewrite E1. cbn [bind].
  destruct (handle_monthly_investment_frame 0 0 s0 s1 E1) as [(Hp1 & Hd1 & Hi1) _].
  destruct (handle_costs_frame 0 0 s1) as ((Hp2 & Hd2 & Hi2) & _).
  assert (Er : exists r, monthly_return_val 0 (_handle_costs 0 0 s1) = Ok r).
  { unfold monthly_return_val. rewrite Hd2, Hd1, Hd0.
    destruct (dynamic_returns s) as [[|r0 rs]|]; eexists; reflexivity. }
  destruct Er as [r Er]. rewrite Er. cbn [bind].
  cbn [monthly_inflation_rates set_portfolio]. rewrite Hi2, Hi1, Hi0.
  destruct (monthly_inflation_rates s) as [|x xs]; [cbn in Hinfl; lia|].
  cbn [nth_error bind]. eexists. reflexivity.
Qed.

(** X1. A configuration whose escalation interval [dynamik_turnus_monate] is 0
    makes [run_simulation] raise ZeroDivisionError in the second month, by
    [month % 0], whenever the horizon has at least two months. *)
Theorem run_simulation_zero_turnus (root12 : Q -> Q) (s : State) :
  P.dynamik_turnus_monate (params s) = 0%Z ->
  (1 <= P.laufzeit (params s))%Z ->
  returns_cover 1 s ->
  (1 <= List.length (monthly_inflation_rates s))%nat ->
  run_simulation root12 s = Raise ZeroDivisionError.
Proof.
  intros Hturnus Hlauf Hret Hinfl. unfold run_simulation.
  destruct (initialisiere_simulation_inputs root12 s) as (Hd & Hi & Ht & Hl).
  rewrite Hl.
  destruct (Z.to_nat (P.laufzeit (params s) * 12)) as [|[|n]] eqn:En; try lia.
  cbn [seq run_months].
  destruct (simuliere_monat_first_total (_initialisiere_simulation root12 s))
    as [s1 E1].
  - unfold returns_cover in *. rewrite Hd. exact Hret.
  - rewrite Hi. exact Hinfl.
  - rewrite E1. cbn [bind].
    destruct (simuliere_monat_frame 0 _ s1 E1) as ((Hp & _) & _).
    unfold _simuliere_monat.
    rewrite handle_monthly_investment_zero_turnus; [reflexivity | | lia].
    destruct (month_of 1 =? 1)%Z; cbn [params reset_freistellungs_topf
                                        set_freistellungs_topf];
      rewrite Hp, Ht; exact Hturnus.
Qed.

Lemma run_simulation_zero_turnus_witness :
  run_simulation (fun _ => 1) (__init__ zero_turnus_params None (repeat 0 24))
  = Raise ZeroDivisionError.
Proof.
  apply run_simulation_zero_turnus; [reflexivity | cbn; lia | exact I | cbn; lia].
Defined.

Lemma run_months_app (l1 l2 : list nat) (s : State) :
  run_months (l1 ++ l2) s = do s1 <- run_months l1 s ;; run_months l2 s1.
Proof.
  revert s. induction l1 as [|m l1 IH]; intros s; cbn [app run_months bind];
    [reflexivity|].
  destruct (_simuliere_monat m s) as [s1|e]; cbn [bind]; [apply IH | reflexivity].
Qed.

Lemma simuliere_monat_short_returns (month : nat) (s : State) (r0 : Q) (rs : list Q) :
  P.dynamik_turnus_monate (params s) <> 0%Z ->
  dynamic_returns s = Some (r0 :: rs) ->
  (List.length (r0 :: rs) <= month)%nat ->
  _simuliere_monat month s = Raise IndexError.
Proof.
  intros Hturnus Hdyn Hlen. unfold _simuliere_monat.
  set (s0 := if (month_of month =? 1)%Z then reset_freistellungs_topf month s else s).
  assert (H0 : same_inputs s s0)
    by (unfold s0; destruct (month_of month =? 1)%Z; repeat split).
  destruct H0 as (Hp0 & Hd0 & Hi0).
  destruct (handle_monthly_investment_total month month s0) as [s1 E1];
    [rewrite Hp0; exact Hturnus|].
  rewrite E1. cbn [bind].
  destruct (handle_monthly_investment_frame month month s0 s1 E1) as [(Hp1 & Hd1 & Hi1) _].
  destruct (handle_costs_frame month month s1) as ((Hp2 & Hd2 & Hi2) & _).
  unfold monthly_return_val. rewrite Hd2, Hd1, Hd0, Hdyn.
  replace (nth_error (r0 :: rs) month) with (@None Q)
    by (symmetry; apply nth_error_None; exact Hlen).
  reflexivity.
Qed.

(** X2. When a return path is supplied that is shorter than the horizon,
    [run_simulation] raises IndexError in the first month that the path does
    not cover (the configuration being otherwise fit to run). *)
Theorem run_simulation_short_returns (root12 : Q -> Q) (s : State)
        (r0 : Q) (rs : list Q) :
  P.dynamik_turnus_monate (params s) <> 0%Z ->
  dynamic_returns s = Some (r0 :: rs) ->
  (List.length (r0 :: rs) < Z.to_nat (P.laufzeit (params s) * 12))%nat ->
  (List.length (r0 :: rs) <= List.length (monthly_inflation_rates s))%nat ->
  run_simulation root12 s = Raise IndexError.
Proof.
  intros Hturnus Hdyn Hshort Hinfl. unfold run_simulation.
  destruct (initialisiere_simulation_inputs root12 s) as (Hd & Hi & Ht & Hl).
  rewrite Hl.
  set (n := Z.to_nat (P.laufzeit (params s) * 12)) in *.
  set (L := List.length (r0 :: rs)) in *.
  replace n with (L + (n - L))%nat by lia.
  rewrite seq_app, run_months_app.
  destruct (run_months_total (seq 0 L) L (_initialisiere_simulation root12 s))
    as [s1 E1].
  - rewrite Ht. exact Hturnus.
  - unfold returns_cover. rewrite Hd, Hdyn. apply le_n.
  - rewrite Hi. exact Hinfl.
  - apply Forall_forall. intros m Hm. apply in_seq in Hm. lia.
  - rewrite E1. cbn [bind].
    destruct (run_months_frame _ _ _ E1) as (Hp1 & Hd1 & _).
    destruct (n - L)%nat as [|k] eqn:Ek; [lia|].
    cbn [seq run_months Nat.add].
    rewrite (simuliere_monat_short_returns L s1 r0 rs); [reflexivity | | |apply le_n].
    + rewrite Hp1, Ht. exact Hturnus.
    + rewrite Hd1, Hd. exact Hdyn.
Qed.

Lemma run_simulation_short_returns_witness :
  run_simulation (fun _ => 1) (__init__ depot_params (Some [0; 0; 0]) (repeat 0 24))
  = Raise IndexError.
Proof.
  apply (run_simulation_short_returns _ _ 0 [0; 0]);
    [cbn; discriminate | reflexivity | cbn; lia | cbn; lia].
Defined.

(** ** The ledger over a whole run *)

Lemma ledger_dated_mono (d d' : date) (pf : list Lot) :
  (d <= d')%nat -> ledger_dated d pf -> ledger_dated d' pf.
Proof.
  intros Hle (Hs & Hd). split; [exact Hs|].
  eapply Forall_impl; [|exact Hd]. intros x Hx. cbn beta in *. lia.
Qed.

Lemma run_months_dated (n : nat) :
  forall (a : nat) (s s' : State),
  ledger_dated a (portfolio s) ->
  run_months (seq a n) s = Ok s' ->
  ledger_dated (a + n) (portfolio s').
Proof.
  induction n as [|n IH]; intros a s s' Hd; cbn [seq run_months].
  - intros H. injection H as <-. rewrite Nat.add_0_r. exact Hd.
  - destruct (_simuliere_monat a s) as [s1|e] eqn:E; cbn [bind]; [|discriminate].
    intros Hrun.
    replace (a + S n)%nat with (S a + n)%nat by lia.
    apply (IH (S a) s1 s'); [|exact Hrun].
    apply (ledger_dated_mono a); [lia|].
    eapply simuliere_monat_dated; eassumption.
Qed.

Lemma finalisiere_simulation_portfolio (s : State) :
  portfolio (_finalisiere_simulation s) = portfolio s /\
  freistellungs_topf (_finalisiere_simulation s) = freistellungs_topf s.
Proof.
  unfold _finalisiere_simulation.
  destruct (Qlt_le_dec eps _); [|split; reflexivity].
  destruct (P.versicherung_modus (params s)).
  - destruct ((62 <=? _)%Z && (12 <=? _)%Z)%bool; split; reflexivity.
  - split; reflexivity.
Qed.

(** X3. After a completed run of a freshly constructed simulator the ledger is
    ordered by acquisition date, oldest lot first, and no lot is dated after
    the end of the horizon. *)
Theorem run_simulation_ledger_ordered (root12 : Q -> Q) (p : P.t)
        (dyn : option (list Q)) (draws : list Q) (s' : State) :
  run_simulation root12 (__init__ p dyn draws) = Ok s' ->
  ledger_dated (Z.to_nat (P.laufzeit p * 12)) (portfolio s').
Proof.
  unfold run_simulation.
  destruct (initialisiere_simulation_inputs root12 (__init__ p dyn draws))
    as (_ & _ & _ & Hl).
  rewrite Hl. cbn [params __init__].
  destruct (run_months _ _) as [s1|e] eqn:E; cbn [bind]; [|discriminate].
  intros H. injection H as <-.
  destruct (finalisiere_simulation_portfolio s1) as [-> _].
  apply (run_months_dated _ 0%nat
           (_initialisiere_simulation root12 (__init__ p dyn draws)) s1); [|exact E].
  unfold _initialisiere_simulation.
  cbn [params __init__ P.versicherung_modus P.set_derived].
  destruct (P.versicherung_modus p);
    match goal with |- context [Qlt_le_dec ?a ?b] => destruct (Qlt_le_dec a b) end;
    cbn; unfold ledger_dated, ledger_sorted; cbn; split; repeat constructor.
Qed.

Lemma run_simulation_ledger_ordered_witness :
  exists s' : State,
    run_simulation (fun _ => 1) (__init__ depot_params None (repeat 0 24)) = Ok s' /\
    ledger_dated 24 (portfolio s').
Proof.
  destruct (run_simulation_total (fun _ => 1)
              (__init__ depot_params None (repeat 0 24))) as [s' Hrun];
    [cbn; discriminate | exact I | cbn; lia |].
  exists s'. split; [exact Hrun|].
  exact (run_simulation_ledger_ordered _ _ _ _ _ Hrun).
Defined.

(** ** The tax of a tranche on the sibling paths *)

(** X4. The depot branch of [_handle_withdrawals] in [Gutachten.py] charges
    on every tranche the tax that the specification prescribes: the
    already-taxed amount consumed is taken off the taxable gain before the
    allowance and the rate are applied. *)
Theorem gutachten_sale_tax_as_stated (teilfreistellung full_tax_rate topf : Q)
        (entry : Lot) (sell_value : Q) :
  0 < value entry ->
  0 <= vorabpauschalen_bereits_versteuert entry * (sell_value / value entry) ->
  fst (fst (Gutachten.depot_sale_tax teilfreistellung full_tax_rate topf entry sell_value))
  == sale_tax_as_stated teilfreistellung full_tax_rate topf entry sell_value.
Proof.
  intros Hv Hvp. unfold Gutachten.depot_sale_tax, sale_tax_as_stated. cbn [fst].
  set (prop := sell_value / value entry) in *.
  assert (Hgain : (value entry - amount_invested entry) * prop
                  == sell_value - amount_invested entry * prop)
    by (unfold prop; apply sold_gain; exact Hv).
  assert (Hacc : Qmax 0 (vorabpauschalen_bereits_versteuert entry * prop)
                 == vorabpauschalen_bereits_versteuert entry * prop)
    by (apply Q.max_r; exact Hvp).
  rewrite Hgain, Hacc. reflexivity.
Qed.

Lemma gutachten_sale_tax_as_stated_witness :
  fst (fst (Gutachten.depot_sale_tax (3 # 10) (28625 # 100000) 1000
                                     (mkLot 0%nat 10000 20000 20000 2000) 12000))
  == 1145 # 2.
Proof.
  rewrite (gutachten_sale_tax_as_stated (3 # 10) (28625 # 100000) 1000
             (mkLot 0%nat 10000 20000 20000 2000) 12000);
    [vm_compute; reflexivity | vm_compute; reflexivity | vm_compute; discriminate].
Defined.

(** X5. A tranche sold by [_handle_rebalancing] is charged the tax that the
    specification prescribes, and that tax is never negative. *)
Theorem rebalancing_sale_tax_as_stated (entry : Lot) (remaining : Q)
        (acc : RebalAcc) (s : State) :
  0 < value entry ->
  0 <= vorabpauschalen_bereits_versteuert entry ->
  0 <= remaining ->
  0 <= P.full_tax_rate (params s) ->
  let acc' := snd (fst (rebalance_lot entry remaining acc s)) in
  let tax := total_steuer acc' - total_steuer acc in
  tax == sale_tax_as_stated (P.teilfreistellung (params s)) (P.full_tax_rate (params s))
                            (freistellungs_topf s) entry
                            (Qmin (value entry) remaining)
  /\ 0 <= tax.
Proof.
  intros Hv Hvp Hrem Hrate. cbv zeta. unfold rebalance_lot, sale_tax_as_stated.
  cbn [fst snd total_steuer].
  set (sell := Qmin (value entry) remaining).
  set (prop := sell / value entry).
  assert (Hsell : 0 <= sell) by (unfold sell; qmm).
  assert (Hprop : 0 <= prop)
    by (unfold prop; apply Qle_shift_div_l; [exact Hv | lra]).
  assert (Hacc0 : 0 <= vorabpauschalen_bereits_versteuert entry * prop)
    by (apply Qmult_le_0_compat; assumption).
  set (vp := vorabpauschalen_bereits_versteuert entry * prop) in *.
  set (sg := (sell - amount_invested entry * prop)
             * (1 - P.teilfreistellung (params s))).
  assert (Hacc : Qmax 0 vp == vp) by (apply Q.max_r; exact Hacc0).
  assert (Hafter : Qmax 0 (sg - Qmin vp sg) == Qmax 0 (sg - Qmax 0 vp)).
  { rewrite Hacc. qmm. }
  set (after := Qmax 0 (sg - Qmin vp sg)) in *.
  set (after' := Qmax 0 (sg - Qmax 0 vp)) in *.
  assert (Hfree : Qmin (freistellungs_topf s) after == Qmin (freistellungs_topf s) after')
    by (rewrite Hafter; reflexivity).
  set (free := Qmin (freistellungs_topf s) after) in *.
  set (free' := Qmin (freistellungs_topf s) after') in *.
  assert (Hx : 0 <= after - free) by (unfold free; qmm).
  assert (Hprod : 0 <= (after - free) * P.full_tax_rate (params s))
    by (apply Qmult_le_0_compat; assumption).
  assert (Hmax1 : Qmax 0 ((after - free) * P.full_tax_rate (params s))
                  == (after - free) * P.full_tax_rate (params s))
    by (apply Q.max_r; exact Hprod).
  assert (Hmax2 : Qmax 0 (after' - free') == after - free).
  { rewrite <- Hafter, <- Hfree. apply Q.max_r. exact Hx. }
  split.
  - rewrite Hmax2. lra.
  - lra.
Qed.

Lemma rebalancing_sale_tax_as_stated_witness :
  total_steuer (snd (fst (rebalance_lot (mkLot 0%nat 10000 20000 20000 2000) 12000
                                        empty_rebal_acc withdrawal_state)))
  - total_steuer empty_rebal_acc
  == 1145 # 2.
Proof.
  destruct (rebalancing_sale_tax_as_stated (mkLot 0%nat 10000 20000 20000 2000) 12000
              empty_rebal_acc withdrawal_state) as [H _];
    [vm_compute; reflexivity | vm_compute; discriminate | vm_compute; discriminate
    | vm_compute; discriminate | ].
  rewrite H. vm_compute. reflexivity.
Defined.

(** X6. In depot mode a tranche that [_handle_withdrawals] sells at a loss
    (its lot is worth no more than its cost basis) owes no tax and consumes
    no allowance. *)
Theorem withdrawal_at_a_loss (d : date) (entry : Lot) (remaining : Q)
        (acc : WithdrawAcc) (s : State) :
  P.versicherung_modus (params s) = false ->
  0 < value entry -> value entry <= amount_invested entry ->
  0 <= remaining ->
  0 <= vorabpauschalen_bereits_versteuert entry ->
  P.teilfreistellung (params s) <= 1 ->
  0 <= P.full_tax_rate (params s) ->
  0 <= freistellungs_topf s ->
  let r := withdraw_lot d entry remaining acc s in
  total_withdrawal_tax_this_year (snd (fst r)) == total_withdrawal_tax_this_year acc /\
  freistellungs_topf (snd r) == freistellungs_topf s.
Proof.
  intros Hvm Hv Hloss Hrem Hvp Htf Hrate Htopf. cbv zeta. unfold withdraw_lot.
  rewrite Hvm. cbn [fst snd total_withdrawal_tax_this_year freistellungs_topf
                    set_freistellungs_topf].
  set (sell := Qmin (value entry) remaining).
  set (anteil := sell / value entry).
  assert (Hsell : 0 <= sell) by (unfold sell; qmm).
  assert (Hanteil : 0 <= anteil)
    by (unfold anteil; apply Qle_shift_div_l; [exact Hv | lra]).
  assert (Hg : (value entry - amount_invested entry) * anteil <= 0) by nra.
  set (g := (value entry - amount_invested entry) * anteil) in *.
  assert (Hsg : g * (1 - P.teilfreistellung (params s)) <= 0) by nra.
  set (sg := g * (1 - P.teilfreistellung (params s))) in *.
  assert (Hva : 0 <= vorabpauschalen_bereits_versteuert entry * anteil)
    by (apply Qmult_le_0_compat; assumption).
  set (va := vorabpauschalen_bereits_versteuert entry * anteil) in *.
  assert (Hused : Qmin (freistellungs_topf s) (Qmax 0 (sg - va)) == 0) by qmm.
  set (used := Qmin (freistellungs_topf s) (Qmax 0 (sg - va))) in *.
  assert (Hprod : (sg - used) * P.full_tax_rate (params s) <= 0) by nra.
  assert (Hmax : Qmax 0 ((sg - used) * P.full_tax_rate (params s)) == 0)
    by (apply Q.max_l; exact Hprod).
  split; lra.
Qed.

Lemma withdrawal_at_a_loss_witness :
  total_withdrawal_tax_this_year
    (snd (fst (withdraw_lot 12 (mkLot 0%nat 10000 9000 9000 0) 5000
                            empty_withdraw_acc withdrawal_state)))
  == 0.
Proof.
  destruct (withdrawal_at_a_loss 12 (mkLot 0%nat 10000 9000 9000 0) 5000
              empty_withdraw_acc withdrawal_state) as [H _];
    [reflexivity | vm_compute; reflexivity | vm_compute; discriminate
    | vm_compute; discriminate | vm_compute; discriminate | vm_compute; discriminate
    | vm_compute; discriminate | vm_compute; discriminate | ].
  rewrite H. reflexivity.
Defined.

(** ** The log and the cash flows *)

Lemma same_but_books_refl (s : State) : same_but_books s s.
Proof. repeat split. Qed.

Lemma same_but_books_trans (s1 s2 s3 : State) :
  same_but_books s1 s2 -> same_but_books s2 s3 -> same_but_books s1 s3.
Proof.
  unfold same_but_books. intros (A1 & B1 & C1 & D1 & E1 & F1) (A2 & B2 & C2 & D2 & E2 & F2).
  split; [eapply same_inputs_trans; eassumption|].
  repeat split; congruence.
Qed.

Lemma same_flows_trans (s1 s2 s3 : State) :
  same_flows s1 s2 -> same_flows s2 s3 -> same_flows s1 s3.
Proof.
  unfold same_flows. intros (A1 & B1 & C1) (A2 & B2 & C2). repeat split; congruence.
Qed.

Lemma flows_aligned_same (s s' : State) :
  same_flows s s' -> flows_aligned s -> flows_aligned s'.
Proof.
  unfold same_flows, flows_aligned. intros (A & B & C) (H1 & H2).
  rewrite A, B, C. split; assumption.
Qed.

Lemma flows_aligned_push (d : date) (a r : Q) (s : State) :
  flows_aligned s -> flows_aligned (push_cashflow d a r s).
Proof.
  unfold flows_aligned. intros (H1 & H2). cbn [push_cashflow cashflows cashflow_dates
                                                real_cashflows].
  rewrite !length_app. cbn [List.length]. split; lia.
Qed.

Lemma handle_monthly_investment_books (month : nat) (d : date) (s s1 : State) :
  _handle_monthly_investment month d s = Ok s1 ->
  monatliche_kosten_logs s1 = monatliche_kosten_logs s /\
  rebalancing_log s1 = rebalancing_log s /\
  (flows_aligned s -> flows_aligned s1).
Proof.
  unfold _handle_monthly_investment, flows_aligned.
  destruct (0 <? Z.of_nat month)%Z; cbn [bind].
  - destruct (P.dynamik_turnus_monate (params s) =? 0)%Z; cbn [bind]; [discriminate|].
    destruct (Z.of_nat month mod P.dynamik_turnus_monate (params s) =? 0)%Z;
      cbn [bind]; split_ifs; intros H; injection H as <-;
      cbn; rewrite ?length_app; cbn [List.length];
      (split; [reflexivity|]); (split; [reflexivity|]); intros (H1 & H2); split; lia.
  - split_ifs; intros H; injection H as <-;
      cbn; rewrite ?length_app; cbn [List.length];
      (split; [reflexivity|]); (split; [reflexivity|]); intros (H1 & H2); split; lia.
Qed.

Lemma handle_costs_books (month : nat) (d : date) (s : State) :
  monatliche_kosten_logs (_handle_costs month d s) = monatliche_kosten_logs s /\
  rebalancing_log (_handle_costs month d s) = rebalancing_log s /\
  (flows_aligned s -> flows_aligned (_handle_costs month d s)).
Proof.
  unfold _handle_costs, flows_aligned.
  split_ifs; cbn; rewrite ?length_app; cbn [List.length];
    (split; [reflexivity|]); (split; [reflexivity|]); intros (H1 & H2); split; lia.
Qed.

Lemma vorabpauschale_books (d : date) (entry : Lot) (s : State) :
  same_but_books s (snd (vorabpauschale d entry s)) /\
  (flows_aligned s -> flows_aligned (snd (vorabpauschale d entry s))).
Proof.
  unfold vorabpauschale, flows_aligned.
  split_ifs; cbn; rewrite ?length_app; cbn [List.length];
    (split; [repeat split|]); intros (H1 & H2); split; lia.
Qed.

Lemma taxes_loop_books (d : date) (pf : list Lot) :
  forall s : State,
  same_but_books s (snd (taxes_loop d pf s)) /\
  (flows_aligned s -> flows_aligned (snd (taxes_loop d pf s))).
Proof.
  induction pf as [|entry rest IH]; intros s; cbn [taxes_loop].
  - cbn. split; [apply same_but_books_refl | exact (fun H => H)].
  - pose proof (vorabpauschale_books d entry s) as [Hb Hf].
    destruct (vorabpauschale d entry s) as [entry' s1]. cbn [snd] in *.
    specialize (IH s1). destruct (taxes_loop d rest s1) as [rest' s2].
    cbn [snd] in *. destruct IH as [Hb2 Hf2].
    split; [eapply same_but_books_trans; eassumption | auto].
Qed.

Lemma handle_taxes_books (d : date) (s : State) :
  same_but_books s (_handle_taxes d s) /\
  (flows_aligned s -> flows_aligned (_handle_taxes d s)).
Proof.
  unfold _handle_taxes.
  destruct (negb (P.versicherung_modus (params s)) && (month_of d =? 1)%Z)%bool.
  - pose proof (taxes_loop_books d (portfolio s) s) as H.
    destruct (taxes_loop d (portfolio s) s) as [pf s']. cbn [snd] in H.
    destruct H as [(A & B & C & D & E & F) Hf]. split; [|exact Hf].
    repeat split; try assumption; apply A.
  - split; [apply same_but_books_refl | exact (fun H => H)].
Qed.

(** The sale loops write only the allowance bucket and the counters. *)
Lemma rebalancing_loop_books (pf : list Lot) :
  forall (remaining : Q) (acc : RebalAcc) (s : State),
  let s' := snd (rebalancing_loop pf remaining acc s) in
  same_but_books s s' /\ same_flows s s' /\ portfolio s' = portfolio s.
Proof.
  induction pf as [|entry rest IH]; intros remaining acc s; cbn zeta;
    cbn [rebalancing_loop].
  - cbn. repeat split.
  - destruct (Qlt_le_dec eps remaining); [|cbn; repeat split].
    destruct (Qlt_le_dec 0 (value entry)); [|apply IH].
    assert (H1 : let s1 := snd (rebalance_lot entry remaining acc s) in
                 same_but_books s s1 /\ same_flows s s1 /\ portfolio s1 = portfolio s)
      by (unfold rebalance_lot; cbn; repeat split).
    cbv zeta in H1.
    destruct (rebalance_lot entry remaining acc s) as [[rem1 acc1] s1].
    cbn [snd] in H1. destruct H1 as (A & B & C).
    specialize (IH rem1 acc1 s1). cbv zeta in IH. destruct IH as (A2 & B2 & C2).
    split; [eapply same_but_books_trans; eassumption|].
    split; [eapply same_flows_trans; eassumption | congruence].
Qed.

Lemma withdrawal_loop_books (d : date) (pf : list Lot) :
  forall (remaining : Q) (acc : WithdrawAcc) (s : State),
  let s' := snd (withdrawal_loop d pf remaining acc s) in
  same_but_books s s' /\ same_flows s s' /\ portfolio s' = portfolio s.
Proof.
  induction pf as [|entry rest IH]; intros remaining acc s; cbn zeta;
    cbn [withdrawal_loop].
  - cbn. repeat split.
  - destruct (Qlt_le_dec eps remaining); [|cbn; repeat split].
    destruct (Qlt_le_dec 0 (value entry)); [|apply IH].
    assert (H1 : let s1 := snd (withdraw_lot d entry remaining acc s) in
                 same_but_books s s1 /\ same_flows s s1 /\ portfolio s1 = portfolio s).
    { unfold withdraw_lot.
      destruct (P.versicherung_modus (params s));
        [destruct (Qle_bool 62 _ && Qle_bool 12 _)%bool|]; cbn; repeat split. }
    cbv zeta in H1.
    destruct (withdraw_lot d entry remaining acc s) as [[rem1 acc1] s1].
    cbn [snd] in H1. destruct H1 as (A & B & C).
    specialize (IH rem1 acc1 s1). cbv zeta in IH. destruct IH as (A2 & B2 & C2).
    split; [eapply same_but_books_trans; eassumption|].
    split; [eapply same_flows_trans; eassumption | congruence].
Qed.

Lemma handle_rebalancing_books (d : date) (s : State) :
  let s' := _handle_rebalancing d s in
  monatliche_kosten_logs s' = monatliche_kosten_logs s /\
  (flows_aligned s -> flows_aligned s').
Proof.
  cbv zeta. unfold _handle_rebalancing.
  destruct (negb (P.versicherung_modus (params s)) && (month_of d =? 12)%Z
            && (if Qlt_le_dec 0 (P.rebalancing_rate (params s)) then true else false))%bool;
    [|split; [reflexivity | exact (fun H => H)]].
  destruct (Qlt_le_dec 0 (depotwert_of (portfolio s) * P.rebalancing_rate (params s)));
    [|split; [reflexivity | exact (fun H => H)]].
  pose proof (rebalancing_loop_books (portfolio s)
                (depotwert_of (portfolio s) * P.rebalancing_rate (params s))
                empty_rebal_acc s) as H.
  cbv zeta in H.
  destruct (rebalancing_loop (portfolio s)
              (depotwert_of (portfolio s) * P.rebalancing_rate (params s))
              empty_rebal_acc s) as [[rest acc] s1].
  cbn [snd] in H. destruct H as ((_ & _ & Hlog & _) & Hflows & _).
  destruct (Qlt_le_dec eps (total_netto acc));
    (split; [exact Hlog | intros Ha; eapply flows_aligned_same; [|exact Ha]]);
    destruct Hflows as (F1 & F2 & F3); repeat split; assumption.
Qed.

Lemma handle_withdrawals_books (month : nat) (d : date) (s : State) :
  let s' := _handle_withdrawals month d s in
  monatliche_kosten_logs s' = monatliche_kosten_logs s /\
  rebalancing_log s' = rebalancing_log s /\
  (flows_aligned s -> flows_aligned s').
Proof.
  cbv zeta. unfold _handle_withdrawals.
  destruct (Z.of_nat month <? P.beitragszahldauer (params s) * 12)%Z;
    [split; [reflexivity | split; [reflexivity | exact (fun Ha => Ha)]]|].
  destruct (Qlt_le_dec 0 (entnahmebetrag_jahr d (params s))); [|split; [reflexivity | split; [reflexivity | exact (fun Ha => Ha)]]].
  destruct (Qlt_le_dec 0 (entnahmebetrag_of d (params s))); [|split; [reflexivity | split; [reflexivity | exact (fun Ha => Ha)]]].
  destruct (Qlt_le_dec (depotwert_of (portfolio s)) (entnahmebetrag_of d (params s)));
    [split; [reflexivity | split; [reflexivity | exact (fun Ha => Ha)]]|].
  pose proof (withdrawal_loop_books d (portfolio s) (entnahmebetrag_of d (params s))
                empty_withdraw_acc s) as H.
  cbv zeta in H.
  destruct (withdrawal_loop d (portfolio s) (entnahmebetrag_of d (params s))
              empty_withdraw_acc s) as [[rest acc] s1].
  cbn [snd] in H. destruct H as ((_ & Hrl & Hlog & _) & (F1 & F2 & F3) & _).
  split; [exact Hlog|]. split; [exact Hrl|].
  unfold flows_aligned.
  cbn [cashflow push_cashflow charge set_portfolio cashflows cashflow_dates
       real_cashflows].
  rewrite F1, F2, F3, !length_app. cbn [List.length]. intros (H1 & H2). split; lia.
Qed.

Lemma depotwert_snapshot (pf : list Lot) : depotwert_of (snapshot pf) = depotwert_of pf.
Proof. unfold depotwert_of, snapshot. rewrite map_map. reflexivity. Qed.

(** A month appends one row to the log, dated with the month and holding
    the value of the ledger and the counters as the month leaves them. *)
Lemma simuliere_monat_books (month : nat) (s s' : State) :
  _simuliere_monat month s = Ok s' ->
  (exists row : LogRow,
      monatliche_kosten_logs s' = monatliche_kosten_logs s ++ [row] /\
      log_Datum row = month /\
      Depotwert row = depotwert_of (portfolio s') /\
      kum row = nominal s') /\
  (flows_aligned s -> flows_aligned s').
Proof.
  intros Hrun.
  destruct (simuliere_monat_steps month s s' Hrun) as (s1 & r & infl & H).
  cbv zeta in H. destruct H as (H1 & _ & _ & Hs').
  set (s0 := if (month_of month =? 1)%Z then reset_freistellungs_topf month s else s)
    in *.
  assert (L0 : monatliche_kosten_logs s0 = monatliche_kosten_logs s)
    by (unfold s0; destruct (month_of month =? 1)%Z; reflexivity).
  assert (A0 : flows_aligned s -> flows_aligned s0)
    by (unfold s0; destruct (month_of month =? 1)%Z; exact (fun Ha => Ha)).
  destruct (handle_monthly_investment_books month month s0 s1 H1) as (L1 & _ & A1).
  set (s2 := _handle_costs month month s1) in *.
  destruct (handle_costs_books month month s1) as (L2 & _ & A2). fold s2 in L2, A2.
  set (s4 := set_kumulierte_inflation_factor _ (set_portfolio (grow r (portfolio s2)) s2))
    in *.
  assert (L4 : monatliche_kosten_logs s4 = monatliche_kosten_logs s2) by reflexivity.
  assert (A4 : flows_aligned s2 -> flows_aligned s4) by exact (fun Ha => Ha).
  set (s5 := _handle_taxes month s4) in *.
  destruct (handle_taxes_books month s4) as ((_ & _ & L5 & _) & A5). fold s5 in L5, A5.
  set (s6 := _handle_rebalancing month s5) in *.
  pose proof (handle_rebalancing_books month s5) as H6. cbv zeta in H6.
  fold s6 in H6. destruct H6 as (L6 & A6).
  set (s7 := _handle_withdrawals month month s6) in *.
  pose proof (handle_withdrawals_books month month s6) as H7. cbv zeta in H7.
  fold s7 in H7. destruct H7 as (L7 & _ & A7).
  split.
  - exists (log_row month s7). subst s'.
    destruct (month_of month =? 12)%Z;
      cbn [monatliche_kosten_logs set_portfolio log_month log_row log_Datum Depotwert
           kum portfolio nominal];
      rewrite ?depotwert_snapshot, L7, L6, L5, L4, L2, L1, L0; repeat split.
  - intros Ha. subst s'.
    assert (A8 : flows_aligned s7) by auto 10.
    destruct (month_of month =? 12)%Z; exact A8.
Qed.

Lemma run_months_books (n : nat) :
  forall (a : nat) (s s' : State),
  run_months (seq a n) s = Ok s' ->
  (exists rows : list LogRow,
      monatliche_kosten_logs s' = monatliche_kosten_logs s ++ rows /\
      map log_Datum rows = seq a n) /\
  (flows_aligned s -> flows_aligned s').
Proof.
  induction n as [|n IH]; intros a s s'; cbn [seq run_months].
  - intros H. injection H as <-. split; [|exact (fun Ha => Ha)].
    exists []. rewrite app_nil_r. split; reflexivity.
  - destruct (_simuliere_monat a s) as [s1|e] eqn:E; cbn [bind]; [|discriminate].
    intros Hrun.
    destruct (simuliere_monat_books a s s1 E) as ((row & Hlog & Hdate & _) & Ha1).
    destruct (IH (S a) s1 s' Hrun) as ((rows & Hlogs & Hdates) & Ha2).
    split; [|auto].
    exists (row :: rows). rewrite Hlogs, Hlog, <- app_assoc. cbn [app map].
    rewrite Hdate, Hdates. split; reflexivity.
Qed.

(** X7. A completed run of a freshly constructed simulator leaves one log row
    per simulated month, in order, followed by one final row dated at the end
    of the horizon, and its three cash-flow lists (amounts, dates, deflated
    amounts) have the same length. *)
Theorem run_simulation_log_and_flows (root12 : Q -> Q) (p : P.t)
        (dyn : option (list Q)) (draws : list Q) (s' : State) :
  run_simulation root12 (__init__ p dyn draws) = Ok s' ->
  let n := Z.to_nat (P.laufzeit p * 12) in
  map log_Datum (monatliche_kosten_logs s') = seq 0 (S n) /\
  List.length (cashflow_dates s') = List.length (cashflows s') /\
  List.length (real_cashflows s') = List.length (cashflows s').
Proof.
  unfold run_simulation.
  destruct (initialisiere_simulation_inputs root12 (__init__ p dyn draws))
    as (_ & _ & _ & Hl).
  rewrite Hl. cbn [params __init__].
  destruct (run_months _ _) as [s1|e] eqn:E; cbn [bind]; [|discriminate].
  intros H. injection H as <-. cbv zeta.
  destruct (run_months_books _ _ _ _ E) as ((rows & Hlogs & Hdates) & Ha).
  assert (Hinit : monatliche_kosten_logs
                    (_initialisiere_simulation root12 (__init__ p dyn draws)) = []
                  /\ flows_aligned
                       (_initialisiere_simulation root12 (__init__ p dyn draws))).
  { unfold _initialisiere_simulation, flows_aligned.
    cbn [params __init__ P.versicherung_modus P.set_derived].
    destruct (P.versicherung_modus p);
      match goal with |- context [Qlt_le_dec ?a ?b] => destruct (Qlt_le_dec a b) end;
      cbn; repeat split. }
  destruct Hinit as (Hl0 & Ha0). rewrite Hl0 in Hlogs. cbn [app] in Hlogs.
  specialize (Ha Ha0).
  destruct (finalisiere_simulation_frame s1) as (Hp & _).
  destruct (run_months_frame _ _ _ E) as (Hp1 & _).
  assert (Hend : end_date (params s1) = Z.to_nat (P.laufzeit p * 12)).
  { unfold end_date. rewrite Hp1, Hl. reflexivity. }
  assert (Hfin : monatliche_kosten_logs (_finalisiere_simulation s1)
                 = monatliche_kosten_logs s1 ++ [log_row (end_date (params s1)) s1]
                 /\ flows_aligned (_finalisiere_simulation s1)).
  { unfold _finalisiere_simulation, flows_aligned in *.
    destruct Ha as (Ha1 & Ha2).
    destruct (Qlt_le_dec eps _); [|cbn; repeat split; assumption].
    destruct (P.versicherung_modus (params s1));
      [destruct ((62 <=? _)%Z && (12 <=? _)%Z)%bool|];
      cbn; rewrite !length_app; cbn [List.length]; repeat split; lia. }
  destruct Hfin as (Hlf & Haf). rewrite Hlf, Hlogs, map_app, Hdates.
  cbn [map log_row log_Datum]. rewrite Hend.
  split; [rewrite seq_S; reflexivity | exact Haf].
Qed.

Lemma run_simulation_log_and_flows_witness :
  exists s' : State,
    run_simulation (fun _ => 1) (__init__ depot_params None (repeat 0 24)) = Ok s' /\
    map log_Datum (monatliche_kosten_logs s') = seq 0 25.
Proof.
  destruct (run_simulation_total (fun _ => 1)
              (__init__ depot_params None (repeat 0 24))) as [s' Hrun];
    [cbn; discriminate | exact I | cbn; lia |].
  exists s'. split; [exact Hrun|].
  exact (proj1 (run_simulation_log_and_flows _ _ _ _ _ Hrun)).
Defined.

(** ** The withdrawal plan *)

Lemma plan_lookup_keep (plan : list (Z * Q)) (wy k : Z) (v : Q) :
  (forall k' v', In (k', v') plan -> (k' <= wy)%Z -> (k' < k)%Z) ->
  plan_lookup plan wy (Some (k, v)) = v.
Proof.
  induction plan as [|[k1 v1] rest IH]; intros Hlow; cbn [plan_lookup]; [reflexivity|].
  destruct (k1 <=? wy)%Z eqn:E1; cbn [andb].
  - assert (k1 < k)%Z
      by (apply (Hlow k1 v1); [left; reflexivity | apply Z.leb_le; exact E1]).
    replace (k <=? k1)%Z with false by (symmetry; apply Z.leb_gt; lia).
    apply IH. intros k' v' Hin. apply (Hlow k' v'). right. exact Hin.
  - apply IH. intros k' v' Hin. apply (Hlow k' v'). right. exact Hin.
Qed.

Lemma plan_lookup_latest_from (plan : list (Z * Q)) (wy k : Z) (v : Q) :
  forall best : option (Z * Q),
  NoDup (map fst plan) ->
  In (k, v) plan ->
  (k <= wy)%Z ->
  (forall k' v', In (k', v') plan -> (k' <= wy)%Z -> (k' <= k)%Z) ->
  match best with Some (kb, _) => (kb < k)%Z | None => True end ->
  plan_lookup plan wy best = v.
Proof.
  induction plan as [|[k1 v1] rest IH]; intros best Hnd Hin Hk Hmax Hbest;
    [destruct Hin|].
  cbn [map fst] in Hnd. apply NoDup_cons_iff in Hnd. destruct Hnd as [Hfresh Hnd].
  cbn [plan_lookup].
  destruct Hin as [Heq | Hin].
  - injection Heq as -> ->.
    replace (k <=? wy)%Z with true by (symmetry; apply Z.leb_le; exact Hk).
    assert (Hbetter : match best with Some (k0, _) => (k0 <=? k)%Z | None => true end
                      = true).
    { destruct best as [[kb vb]|]; [apply Z.leb_le; lia | reflexivity]. }
    rewrite Hbetter. cbn [andb].
    apply plan_lookup_keep. intros k' v' Hin' Hle.
    assert (k' <= k)%Z by (apply (Hmax k' v'); [right; exact Hin' | exact Hle]).
    assert (k' <> k).
    { intros ->. apply Hfresh. apply (in_map fst) in Hin'. exact Hin'. }
    lia.
  - assert (Hne : k1 <> k).
    { intros ->. apply Hfresh. apply (in_map fst) in Hin. exact Hin. }
    assert (Hrest : forall k' v', In (k', v') rest -> (k' <= wy)%Z -> (k' <= k)%Z)
      by (intros k' v' Hin'; apply (Hmax k' v'); right; exact Hin').
    destruct ((k1 <=? wy)%Z &&
              match best with Some (k0, _) => (k0 <=? k1)%Z | None => true end)%bool
      eqn:E.
    + apply andb_prop in E. destruct E as [E1 _]. apply Z.leb_le in E1.
      apply IH; try assumption.
      assert (k1 <= k)%Z by (apply (Hmax k1 v1); [left; reflexivity | exact E1]).
      lia.
    + apply IH; assumption.
Qed.

(** X8. With an [entnahme_plan] (a dict, so without duplicate years) the yearly
    amount that [_handle_withdrawals] looks up is that of the latest plan
    year not after the current withdrawal year. *)
Theorem plan_lookup_latest (plan : list (Z * Q)) (wy k : Z) (v : Q) :
  NoDup (map fst plan) ->
  In (k, v) plan ->
  (k <= wy)%Z ->
  (forall k' v', In (k', v') plan -> (k' <= wy)%Z -> (k' <= k)%Z) ->
  plan_lookup plan wy None = v.
Proof.
  intros Hnd Hin Hk Hmax.
  apply (plan_lookup_latest_from plan wy k v None); try assumption. exact I.
Qed.

Lemma plan_lookup_latest_witness :
  plan_lookup [(1%Z, 12000); (6%Z, 18000); (11%Z, 24000)] 7 None = 18000.
Proof.
  apply (plan_lookup_latest [(1%Z, 12000); (6%Z, 18000); (11%Z, 24000)] 7 6 18000).
  - cbn. repeat constructor; cbn; intuition lia.
  - right. left. reflexivity.
  - lia.
  - intros k' v' [H | [H | [H | []]]] Hle; injection H as <- _; lia.
Defined.

Lemma plan_lookup_none (plan : list (Z * Q)) (wy : Z) :
  Forall (fun kv => (wy < fst kv)%Z) plan -> plan_lookup plan wy None = 0.
Proof.
  induction 1 as [|[k v] rest Hk _ IH]; cbn [plan_lookup]; [reflexivity|].
  cbn [fst] in Hk.
  replace (k <=? wy)%Z with false by (symmetry; apply Z.leb_gt; exact Hk).
  cbn [andb]. exact IH.
Qed.

(** X9. A withdrawal plan that is not empty takes precedence over
    [annual_withdrawal]: as long as every plan year lies after the current
    withdrawal year, [_handle_withdrawals] withdraws nothing and leaves the
    simulator as it is, whatever [annual_withdrawal] holds. *)
Theorem plan_not_started (month : nat) (current_date : date) (s : State) :
  P.entnahme_plan (params s) <> [] ->
  Forall (fun kv => (years_since_start current_date
                     - P.beitragszahldauer (params s) + 1 < fst kv)%Z)
         (P.entnahme_plan (params s)) ->
  _handle_withdrawals month current_date s = s.
Proof.
  intros Hne Hall. unfold _handle_withdrawals.
  destruct (Z.of_nat month <? P.beitragszahldauer (params s) * 12)%Z; [reflexivity|].
  assert (Hj : entnahmebetrag_jahr current_date (params s) = 0).
  { unfold entnahmebetrag_jahr.
    destruct (P.entnahme_plan (params s)) as [|kv rest] eqn:E; [contradiction|].
    apply plan_lookup_none. exact Hall. }
  rewrite Hj. destruct (Qlt_le_dec 0 0) as [Hc | _]; [lra | reflexivity].
Qed.

Lemma plan_not_started_witness :
  _handle_withdrawals 12 12 late_plan_state = late_plan_state /\
  P.annual_withdrawal (params late_plan_state) == 12000.
Proof.
  split; [|reflexivity].
  apply (plan_not_started 12 12 late_plan_state).
  - cbn. discriminate.
  - cbn. repeat constructor.
Defined.

(** ** Fees: what is deducted and what is recorded *)

(** A proportional deduction takes the same share from the total as from
    every lot. *)
Lemma depotwert_deduct_proportional (x depotwert : Q) (pf : list Lot) :
  depotwert_of (deduct_proportional x depotwert pf)
  == depotwert_of pf - x * (depotwert_of pf / depotwert).
Proof.
  unfold depotwert_of, deduct_proportional.
  induction pf as [|e pf IH]; cbn [map qsum fold_right value set_value].
  - unfold Qdiv. ring.
  - fold (qsum (map value pf)).
    fold (qsum (map value
                    (map (fun e0 => set_value (value e0 - x * (value e0 / depotwert)) e0)
                         pf))).
    rewrite IH. unfold Qdiv. ring.
Qed.

(** X10. Proportional deduction conserves value: deducting [x] from a ledger in
    proportion to its lots, against its own total, lowers the total by
    exactly [x]. *)
Theorem deduct_proportional_conservation (x : Q) (pf : list Lot) :
  0 < depotwert_of pf ->
  depotwert_of (deduct_proportional x (depotwert_of pf) pf) == depotwert_of pf - x.
Proof.
  intros HD. rewrite depotwert_deduct_proportional. field. lra.
Qed.

Lemma deduct_proportional_conservation_witness :
  depotwert_of (deduct_proportional 45 (depotwert_of (portfolio depot_ready))
                                    (portfolio depot_ready))
  == 9935.
Proof.
  rewrite (deduct_proportional_conservation 45 (portfolio depot_ready));
    vm_compute; reflexivity.
Defined.

(** X11. In depot mode [_handle_costs] takes from the ledger exactly the
    expense-ratio and service fees it records in every month without a flat
    fee.  In a January with a flat fee [stueckkosten] it takes the flat fee
    first and then the proportional fees against the total from before the
    flat fee, so that the ledger loses
    [stueckkosten * (ter + serviceentgelt) / 12] less than the counters
    record. *)
Theorem handle_costs_depot (month : nat) (current_date : date) (s : State) :
  P.versicherung_modus (params s) = false ->
  0 < depotwert_of (portfolio s) ->
  let p := params s in
  let s' := _handle_costs month current_date s in
  let taken := depotwert_of (portfolio s) - depotwert_of (portfolio s') in
  let flat := stueckkosten_summe (nominal s') - stueckkosten_summe (nominal s) in
  let proportional :=
    (ter_summe (nominal s') - ter_summe (nominal s))
    + (serviceentgelt_summe (nominal s') - serviceentgelt_summe (nominal s)) in
  proportional == depotwert_of (portfolio s) * (P.ter p + P.serviceentgelt p) / 12 /\
  (month_of current_date <> 1%Z \/ P.stueckkosten p <= 0 ->
   flat == 0 /\ taken == proportional) /\
  (month_of current_date = 1%Z -> 0 < P.stueckkosten p ->
   flat == P.stueckkosten p /\
   taken == flat + proportional
            - P.stueckkosten p * (P.ter p + P.serviceentgelt p) / 12).
Proof.
  intros Hvm HD. cbv zeta. unfold _handle_costs. rewrite Hvm. cbn [negb andb].
  set (D := depotwert_of (portfolio s)) in *.
  destruct (Qlt_le_dec 0 D) as [_ | Hc]; [|lra].
  destruct (nominal s) as [aa ra sk ab vw gk te se en tx wt] eqn:En.
  destruct (month_of current_date =? 1)%Z eqn:Em.
  - apply Z.eqb_eq in Em.
    destruct (Qlt_le_dec 0 (P.stueckkosten (params s))) as [Hsk | Hsk];
      cbn [portfolio set_portfolio charge cashflow push_cashflow nominal params];
      rewrite ?En;
      cbn [add_to stueckkosten_summe ter_summe serviceentgelt_summe];
      rewrite ?depotwert_deduct_proportional; fold D.
    + split; [field|]. split; [intros [Hn | Hn]; [contradiction | lra]|].
      intros _ _. split; [ring|]. field. lra.
    + split; [field|]. split; [|intros _ Hn; lra].
      intros _. split; [ring|]. field. lra.
  - apply Z.eqb_neq in Em.
    cbn [portfolio set_portfolio charge cashflow push_cashflow nominal params];
      rewrite ?En;
      cbn [add_to stueckkosten_summe ter_summe serviceentgelt_summe];
      rewrite ?depotwert_deduct_proportional; fold D.
    split; [field|]. split; [|intros Hn; contradiction].
    intros _. split; [ring|]. field. lra.
Qed.

Lemma handle_costs_depot_witness :
  depotwert_of (portfolio depot_ready)
  - depotwert_of (portfolio (_handle_costs 0 0 depot_ready))
  == 45 + 9980 * (164 # 10000) / 12 - 45 * (164 # 10000) / 12.
Proof.
  destruct (handle_costs_depot 0 0 depot_ready) as (Hprop & _ & Hjan);
    [reflexivity | vm_compute; reflexivity |].
  destruct Hjan as [Hflat Htaken]; [reflexivity | vm_compute; reflexivity |].
  rewrite Htaken, Hflat, Hprop. vm_compute. reflexivity.
Defined.

(** ** The worst window without the uniqueness assumption *)

Lemma idxmin_least (l : list (Z * Q)) :
  forall (y : Z) (v : Q),
  MonteCarlo.idxmin l = Some (y, v) ->
  forall y' v', In (y', v') l -> v <= v'.
Proof.
  induction l as [|[y0 v0] l IH]; intros y v; cbn [MonteCarlo.idxmin]; [discriminate|].
  destruct (MonteCarlo.idxmin l) as [[y1 v1]|] eqn:E.
  - specialize (IH y1 v1 eq_refl).
    destruct (Qlt_le_dec v1 v0) as [Hlt | Hle]; intros H; injection H as <- <-;
      intros y' v' [Heq | Hin].
    + injection Heq as _ <-. lra.
    + apply (IH y' v' Hin).
    + injection Heq as _ <-. lra.
    + pose proof (IH y' v' Hin). lra.
  - intros H; injection H as <- <-. intros y' v' [Heq | Hin].
    + injection Heq as _ <-. lra.
    + destruct l as [|[y2 v2] l]; [destruct Hin|].
      cbn [MonteCarlo.idxmin] in E.
      destruct (MonteCarlo.idxmin l) as [[y3 v3]|];
        [destruct (Qlt_le_dec v3 v2)|]; discriminate.
Qed.

(** The rolling series holds the return of every window, under the label of
    the window's last year. *)
Lemma rolling_returns_windows (years : list (list Q)) :
  forall (y0 y : Z) (v : Q),
  In (y, v) (MonteCarlo.rolling_returns
               (map (fun g => (fst g, MonteCarlo.compound (snd g)))
                    (labelled y0 years)))
  <-> exists j : nat, window_return years j = Some v /\ y = (y0 + Z.of_nat j + 2)%Z.
Proof.
  induction years as [|a rest IH]; intros y0 y v.
  - cbn. split; [intros [] | intros (j & Hj & _); destruct j; discriminate].
  - destruct rest as [|b [|c rest]].
    + cbn. split; [intros [] | intros (j & Hj & _)].
      destruct j as [|[|j]]; discriminate.
    + cbn. split; [intros [] | intros (j & Hj & _)].
      destruct j as [|[|[|j]]]; discriminate.
    + cbn [labelled map MonteCarlo.rolling_returns fst snd].
      specialize (IH (y0 + 1)%Z y v). cbn [labelled map fst snd] in IH.
      split.
      * intros [Heq | Hin].
        -- injection Heq as <- <-. exists 0%nat. split; [reflexivity | lia].
        -- apply IH in Hin. destruct Hin as (j & Hj & Hy).
           exists (S j). rewrite window_return_tail. split; [exact Hj | lia].
      * intros (j & Hj & Hy). destruct j as [|j].
        -- left. unfold window_return in Hj. cbn [nth_error Nat.add] in Hj.
           injection Hj as <-. f_equal. lia.
        -- right. apply IH. exists j. rewrite window_return_tail in Hj.
           split; [exact Hj | lia].
Qed.

(** X12. On a series over consecutive calendar years, [get_worst_3_years] has a
    result exactly when the series covers at least three years; the result
    is then a window of three consecutive years of the series - its start
    year, its compounded return and the monthly returns of its three
    years - whose compounded return is not above that of any other
    window. *)
Theorem worst_3_years_minimal (y0 : Z) (years : list (list Q)) :
  Forall (fun ms => ms <> []) years ->
  ((3 <= List.length years)%nat <->
   exists res, MonteCarlo.get_worst_3_years (series_of y0 years) = Some res) /\
  (forall (ms : list Q) (y : Z) (w : Q),
      MonteCarlo.get_worst_3_years (series_of y0 years) = Some (ms, y, w) ->
      (exists (k : nat) (a b c : list Q),
          y = (y0 + Z.of_nat k)%Z /\
          nth_error years k = Some a /\
          nth_error years (k + 1) = Some b /\
          nth_error years (k + 2) = Some c /\
          ms = a ++ b ++ c /\
          window_return years k = Some w) /\
      (forall j w', window_return years j = Some w' -> w <= w')).
Proof.
  intros Hne. unfold MonteCarlo.get_worst_3_years, MonteCarlo.returns_by_year.
  rewrite groupby_year_series by exact Hne.
  set (roll := MonteCarlo.rolling_returns
                 (map (fun g => (fst g, MonteCarlo.compound (snd g)))
                      (labelled y0 years))).
  split.
  - split.
    + intros Hlen.
      destruct years as [|a [|b [|c rest]]]; cbn [List.length] in Hlen; try lia.
      unfold roll. cbn [labelled map MonteCarlo.rolling_returns fst snd
                        MonteCarlo.idxmin].
      destruct (MonteCarlo.idxmin _) as [[y1 v1]|];
        [destruct (Qlt_le_dec v1 _)|]; eexists; reflexivity.
    + intros [res Hres].
      destruct years as [|a [|b [|c rest]]]; cbn [List.length]; try lia;
        unfold roll in Hres; cbn in Hres; discriminate.
  - intros ms y w Hres.
    destruct (MonteCarlo.idxmin roll) as [[y1 w1]|] eqn:E; [|discriminate].
    injection Hres as <- <- <-.
    pose proof (idxmin_in roll y1 w1 E) as Hin.
    apply rolling_returns_windows in Hin. destruct Hin as (k & Hk & Hy).
    split.
    + unfold window_return in Hk.
      destruct (nth_error years k) as [a|] eqn:Ea; [|discriminate].
      destruct (nth_error years (k + 1)) as [b|] eqn:Eb; [|discriminate].
      destruct (nth_error years (k + 2)) as [c|] eqn:Ec; [|discriminate].
      exists k, a, b, c.
      replace (y1 - 2)%Z with (y0 + Z.of_nat k)%Z by lia.
      rewrite (window_months years y0 k a b c Ea Eb Ec).
      repeat split; try assumption; try reflexivity.
      unfold window_return. rewrite Ea, Eb, Ec. exact Hk.
    + intros j w' Hj.
      apply (idxmin_least roll y1 w1 E (y0 + Z.of_nat j + 2)%Z w').
      apply rolling_returns_windows. exists j. split; [exact Hj | reflexivity].
Qed.

Lemma worst_3_years_minimal_witness :
  exists res,
    MonteCarlo.get_worst_3_years
      (series_of 2000 [[1 # 10]; [- (1 # 10)]; [- (2 # 10)]]) = Some res.
Proof.
  apply (worst_3_years_minimal 2000 [[1 # 10]; [- (1 # 10)]; [- (2 # 10)]]).
  - repeat constructor; discriminate.
  - cbn. lia.
Defined.

(** ** Withdrawals: what is sold and what is paid out *)

Lemma withdraw_lot_spec (d : date) (entry : Lot) (remaining : Q)
      (acc : WithdrawAcc) (s : State) :
  let r := withdraw_lot d entry remaining acc s in
  let acc' := snd (fst r) in
  exists sale : Sale,
    wd_sold acc' = wd_sold acc ++ [sale] /\
    sale_value sale = Qmin (value entry) remaining /\
    fst (fst r) = remaining - sale_value sale /\
    netto_entnahme_summe acc'
    = netto_entnahme_summe acc
      + (sale_value sale - sale_steuer sale - sale_abschlag sale) /\
    total_withdrawal_tax_this_year acc'
    = total_withdrawal_tax_this_year acc + sale_steuer sale /\
    sale_abschlag sale = sale_value sale * P.ruecknahmeabschlag (params s) /\
    nominal (snd r) = nominal s /\
    params (snd r) = params s.
Proof.
  cbv zeta. unfold withdraw_lot.
  destruct (P.versicherung_modus (params s));
    [destruct (Qle_bool 62 _ && Qle_bool 12 _)%bool|];
    cbn [fst snd wd_sold netto_entnahme_summe total_withdrawal_tax_this_year];
    eexists; repeat split; reflexivity.
Qed.

Lemma withdrawal_loop_totals (d : date) (pf : list Lot) :
  forall (remaining : Q) (acc : WithdrawAcc) (s : State),
  let r := withdrawal_loop d pf remaining acc s in
  let acc' := snd (fst r) in
  exists sales : list Sale,
    wd_sold acc' = wd_sold acc ++ sales /\
    netto_entnahme_summe acc'
    == netto_entnahme_summe acc
       + (qsum (map sale_value sales) - qsum (map sale_steuer sales)
          - qsum (map sale_value sales) * P.ruecknahmeabschlag (params s)) /\
    total_withdrawal_tax_this_year acc'
    == total_withdrawal_tax_this_year acc + qsum (map sale_steuer sales) /\
    nominal (snd r) = nominal s /\
    params (snd r) = params s /\
    0 <= qsum (map sale_value sales) /\
    (0 <= remaining -> qsum (map sale_value sales) <= remaining) /\
    (remaining - qsum (map sale_value sales) <= eps \/
     depotwert_of pf <= qsum (map sale_value sales)).
Proof.
  induction pf as [|entry rest IH]; intros remaining acc s; cbn zeta.
  - exists []. cbn. rewrite app_nil_r.
    repeat split; try reflexivity; try lra.
  - cbn [withdrawal_loop].
    destruct (Qlt_le_dec eps remaining) as [Hrem | Hrem].
    2:{ exists []. cbn [fst snd map qsum fold_right]. rewrite app_nil_r.
        repeat split; try reflexivity; try lra. }
    assert (Hdw : depotwert_of (entry :: rest) == value entry + depotwert_of rest)
      by reflexivity.
    destruct (Qlt_le_dec 0 (value entry)) as [Hv | Hv].
    + pose proof (withdraw_lot_spec d entry remaining acc s) as H1.
      cbv zeta in H1.
      destruct (withdraw_lot d entry remaining acc s) as [[rem1 acc1] s1].
      cbn [fst snd] in H1.
      destruct H1 as (sl & Hsold & Hval & Hrem1 & Hn1 & Ht1 & Hab & Hnom & Hp).
      specialize (IH rem1 acc1 s1). cbv zeta in IH.
      destruct IH as (sales & Hs2 & Hn2 & Ht2 & Hnom2 & Hp2 & Hpos2 & Hle2 & Hend2).
      exists (sl :: sales).
      rewrite Hs2, Hsold, <- app_assoc. cbn [app map qsum fold_right].
      fold (qsum (map sale_value sales)). fold (qsum (map sale_steuer sales)).
      rewrite Hp in Hn2.
      assert (Hmin0 : sale_value sl <= remaining)
        by (rewrite Hval; apply Q.le_min_r).
      assert (Hminv : sale_value sl <= value entry)
        by (rewrite Hval; apply Q.le_min_l).
      assert (Hminp : 0 < sale_value sl)
        by (rewrite Hval; unfold eps in Hrem; qmm).
      assert (Hrem1' : rem1 == remaining - sale_value sl)
        by (rewrite Hrem1; reflexivity).
      assert (Hrem1pos : 0 <= rem1) by lra.
      specialize (Hle2 Hrem1pos).
      split; [reflexivity|].
      split; [rewrite Hn2, Hn1, Hab; ring|].
      split; [rewrite Ht2, Ht1; ring|].
      split; [congruence|]. split; [congruence|].
      split; [lra|]. split; [intros _; lra|].
      destruct (Qlt_le_dec remaining (value entry)) as [Hpart | Hfull].
      * left. assert (sale_value sl == remaining)
          by (rewrite Hval; apply Q.min_r; lra).
        unfold eps. lra.
      * assert (sale_value sl == value entry)
          by (rewrite Hval; apply Q.min_l; exact Hfull).
        destruct Hend2 as [Hend2 | Hend2]; [left | right]; lra.
    + specialize (IH remaining acc s). cbv zeta in IH.
      destruct IH as (sales & Hs2 & Hn2 & Ht2 & Hnom2 & Hp2 & Hpos2 & Hle2 & Hend2).
      exists sales. repeat split; try assumption.
      destruct Hend2 as [Hend2 | Hend2]; [left | right]; lra.
Qed.

(** X13. When a withdrawal takes place in depot or insurance mode, the
    tranches sold add up to the amount due, short of it by at most the loop
    threshold 1e-9; the cash flow recorded and the increase of the
    cumulative withdrawals are the amount sold minus the taxes of the
    tranches minus the exit load on the amount sold; both tax counters grow
    by the taxes of the tranches, and the exit-load counter grows by the
    exit load on the amount due. *)
Theorem withdrawal_conservation (month : nat) (current_date : date) (s : State) :
  (P.beitragszahldauer (params s) * 12 <= Z.of_nat month)%Z ->
  0 < entnahmebetrag_jahr current_date (params s) ->
  0 < entnahmebetrag_of current_date (params s) ->
  entnahmebetrag_of current_date (params s) <= depotwert_of (portfolio s) ->
  let due := entnahmebetrag_of current_date (params s) in
  let r := withdrawal_loop current_date (portfolio s) due empty_withdraw_acc s in
  let sales := wd_sold (snd (fst r)) in
  let sold := qsum (map sale_value sales) in
  let tax := qsum (map sale_steuer sales) in
  let netto := sold - tax - sold * P.ruecknahmeabschlag (params s) in
  let s' := _handle_withdrawals month current_date s in
  due - eps <= sold /\ sold <= due /\
  (exists x : Q, cashflows s' = cashflows s ++ [x] /\ x == netto) /\
  kumulierte_entnahmen (nominal s') == kumulierte_entnahmen (nominal s) + netto /\
  total_tax_paid (nominal s') == total_tax_paid (nominal s) + tax /\
  total_withdrawal_tax_paid (nominal s')
  == total_withdrawal_tax_paid (nominal s) + tax /\
  ruecknahmeabschlag_summe (nominal s')
  == ruecknahmeabschlag_summe (nominal s) + due * P.ruecknahmeabschlag (params s).
Proof.
  intros Hphase Hjahr Hdue Hcover. cbv zeta.
  pose proof (withdrawal_loop_totals current_date (portfolio s)
                (entnahmebetrag_of current_date (params s)) empty_withdraw_acc s) as H.
  pose proof (withdrawal_loop_books current_date (portfolio s)
                (entnahmebetrag_of current_date (params s)) empty_withdraw_acc s) as Hb.
  cbv zeta in H, Hb.
  unfold _handle_withdrawals.
  replace (Z.of_nat month <? P.beitragszahldauer (params s) * 12)%Z with false
    by (symmetry; apply Z.ltb_ge; exact Hphase).
  destruct (Qlt_le_dec 0 (entnahmebetrag_jahr current_date (params s))) as [_|Hc];
    [|lra].
  destruct (Qlt_le_dec 0 (entnahmebetrag_of current_date (params s))) as [_|Hc];
    [|lra].
  destruct (Qlt_le_dec (depotwert_of (portfolio s))
                       (entnahmebetrag_of current_date (params s))) as [Hc|_];
    [lra|].
  destruct (withdrawal_loop current_date (portfolio s)
              (entnahmebetrag_of current_date (params s)) empty_withdraw_acc s)
    as [[rest acc] s1].
  cbn [fst snd empty_withdraw_acc wd_sold netto_entnahme_summe
       total_withdrawal_tax_this_year app] in *.
  destruct H as (sales & Hsold & Hn & Ht & Hnom & Hp & Hpos & Hle & Hend).
  destruct Hb as (_ & (Hcf & _) & _).
  rewrite Hsold.
  cbn [cashflow push_cashflow charge set_portfolio cashflows nominal
       kumulierte_inflation_factor real].
  rewrite Hnom, Hcf.
  destruct (nominal s) as [aa ra sk ab vw gk te se en tx wt].
  cbn [add_to kumulierte_entnahmen total_tax_paid total_withdrawal_tax_paid
       ruecknahmeabschlag_summe].
  assert (Hle' : qsum (map sale_value sales)
                 <= entnahmebetrag_of current_date (params s)) by (apply Hle; lra).
  split; [destruct Hend as [Hend | Hend]; unfold eps in *; lra|].
  split; [exact Hle'|].
  split; [eexists; split; [reflexivity | rewrite Hn; ring]|].
  split; [rewrite Hn; ring|].
  split; [rewrite Ht; ring|].
  split; [rewrite Ht; ring | ring].
Qed.

Lemma withdrawal_conservation_witness :
  total_withdrawal_tax_paid (nominal (_handle_withdrawals 12 12 withdrawal_state))
  == 916.
Proof.
  destruct (withdrawal_conservation 12 12 withdrawal_state)
    as (_ & _ & _ & _ & _ & Hwt & _);
    [ vm_compute; discriminate | vm_compute; reflexivity | vm_compute; reflexivity
    | vm_compute; discriminate | ].
  rewrite Hwt. vm_compute. reflexivity.
Defined.

(** ** The final liquidation *)

(** X14. [_finalisiere_simulation] appends the final log row - computed before
    anything is liquidated - and leaves the ledger and the allowance bucket
    as they are.  When the ledger is worth more than 1e-9 it records one
    cash flow, the value of the ledger minus the final tax minus the exit
    load on that value, and adds it to the cumulative withdrawals; the final
    tax is charged on the gain over the remaining cost basis, without any
    allowance, and is zero when the ledger is worth no more than its cost
    basis.  Otherwise it records nothing. *)
Theorem final_liquidation (s : State) :
  let p := params s in
  let restwert := depotwert_of (portfolio s) in
  let investiert := qsum (map amount_invested (portfolio s)) in
  let bereits := qsum (map vorabpauschalen_bereits_versteuert (portfolio s)) in
  let s' := _finalisiere_simulation s in
  portfolio s' = portfolio s /\
  freistellungs_topf s' = freistellungs_topf s /\
  monatliche_kosten_logs s' = monatliche_kosten_logs s ++ [log_row (end_date p) s] /\
  (restwert <= eps -> cashflows s' = cashflows s /\ nominal s' = nominal s) /\
  (eps < restwert ->
   exists steuer : Q,
     cashflows s'
     = cashflows s ++ [restwert - steuer - restwert * P.ruecknahmeabschlag p] /\
     kumulierte_entnahmen (nominal s')
     == kumulierte_entnahmen (nominal s)
        + (restwert - steuer - restwert * P.ruecknahmeabschlag p) /\
     total_tax_paid (nominal s') == total_tax_paid (nominal s) + steuer /\
     (P.versicherung_modus p = false ->
      steuer = Qmax 0 (Qmax 0 (restwert - investiert) * (1 - P.teilfreistellung p)
                       - bereits) * P.full_tax_rate p) /\
     (restwert <= investiert -> 0 <= bereits -> steuer == 0)).
Proof.
  cbv zeta. unfold _finalisiere_simulation.
  cbn [portfolio log_month params].
  destruct (Qlt_le_dec eps (depotwert_of (portfolio s))) as [Hbig | Hsmall].
  2:{ repeat split; try reflexivity. intros Hc. lra. }
  destruct (nominal s) as [aa ra sk ab vw gk te se en tx wt] eqn:En.
  destruct (P.versicherung_modus (params s)) eqn:Evm.
  - destruct ((62 <=? _)%Z && (12 <=? _)%Z)%bool;
      cbn [portfolio freistellungs_topf monatliche_kosten_logs cashflows nominal
           charge cashflow push_cashflow log_month];
      rewrite ?En; cbn [add_to kumulierte_entnahmen total_tax_paid];
      (split; [reflexivity|]); (split; [reflexivity|]); (split; [reflexivity|]);
      (split; [intros Hc; lra|]); intros _; eexists;
      (split; [reflexivity|]); (split; [ring|]); (split; [ring|]);
      (split; [discriminate|]); intros Hloss _;
      assert (Hg : Qmax 0 (depotwert_of (portfolio s)
                           - qsum (map amount_invested (portfolio s))) == 0)
        by (apply Q.max_l; lra);
      rewrite Hg; ring.
  - cbn [portfolio freistellungs_topf monatliche_kosten_logs cashflows nominal
         charge cashflow push_cashflow log_month];
      rewrite ?En;
      cbn [add_to kumulierte_entnahmen total_tax_paid total_withdrawal_tax_paid];
      (split; [reflexivity|]); (split; [reflexivity|]); (split; [reflexivity|]);
      (split; [intros Hc; lra|]); intros _; eexists;
      (split; [reflexivity|]); (split; [ring|]); (split; [ring|]);
      (split; [reflexivity|]); intros Hloss Hb.
    assert (Hg : Qmax 0 (depotwert_of (portfolio s)
                         - qsum (map amount_invested (portfolio s))) == 0)
      by (apply Q.max_l; lra).
    assert (Hz : Qmax 0 (Qmax 0 (depotwert_of (portfolio s)
                                 - qsum (map amount_invested (portfolio s)))
                         * (1 - P.teilfreistellung (params s))
                         - qsum (map vorabpauschalen_bereits_versteuert (portfolio s)))
                 == 0).
    { apply Q.max_l. rewrite Hg. lra. }
    rewrite Hz. ring.
Qed.

Lemma final_liquidation_witness :
  exists steuer : Q,
    cashflows (_finalisiere_simulation withdrawal_state)
    = cashflows withdrawal_state
      ++ [depotwert_of (portfolio withdrawal_state) - steuer
          - depotwert_of (portfolio withdrawal_state)
            * P.ruecknahmeabschlag (params withdrawal_state)] /\
    steuer == (7000 - 2000) * (28625 # 100000).
Proof.
  destruct (final_liquidation withdrawal_state) as (_ & _ & _ & _ & H).
  destruct H as (steuer & Hcf & _ & _ & Hdepot & _); [vm_compute; reflexivity|].
  exists steuer. split; [exact Hcf|].
  rewrite Hdepot by reflexivity. vm_compute. reflexivity.
Defined.

(** ** The script [250720_final.py] *)

Section Script.

Import Script250720.

Lemma depotwert_cons (entry : Entry) (rest : list Entry) :
  depotwert (entry :: rest) = e_value entry + depotwert rest.
Proof. reflexivity. Qed.

Lemma depotwert_nonneg (pf : list Entry) :
  Forall (fun e => 0 <= e_value e) pf -> 0 <= depotwert pf.
Proof.
  induction 1 as [|e l He Hl IH]; [unfold depotwert; cbn; lra|].
  rewrite depotwert_cons. lra.
Qed.

Lemma sale_loop_spec (tf rate : Q) (fuel : nat) :
  forall (pf : list Entry) (remaining : Q) (g : Globals),
  (List.length pf + 2 <= fuel)%nat ->
  Forall (fun e => 0 <= e_value e) pf ->
  exists (pf' : list Entry) (g' : Globals),
    sale_loop fuel tf rate pf remaining g = Some (pf', g') /\
    g_total_tax_paid g <= g_total_tax_paid g' /\
    (remaining <= 0 -> pf' = pf) /\
    (0 <= remaining -> remaining <= depotwert pf ->
     depotwert pf - remaining - (1 # 10000) < depotwert pf' /\
     depotwert pf' <= depotwert pf - remaining) /\
    (depotwert pf < remaining -> pf' = []).
Proof.
  induction fuel as [|fuel IH]; intros pf remaining g Hfuel Hpos; [lia|].
  cbn [sale_loop].
  destruct (Qlt_le_dec 0 remaining) as [Hrem | Hrem].
  2:{ exists pf, g. split; [reflexivity|]. split; [lra|]. split; [reflexivity|].
      split; [intros; lra|]. intros Hlt.
      pose proof (depotwert_nonneg pf Hpos). lra. }
  destruct pf as [|entry rest].
  { exists [], g. split; [reflexivity|]. split; [lra|]. split; [intros; lra|].
    change (depotwert []) with 0. split; [intros; lra | reflexivity]. }
  inversion Hpos as [|? ? Hentry Hrest]; subst.
  cbn [List.length] in Hfuel.
  destruct (Qlt_le_dec 0 (e_value entry)) as [Hv | Hv].
  2:{ destruct (IH rest remaining g) as (pf' & g' & E & Htax & _ & Hsum & Hall);
        [lia | exact Hrest |].
      exists pf', g'. split; [exact E|]. split; [exact Htax|]. split; [intros; lra|].
      rewrite depotwert_cons.
      split; [intros H0 H1; destruct Hsum; lra | intros; apply Hall; lra]. }
  unfold sell_from. cbn [e_value].
  set (steuer := Qmax 0 _).
  assert (Hsteuer : 0 <= steuer) by (unfold steuer; apply Q.le_max_l).
  set (g1 := mkGlobals _ _).
  assert (Hg1 : g_total_tax_paid g <= g_total_tax_paid g1) by (cbn; lra).
  clearbody steuer g1.
  pose proof (depotwert_nonneg rest Hrest) as Hrest0.
  pose proof (Q.min_spec (e_value entry) remaining) as Hmin.
  set (m := Qmin (e_value entry) remaining) in *. clearbody m.
  destruct (Qlt_le_dec (e_value entry - m) (1 # 10000)) as [Hpop | Hkeep].
  - destruct Hmin as [[Hlt Hmin] | [Hle Hmin]].
    + (* the whole entry is sold *)
      destruct (IH rest (remaining - m) g1)
        as (pf' & g' & E & Htax & _ & Hsum & Hall); [lia | exact Hrest |].
      exists pf', g'. split; [exact E|]. split; [lra|]. split; [intros; lra|].
      rewrite depotwert_cons.
      split; [intros H0 H1; destruct Hsum; lra | intros; apply Hall; lra].
    + (* what is left of the entry is dropped *)
      destruct fuel as [|fuel']; [lia|]. cbn [sale_loop].
      destruct (Qlt_le_dec 0 (remaining - m)); [lra|].
      exists rest, g1. split; [reflexivity|]. split; [exact Hg1|]. split; [intros; lra|].
      rewrite depotwert_cons.
      split; [intros; split; lra | intros; lra].
  - (* the entry covers what remains to sell and stays at the front *)
    destruct Hmin as [[Hlt Hmin] | [Hle Hmin]]; [lra|].
    destruct fuel as [|fuel']; [lia|]. cbn [sale_loop].
    destruct (Qlt_le_dec 0 (remaining - m)); [lra|].
    eexists; exists g1. split; [reflexivity|]. split; [exact Hg1|]. split; [intros; lra|].
    rewrite !depotwert_cons. cbn [e_value].
    split; [intros; split; lra | intros; lra].
Qed.

Lemma depotwert_app (l1 l2 : list Entry) :
  depotwert (l1 ++ l2) == depotwert l1 + depotwert l2.
Proof.
  induction l1 as [|e l1 IH]; [change (depotwert []) with 0; cbn [app]; lra|].
  cbn [app]. rewrite !depotwert_cons, IH. lra.
Qed.

(** X15. Rebalancing in the script [250720_final.py], on a ledger without
    negative entries and with a rate between 0 and 1: the loop ends, and the
    ledger afterwards is worth what it was worth before less the two loads
    on the amount moved, [rebalancing_value * (ruecknahmeabschlag +
    ausgabeaufschlag)], up to the residue below 1e-4 that is dropped with a
    nearly sold entry.  The tax of the sales is added to [total_tax_paid] and
    is not taken out of the ledger. *)
Theorem script_rebalancing_ledger (fuel : nat) (tf rate ra aa rr : Q) (d : Z)
        (pf : list Entry) (g : Globals) :
  (List.length pf + 2 <= fuel)%nat ->
  Forall (fun e => 0 <= e_value e) pf ->
  0 <= rr <= 1 ->
  exists (pf' : list Entry) (g' : Globals),
    rebalancing fuel tf rate ra aa rr d pf g = Some (pf', g') /\
    g_total_tax_paid g <= g_total_tax_paid g' /\
    depotwert pf - depotwert pf * rr * (ra + aa) - (1 # 10000) < depotwert pf' /\
    depotwert pf' <= depotwert pf - depotwert pf * rr * (ra + aa).
Proof.
  intros Hfuel Hpos [Hrr0 Hrr1]. unfold rebalancing.
  pose proof (depotwert_nonneg pf Hpos) as Hdw.
  destruct (sale_loop_spec tf rate fuel pf (depotwert pf * rr) g Hfuel Hpos)
    as (pf1 & g1 & E & Htax & _ & Hsum & _).
  rewrite E. eexists _, g1. split; [reflexivity|]. split; [exact Htax|].
  rewrite depotwert_app, depotwert_cons. change (depotwert []) with 0. cbn [e_value].
  assert (H0 : 0 <= depotwert pf * rr) by (apply Qmult_le_0_compat; assumption).
  assert (H1 : depotwert pf * rr <= depotwert pf) by nra.
  destruct (Hsum H0 H1). split; lra.
Qed.

Lemma script_rebalancing_ledger_witness :
  exists (pf' : list Entry) (g' : Globals),
    rebalancing 3 (7 # 10) (26375 # 100000) (2 # 1000) (2 # 1000) (2 # 10) 360
                [mkEntry 0 10000 10000 20000 10000 0] (mkGlobals 0 0)
    = Some (pf', g') /\
    20000 - 16 - (1 # 10000) < depotwert pf' /\ depotwert pf' <= 20000 - 16.
Proof.
  destruct (script_rebalancing_ledger 3 (7 # 10) (26375 # 100000) (2 # 1000) (2 # 1000)
              (2 # 10) 360 [mkEntry 0 10000 10000 20000 10000 0] (mkGlobals 0 0))
    as (pf' & g' & E & _ & Hlo & Hhi).
  - cbn. lia.
  - repeat constructor. cbn. lra.
  - lra.
  - exists pf', g'. split; [exact E|].
    change (depotwert [mkEntry 0 10000 10000 20000 10000 0]) with (0 + 20000 + 0)
      in Hlo, Hhi.
    split; lra.
Defined.

(** X16. The withdrawal phase of the script [250720_final.py], on a ledger
    without negative entries: the loop ends; a monthly amount that the ledger
    covers leaves the ledger lower by that amount (up to the dropped residue
    below 1e-4), and a monthly amount above the ledger value empties the
    ledger: the withdrawal is paid as far as the ledger goes and is not
    skipped. *)
Theorem script_withdrawal_ledger (fuel : nat) (tf rate annual_withdrawal : Q)
        (pf : list Entry) (g : Globals) :
  (List.length pf + 2 <= fuel)%nat ->
  Forall (fun e => 0 <= e_value e) pf ->
  0 <= annual_withdrawal ->
  exists (pf' : list Entry) (g' : Globals),
    entnahme fuel tf rate annual_withdrawal pf g = Some (pf', g') /\
    g_total_tax_paid g <= g_total_tax_paid g' /\
    (annual_withdrawal / 12 <= depotwert pf ->
     depotwert pf - annual_withdrawal / 12 - (1 # 10000) < depotwert pf' /\
     depotwert pf' <= depotwert pf - annual_withdrawal / 12) /\
    (depotwert pf < annual_withdrawal / 12 -> pf' = []).
Proof.
  intros Hfuel Hpos Haw. unfold entnahme.
  destruct (sale_loop_spec tf rate fuel pf (annual_withdrawal / 12) g Hfuel Hpos)
    as (pf1 & g1 & E & Htax & _ & Hsum & Hall).
  exists pf1, g1. split; [exact E|]. split; [exact Htax|].
  split; [|exact Hall]. apply Hsum.
  apply Qle_shift_div_l; lra.
Qed.

Lemma script_withdrawal_ledger_witness :
  exists g' : Globals,
    entnahme 3 (7 # 10) (26375 # 100000) 20000
             [mkEntry 0 1000 1000 1200 1000 0] (mkGlobals 0 0)
    = Some ([], g').
Proof.
  destruct (script_withdrawal_ledger 3 (7 # 10) (26375 # 100000) 20000
              [mkEntry 0 1000 1000 1200 1000 0] (mkGlobals 0 0))
    as (pf' & g' & E & _ & _ & Hall).
  - cbn. lia.
  - repeat constructor. cbn. lra.
  - lra.
  - exists g'. rewrite E, Hall; [reflexivity|].
    change (depotwert [mkEntry 0 1000 1000 1200 1000 0]) with (0 + 1200 + 0).
    apply Qlt_shift_div_l; lra.
Defined.

(** X17. The January accrual tax of the script [250720_final.py] on one
    entry either changes nothing at all (no tax falls due, and then the
    allowance bucket is left as it was even where the allowance covered the
    taxable amount), or it charges a positive tax and leaves the bucket at
    exactly zero. *)
Theorem script_accrual_bucket (basiszins tf rate : Q) (entry : Entry) (g : Globals) :
  let r := vorabpauschale basiszins tf rate entry g in
  r = (entry, g) \/
  (g_total_tax_paid g < g_total_tax_paid (snd r) /\
   e_value entry - e_value (fst r) == g_total_tax_paid (snd r) - g_total_tax_paid g /\
   g_freistellungs_topf (snd r) == 0).
Proof.
  cbv zeta. unfold vorabpauschale.
  set (x := Qmin _ _ * tf).
  set (sfb := Qmin (g_freistellungs_topf g) x).
  set (zu := Qmax 0 (x - sfb)).
  set (steuer := Qmax 0 (zu * rate)).
  destruct (Qlt_le_dec 0 steuer) as [Hpos | Hzero]; [right | left; reflexivity].
  cbn [fst snd g_total_tax_paid g_freistellungs_topf e_value].
  split; [lra|]. split; [lra|].
  assert (Hzu : 0 < zu).
  { destruct (Qlt_le_dec 0 zu) as [H | H]; [exact H|].
    assert (Hz : zu == 0) by (pose proof (Q.le_max_l 0 (x - sfb)); fold zu in H0; lra).
    assert (Hs : steuer == 0).
    { unfold steuer. rewrite Hz. rewrite Qmult_0_l. apply Q.max_l. lra. }
    lra. }
  destruct (Q.max_spec 0 (x - sfb)) as [[H1 H2] | [H1 H2]]; fold zu in H2; [|lra].
  destruct (Q.min_spec (g_freistellungs_topf g) x) as [[H3 H4] | [H3 H4]];
    fold sfb in H4; lra.
Qed.

Lemma depotwert_map_value (f : Entry -> Q) (pf : list Entry) :
  depotwert (map (fun e => mkEntry (e_date e) (e_amount_invested e) (e_units e) (f e)
                                   (e_start_of_prev_year_value e)
                                   (e_vorabpauschalen_bereits_versteuert e)) pf)
  = qsum (map f pf).
Proof. unfold depotwert. rewrite map_map. reflexivity. Qed.

Lemma qsum_deduct (k J : Q) (pf : list Entry) :
  qsum (map (fun entry => e_value entry - k * (e_value entry / J)) pf)
  == depotwert pf - k * (depotwert pf / J).
Proof.
  induction pf as [|e l IH].
  - change (depotwert []) with 0. cbn [map qsum fold_right]. unfold Qdiv. ring.
  - rewrite depotwert_cons. cbn [map qsum fold_right].
    change (fold_right Qplus 0 ?l) with (qsum l). rewrite IH. unfold Qdiv. ring.
Qed.

(** X18. The yearly cost block of the script [250720_final.py] adds
    [jahreswert * (ter + verwalter_gebuehr) + stueckkosten] to
    [total_costs_paid] in every case; a ledger of positive value is lowered
    by exactly that amount (and so below zero when the flat fee exceeds what
    is left), a ledger of value zero or less is left as it is. *)
Theorem script_annual_costs (ter verwalter_gebuehr stueckkosten : Q) (pf : list Entry) :
  let r := jahreskosten ter verwalter_gebuehr stueckkosten pf in
  let kosten := depotwert pf * (ter + verwalter_gebuehr) + stueckkosten in
  snd r = kosten /\
  (0 < depotwert pf -> depotwert (fst r) == depotwert pf - kosten) /\
  (depotwert pf <= 0 -> depotwert (fst r) == depotwert pf).
Proof.
  cbv zeta. unfold jahreskosten. cbn [fst snd]. split; [reflexivity|].
  fold (depotwert pf).
  set (kosten := depotwert pf * (ter + verwalter_gebuehr) + stueckkosten).
  clearbody kosten.
  destruct (Qlt_le_dec 0 (depotwert pf)) as [Hpos | Hneg].
  - split; [intros _ | intros; lra].
    rewrite (depotwert_map_value
               (fun entry => e_value entry - kosten * (e_value entry / depotwert pf))).
    rewrite (qsum_deduct kosten (depotwert pf) pf). field. lra.
  - split; [intros; lra | intros _].
    rewrite (depotwert_map_value (fun entry => e_value entry - kosten * 0)).
    clear Hneg.
    induction pf as [|e l IH]; [reflexivity|].
    rewrite depotwert_cons. cbn [map qsum fold_right].
    change (fold_right Qplus 0 ?l) with (qsum l). rewrite IH. ring.
Qed.

Lemma script_annual_costs_witness :
  depotwert (fst (jahreskosten (45 # 10000) (119 # 10000) 45
                               [mkEntry 0 30 30 30 30 0])) < 0.
Proof.
  destruct (script_annual_costs (45 # 10000) (119 # 10000) 45 [mkEntry 0 30 30 30 30 0])
    as (_ & Hpos & _).
  change (depotwert [mkEntry 0 30 30 30 30 0]) with (0 + 30 + 0) in Hpos.
  rewrite Hpos; lra.
Defined.

End Script.

(** ** The withdrawal path of [Gutachten250817.py] *)

Section Withdrawals250817.

Import Gutachten250817.





End Withdrawals250817.

(** ** Insurance acquisition costs over a run *)

Lemma abschlusskosten_add_to_other (k : Konto) (a : Q) (c : Counters) :
  k <> KAbschlusskosten -> abschlusskosten_summe (add_to k a c) = abschlusskosten_summe c.
Proof. destruct c, k; intros H; try reflexivity; congruence. Qed.

Lemma abschlusskosten_add_to_same (a : Q) (c : Counters) :
  abschlusskosten_summe (add_to KAbschlusskosten a c) = abschlusskosten_summe c + a.
Proof. destruct c; reflexivity. Qed.

(** Rewrites the acquisition-cost counter through charges to other
    counters. *)
Ltac other_charges :=
  cbn [nominal charge cashflow push_cashflow set_portfolio append_lot
       set_freistellungs_topf set_monthly_investment log_rebalancing log_month
       set_kumulierte_inflation_factor];
  repeat (rewrite abschlusskosten_add_to_other by discriminate).

Lemma handle_monthly_investment_abschluss (month : nat) (d : date) (s s1 : State) :
  _handle_monthly_investment month d s = Ok s1 ->
  abschlusskosten_summe (nominal s1) = abschlusskosten_summe (nominal s) /\
  abschlusskosten_rest s1 = abschlusskosten_rest s.
Proof.
  unfold _handle_monthly_investment.
  destruct (0 <? Z.of_nat month)%Z; cbn [bind].
  - destruct (P.dynamik_turnus_monate (params s) =? 0)%Z; cbn [bind]; [discriminate|].
    destruct (Z.of_nat month mod P.dynamik_turnus_monate (params s) =? 0)%Z;
      cbn [bind]; split_ifs; intros H; injection H as <-; other_charges;
      split; reflexivity.
  - split_ifs; intros H; injection H as <-; other_charges; split; reflexivity.
Qed.

Lemma handle_costs_abschluss (month : nat) (d : date) (s : State) :
  let charged :=
    if (P.versicherung_modus (params s)
        && (Z.of_nat month <? P.verrechnungsdauer_monate (params s))%Z)%bool
    then if Qlt_le_dec 0 (abschlusskosten_rest s)
         then abschlusskosten_rest s / inject_Z (P.verrechnungsdauer_monate (params s))
         else 0
    else 0 in
  abschlusskosten_summe (nominal (_handle_costs month d s))
  == abschlusskosten_summe (nominal s) + charged /\
  abschlusskosten_rest (_handle_costs month d s) = abschlusskosten_rest s.
Proof.
  cbv zeta. unfold _handle_costs.
  destruct (P.versicherung_modus (params s)); cbn [negb andb].
  - destruct (Qlt_le_dec 0 (depotwert_of (portfolio s)));
      cbn [abschlusskosten_rest charge set_portfolio cashflow push_cashflow params
           monthly_investment];
      destruct (Z.of_nat month <? P.verrechnungsdauer_monate (params s))%Z;
      destruct (Qlt_le_dec 0 (abschlusskosten_rest s));
      destruct (Z.of_nat month <? P.beitragszahldauer (params s) * 12)%Z;
      cbn [andb]; other_charges; rewrite ?abschlusskosten_add_to_same;
      other_charges; (split; [lra | reflexivity]).
  - split_ifs; other_charges; (split; [lra | reflexivity]).
Qed.

Lemma taxes_loop_abschluss (d : date) (pf : list Lot) :
  forall s : State,
  abschlusskosten_summe (nominal (snd (taxes_loop d pf s)))
  = abschlusskosten_summe (nominal s).
Proof.
  induction pf as [|entry rest IH]; intros s; cbn [taxes_loop]; [reflexivity|].
  assert (H1 : abschlusskosten_summe (nominal (snd (vorabpauschale d entry s)))
               = abschlusskosten_summe (nominal s)).
  { unfold vorabpauschale. split_ifs; cbn [snd]; other_charges; reflexivity. }
  destruct (vorabpauschale d entry s) as [entry' s1]. cbn [snd] in H1.
  specialize (IH s1). destruct (taxes_loop d rest s1) as [rest' s2].
  cbn [snd] in *. congruence.
Qed.

Lemma rebalancing_loop_abschluss (pf : list Lot) :
  forall (remaining : Q) (acc : RebalAcc) (s : State),
  abschlusskosten_summe (nominal (snd (rebalancing_loop pf remaining acc s)))
  = abschlusskosten_summe (nominal s).
Proof.
  induction pf as [|entry rest IH]; intros remaining acc s; cbn [rebalancing_loop];
    [reflexivity|].
  destruct (Qlt_le_dec eps remaining); [|reflexivity].
  destruct (Qlt_le_dec 0 (value entry)); [|apply IH].
  assert (H1 : abschlusskosten_summe (nominal (snd (rebalance_lot entry remaining acc s)))
               = abschlusskosten_summe (nominal s))
    by (unfold rebalance_lot; cbn [snd]; other_charges; reflexivity).
  destruct (rebalance_lot entry remaining acc s) as [[rem1 acc1] s1]. cbn [snd] in H1.
  rewrite IH. exact H1.
Qed.

Lemma simuliere_monat_abschluss (month : nat) (s s' : State) :
  _simuliere_monat month s = Ok s' ->
  let charged :=
    if (P.versicherung_modus (params s)
        && (Z.of_nat month <? P.verrechnungsdauer_monate (params s))%Z)%bool
    then if Qlt_le_dec 0 (abschlusskosten_rest s)
         then abschlusskosten_rest s / inject_Z (P.verrechnungsdauer_monate (params s))
         else 0
    else 0 in
  abschlusskosten_summe (nominal s') == abschlusskosten_summe (nominal s) + charged /\
  abschlusskosten_rest s' = abschlusskosten_rest s.
Proof.
  intros Hrun.
  destruct (simuliere_monat_steps month s s' Hrun) as (s1 & r & infl & H).
  cbv zeta in H. destruct H as (H1 & _ & _ & Hs').
  set (s0 := if (month_of month =? 1)%Z then reset_freistellungs_topf month s else s)
    in *.
  assert (E0 : nominal s0 = nominal s /\ abschlusskosten_rest s0 = abschlusskosten_rest s
               /\ params s0 = params s)
    by (unfold s0; destruct (month_of month =? 1)%Z; repeat split).
  destruct E0 as (N0 & R0 & P0).
  destruct (handle_monthly_investment_abschluss month month s0 s1 H1) as (N1 & R1).
  destruct (handle_monthly_investment_frame month month s0 s1 H1) as ((P1 & _) & _).
  pose proof (handle_costs_abschluss month month s1) as H2. cbv zeta in H2.
  rewrite P1, P0, R1, R0, N1, N0 in H2. destruct H2 as (N2 & R2).
  set (s2 := _handle_costs month month s1) in *.
  set (s4 := set_kumulierte_inflation_factor _ (set_portfolio (grow r (portfolio s2)) s2))
    in *.
  set (s5 := _handle_taxes month s4) in *.
  assert (N5 : abschlusskosten_summe (nominal s5) = abschlusskosten_summe (nominal s2)).
  { unfold s5, _handle_taxes. split_ifs; [|reflexivity].
    pose proof (taxes_loop_abschluss month (portfolio s4) s4) as Ht.
    destruct (taxes_loop month (portfolio s4) s4) as [pf sx]. exact Ht. }
  destruct (handle_taxes_books month s4) as ((_ & _ & _ & _ & R5 & _) & _).
  fold s5 in R5.
  set (s6 := _handle_rebalancing month s5) in *.
  assert (N6 : abschlusskosten_summe (nominal s6) = abschlusskosten_summe (nominal s5)
               /\ abschlusskosten_rest s6 = abschlusskosten_rest s5).
  { unfold s6, _handle_rebalancing.
    destruct (negb (P.versicherung_modus (params s5)) && (month_of month =? 12)%Z
              && (if Qlt_le_dec 0 (P.rebalancing_rate (params s5)) then true else false))%bool;
      [|split; reflexivity].
    destruct (Qlt_le_dec 0 (depotwert_of (portfolio s5) * P.rebalancing_rate (params s5)));
      [|split; reflexivity].
    pose proof (rebalancing_loop_abschluss (portfolio s5)
                  (depotwert_of (portfolio s5) * P.rebalancing_rate (params s5))
                  empty_rebal_acc s5) as Hr.
    pose proof (rebalancing_loop_books (portfolio s5)
                  (depotwert_of (portfolio s5) * P.rebalancing_rate (params s5))
                  empty_rebal_acc s5) as Hb.
    cbv zeta in Hb.
    destruct (rebalancing_loop _ _ _ _) as [[rest acc] sx]. cbn [snd] in Hr, Hb.
    destruct Hb as ((_ & _ & _ & _ & Hrest & _) & _).
    destruct (Qlt_le_dec eps (total_netto acc)); other_charges;
      cbn [abschlusskosten_rest]; split; assumption. }
  destruct N6 as (N6 & R6).
  set (s7 := _handle_withdrawals month month s6) in *.
  assert (N7 : abschlusskosten_summe (nominal s7) = abschlusskosten_summe (nominal s6)
               /\ abschlusskosten_rest s7 = abschlusskosten_rest s6).
  { unfold s7, _handle_withdrawals.
    destruct (Z.of_nat month <? P.beitragszahldauer (params s6) * 12)%Z;
      [split; reflexivity|].
    destruct (Qlt_le_dec 0 (entnahmebetrag_jahr month (params s6)));
      [|split; reflexivity].
    destruct (Qlt_le_dec 0 (entnahmebetrag_of month (params s6)));
      [|split; reflexivity].
    destruct (Qlt_le_dec (depotwert_of (portfolio s6))
                         (entnahmebetrag_of month (params s6)));
      [split; reflexivity|].
    pose proof (withdrawal_loop_totals month (portfolio s6)
                  (entnahmebetrag_of month (params s6)) empty_withdraw_acc s6) as Hw.
    pose proof (withdrawal_loop_books month (portfolio s6)
                  (entnahmebetrag_of month (params s6)) empty_withdraw_acc s6) as Hb.
    cbv zeta in Hw, Hb.
    destruct (withdrawal_loop _ _ _ _ _) as [[rest acc] sx]. cbn [fst snd] in Hw, Hb.
    destruct Hw as (_ & _ & _ & _ & Hnom & _).
    destruct Hb as ((_ & _ & _ & _ & Hrest & _) & _).
    other_charges. cbn [abschlusskosten_rest]. rewrite Hnom. split; [reflexivity|assumption]. }
  destruct N7 as (N7 & R7).
  assert (N8 : abschlusskosten_summe (nominal s') = abschlusskosten_summe (nominal s7)
               /\ abschlusskosten_rest s' = abschlusskosten_rest s7)
    by (subst s'; destruct (month_of month =? 12)%Z; split; reflexivity).
  destruct N8 as (N8 & R8).
  split.
  - rewrite N8, N7, N6, N5. exact N2.
  - rewrite R8, R7, R6, R5. exact R2.
Qed.

Lemma run_months_abschluss_in (n : nat) :
  forall (a : nat) (s s' : State),
  run_months (seq a n) s = Ok s' ->
  P.versicherung_modus (params s) = true ->
  (Z.of_nat (a + n) <= P.verrechnungsdauer_monate (params s))%Z ->
  abschlusskosten_summe (nominal s')
  == abschlusskosten_summe (nominal s)
     + inject_Z (Z.of_nat n)
       * (if Qlt_le_dec 0 (abschlusskosten_rest s)
          then abschlusskosten_rest s / inject_Z (P.verrechnungsdauer_monate (params s))
          else 0) /\
  abschlusskosten_rest s' = abschlusskosten_rest s.
Proof.
  induction n as [|n IH]; intros a s s'; cbn [seq run_months].
  - intros H _ _. injection H as <-. split; [|reflexivity].
    change (inject_Z (Z.of_nat 0)) with 0. lra.
  - destruct (_simuliere_monat a s) as [s1|e] eqn:E; cbn [bind]; [|discriminate].
    intros Hrun Hvm Hin.
    destruct (simuliere_monat_frame a s s1 E) as ((Hp & _) & _).
    destruct (simuliere_monat_abschluss a s s1 E) as (N1 & R1).
    rewrite Hvm in N1.
    replace (Z.of_nat a <? P.verrechnungsdauer_monate (params s))%Z with true in N1
      by (symmetry; apply Z.ltb_lt; lia).
    cbn [andb] in N1.
    destruct (IH (S a) s1 s' Hrun) as (N2 & R2).
    + rewrite Hp. exact Hvm.
    + rewrite Hp. lia.
    + rewrite R1, Hp in N2. split; [|congruence].
      rewrite N2, N1.
      replace (Z.of_nat (S n)) with (Z.of_nat n + 1)%Z by lia.
      rewrite inject_Z_plus. change (inject_Z 1) with 1. lra.
Qed.

Lemma run_months_abschluss_out (n : nat) :
  forall (a : nat) (s s' : State),
  run_months (seq a n) s = Ok s' ->
  (P.verrechnungsdauer_monate (params s) <= Z.of_nat a)%Z ->
  abschlusskosten_summe (nominal s') == abschlusskosten_summe (nominal s).
Proof.
  induction n as [|n IH]; intros a s s'; cbn [seq run_months].
  - intros H _. injection H as <-. reflexivity.
  - destruct (_simuliere_monat a s) as [s1|e] eqn:E; cbn [bind]; [|discriminate].
    intros Hrun Hout.
    destruct (simuliere_monat_frame a s s1 E) as ((Hp & _) & _).
    destruct (simuliere_monat_abschluss a s s1 E) as (N1 & _).
    replace (Z.of_nat a <? P.verrechnungsdauer_monate (params s))%Z with false in N1
      by (symmetry; apply Z.ltb_ge; lia).
    rewrite andb_false_r in N1.
    rewrite (IH (S a) s1 s' Hrun) by (rewrite Hp; lia).
    rewrite N1. lra.
Qed.

Lemma initialisiere_simulation_abschluss (root12 : Q -> Q) (p : P.t)
      (dyn : option (list Q)) (draws : list Q) :
  P.versicherung_modus p = true ->
  let s := _initialisiere_simulation root12 (__init__ p dyn draws) in
  abschlusskosten_summe (nominal s) = 0 /\
  abschlusskosten_rest s
  = P.initial_investment p * P.abschlusskosten_einmalig_prozent p
    + (P.monthly_investment p * inject_Z (P.beitragszahldauer p) * 12)
      * P.abschlusskosten_monatlich_prozent p /\
  P.versicherung_modus (params s) = true /\
  P.verrechnungsdauer_monate (params s) = P.verrechnungsdauer_monate p /\
  P.laufzeit (params s) = P.laufzeit p.
Proof.
  intros Hvm. cbv zeta. unfold _initialisiere_simulation, __init__.
  cbn [params P.versicherung_modus P.set_derived]. rewrite Hvm.
  match goal with |- context [Qlt_le_dec ?a ?b] => destruct (Qlt_le_dec a b) end;
    destruct p; cbn in *; repeat split; assumption.
Qed.

Lemma finalisiere_simulation_abschluss (s : State) :
  abschlusskosten_summe (nominal (_finalisiere_simulation s))
  = abschlusskosten_summe (nominal s).
Proof.
  unfold _finalisiere_simulation. cbn [portfolio log_month params].
  destruct (Qlt_le_dec eps (depotwert_of (portfolio s))); [|reflexivity].
  destruct (P.versicherung_modus (params s)).
  - destruct (_ && _)%bool; other_charges; reflexivity.
  - other_charges. reflexivity.
Qed.

(** X20. Insurance mode, amortisation window inside the horizon: over a whole
    run the acquisition-cost counter ends at exactly the amount computed at
    initialisation, [initial_investment * abschlusskosten_einmalig_prozent
    + monthly_investment * beitragszahldauer * 12
    * abschlusskosten_monatlich_prozent], or at zero when that amount is not
    positive; the equal monthly instalments are recorded whether or not the
    ledger can bear them. *)
Theorem acquisition_costs_amortised (root12 : Q -> Q) (p : P.t)
        (dyn : option (list Q)) (draws : list Q) (s' : State) :
  P.versicherung_modus p = true ->
  (0 < P.verrechnungsdauer_monate p <= P.laufzeit p * 12)%Z ->
  run_simulation root12 (__init__ p dyn draws) = Ok s' ->
  abschlusskosten_summe (nominal s')
  == Qmax 0 (P.initial_investment p * P.abschlusskosten_einmalig_prozent p
             + (P.monthly_investment p * inject_Z (P.beitragszahldauer p) * 12)
               * P.abschlusskosten_monatlich_prozent p).
Proof.
  intros Hvm [Hpos Hle]. unfold run_simulation.
  destruct (initialisiere_simulation_abschluss root12 p dyn draws Hvm)
    as (N0 & R0 & V0 & D0 & L0).
  cbv zeta in N0, R0, V0, D0, L0.
  set (s0 := _initialisiere_simulation root12 (__init__ p dyn draws)) in *.
  rewrite L0.
  set (v := Z.to_nat (P.verrechnungsdauer_monate p)).
  replace (Z.to_nat (P.laufzeit p * 12))
    with (v + (Z.to_nat (P.laufzeit p * 12) - v))%nat by (unfold v; lia).
  rewrite seq_app, run_months_app. cbn [plus].
  destruct (run_months (seq 0 v) s0) as [s1|e] eqn:E1; cbn [bind]; [|discriminate].
  match goal with
  | |- context [run_months (seq ?a ?n) s1] =>
    destruct (run_months (seq a n) s1) as [s2|e] eqn:E2; cbn [bind]; [|discriminate]
  end.
  intros H. injection H as <-.
  rewrite finalisiere_simulation_abschluss.
  destruct (run_months_frame _ _ _ E1) as (P1 & _).
  rewrite (run_months_abschluss_out _ _ _ _ E2) by (rewrite P1, D0; unfold v; lia).
  destruct (run_months_abschluss_in v 0 s0 s1 E1 V0) as (N1 & _);
    [rewrite D0; unfold v; lia|].
  rewrite N1, N0, R0, D0.
  replace (Z.of_nat v) with (P.verrechnungsdauer_monate p) by (unfold v; lia).
  assert (Hq : 0 < inject_Z (P.verrechnungsdauer_monate p))
    by (change 0 with (inject_Z 0); rewrite <- Zlt_Qlt; exact Hpos).
  set (total := P.initial_investment p * P.abschlusskosten_einmalig_prozent p
                + (P.monthly_investment p * inject_Z (P.beitragszahldauer p) * 12)
                  * P.abschlusskosten_monatlich_prozent p) in *.
  destruct (Qlt_le_dec 0 total) as [Ht | Ht].
  - rewrite Q.max_r by lra. field. lra.
  - rewrite Q.max_l by lra. lra.
Qed.

Lemma acquisition_costs_amortised_witness :
  exists s' : State,
    run_simulation (fun _ => 1)
                   (__init__ short_amortisation_params None (repeat 0 24)) = Ok s' /\
    abschlusskosten_summe (nominal s') == 370.
Proof.
  destruct (run_simulation_total (fun _ => 1)
              (__init__ short_amortisation_params None (repeat 0 24))) as [s' Hrun];
    [cbn; discriminate | exact I | cbn; lia |].
  exists s'. split; [exact Hrun|].
  rewrite (acquisition_costs_amortised _ short_amortisation_params _ _ _ eq_refl
             ltac:(cbn; lia) Hrun).
  vm_compute. reflexivity.
Defined.
